(** * AERA Level 3 nightly pipeline: a shallow embedding

    Source: [scripts/nightly-level3-pipeline.py].

    Numbers.  The script computes on IEEE doubles.  The embedding uses exact
    arithmetic for scores, drifts and projections (rationals, [Q]) and for
    the standard scaler (reals, [R], because of its square root), and
    integers ([Z]) for counts, labels and timestamps (microseconds): the
    statements about those are about the exact value of the formula the
    script evaluates, not about the last bit of a double.  Durations are the
    exception: a whole number of milliseconds is cut out of a double
    product, and the embedding rounds as binary64 does (module [Double]). *)

From Stdlib Require Import ZArith QArith Qround Qminmax Qpower Lia Lqa.
From Stdlib Require Import Floats Uint63.
From Stdlib Require Import Reals Lra.
From Stdlib Require Import List String Ascii Bool Sorting.Sorted.
From Stdlib Require OrderedTypeEx.
Import ListNotations.

Local Open Scope Z_scope.

(** ** Python and numpy primitives *)

Module Py.

(** [x or d] on integers: [d] replaces a zero. *)
Definition or_int (x d : Z) : Z := if x =? 0 then d else x.

(** [round(x)] to an integer, ties to the even neighbour (both the built-in
    [round] and numpy's [rint] do this). *)
Definition round_half_even (q : Q) : Z :=
  let f := Qfloor q in
  match Qcompare (q - inject_Z f) (1 # 2) with
  | Lt => f
  | Gt => f + 1
  | Eq => if Z.even f then f else f + 1
  end.

(** [round(x, 4)] and [Series.round(4)]. *)
Definition round4 (q : Q) : Q :=
  Qmake (round_half_even (q * inject_Z 10000)) 10000.

(** [int(np.sqrt(n))] for a non-negative integer [n]: the integer part of the
    square root. *)
Definition int_sqrt (n : Z) : Z := Z.sqrt n.

(** [np.clip(x, lo, None)], [np.minimum], [max] on numbers. *)
Definition qmax (a b : Q) : Q := if Qle_bool a b then b else a.
Definition qmin (a b : Q) : Q := if Qle_bool a b then a else b.
Definition clip_lower (x lo : Q) : Q := qmax x lo.

(** [Series.fillna(d)], one cell. *)
Definition fillna {A : Type} (d : A) (x : option A) : A :=
  match x with Some v => v | None => d end.

(** [Series.astype(int)] on a boolean cell, as a number. *)
Definition astype_int (b : bool) : Q := if b then 1%Q else 0%Q.

(** [Series.dropna()]. *)
Fixpoint dropna {A : Type} (l : list (option A)) : list A :=
  match l with
  | [] => []
  | Some v :: l' => v :: dropna l'
  | None :: l' => dropna l'
  end.

Definition qsum (l : list Q) : Q := fold_left Qplus l 0%Q.

(** [Series.mean()], [max()], [min()]: missing cells are skipped.  On a
    series with no value pandas answers NaN; the pipeline never takes these
    of an empty group, and the embedding answers 0 there. *)
Definition mean (l : list (option Q)) : Q :=
  let v := dropna l in (qsum v / inject_Z (Z.of_nat (List.length v)))%Q.
Definition series_max (l : list (option Q)) : Q :=
  match dropna l with [] => 0%Q | x :: xs => fold_left qmax xs x end.
Definition series_min (l : list (option Q)) : Q :=
  match dropna l with [] => 0%Q | x :: xs => fold_left qmin xs x end.

(** [str.rstrip("/")] *)
Fixpoint rstrip_slash (s : string) : string :=
  match s with
  | EmptyString => EmptyString
  | String c s' =>
      match rstrip_slash s' with
      | EmptyString => if Ascii.eqb c "/"%char then EmptyString
                       else String c EmptyString
      | t => String c t
      end
  end.

End Py.

(** ** Model parameters derived from the population size (lines 193, 198) *)

(** [k = max(2, min(6, int(np.sqrt(len(df))) or 2))] *)
Definition kmeans_k (n : Z) : Z :=
  Z.max 2 (Z.min 6 (Py.or_int (Py.int_sqrt n) 2)).

(** [min_samples = max(3, min(8, len(df) // 20 or 3))] *)
Definition dbscan_min_samples (n : Z) : Z :=
  Z.max 3 (Z.min 8 (Py.or_int (n / 20) 3)).

(** [eps = 1.25] *)
Definition dbscan_eps : Q := 125 # 100.

(** [contamination = 0.05] *)
Definition iso_contamination : Q := 5 # 100.

(** The words of the specification, for comparison with the code. *)
Module SpecWords.

Definition clamp (x lo hi : Z) : Z := Z.max lo (Z.min hi x).

(** [round(sqrt(n))]: the integer nearest to the real square root of [n].
    A square root of an integer is never half-way between two integers, so
    no tie rule is needed; [sqrt n + 1/2] has integer part
    [(isqrt (4 n) + 1) / 2]. *)
Definition round_sqrt (n : Z) : Z := (Z.sqrt (4 * n) + 1) / 2.

(** [k = clamp(round(sqrt(n)), 2, 6)] *)
Definition k_of (n : Z) : Z := clamp (round_sqrt n) 2 6.

(** [k = clamp(floor(sqrt(n)), 2, 6)] *)
Definition k_floor_of (n : Z) : Z := clamp (Z.sqrt n) 2 6.

(** [min_samples = clamp(floor(n/20), 3, 8)] *)
Definition min_samples_of (n : Z) : Z := clamp (n / 20) 3 8.

End SpecWords.

(** ** Drift classification (lines 102-107) *)

Inductive drift_label := ACCELERATING | ESCALATING | STABLE.

Definition Qgtb (a b : Q) : bool := negb (Qle_bool a b).

Definition classify_drift (v : Q) : drift_label :=
  if Qgtb v (25 # 100) then ACCELERATING
  else if Qgtb v (15 # 100) then ESCALATING
  else STABLE.

(** ** Entity records (rows of [vulnerability_profiles], line 174)

    A JSON [null] is [None].  [updated_at] is selected but never read. *)

Record entity := {
  id : string;
  organization_id : option string;
  county_id : option string;
  state_id : option string;
  household_size : option Q;
  medication_dependency : option bool;
  insulin_dependency : option bool;
  oxygen_powered_device : option bool;
  mobility_limitation : option bool;
  transportation_access : option bool;
  financial_strain : option bool;
  risk_score : option Q
}.

Definition set_risk_score (e : entity) (r : Q) : entity :=
  {| id := id e;
     organization_id := organization_id e;
     county_id := county_id e;
     state_id := state_id e;
     household_size := household_size e;
     medication_dependency := medication_dependency e;
     insulin_dependency := insulin_dependency e;
     oxygen_powered_device := oxygen_powered_device e;
     mobility_limitation := mobility_limitation e;
     transportation_access := transportation_access e;
     financial_strain := financial_strain e;
     risk_score := Some r |}.

(** ** Risk score (lines 87-99), one row of the vectorised expression

    The flag columns come from JSON.  pandas stores such a column with dtype
    [bool] when every cell is a boolean and with dtype [object] as soon as one
    cell is null, and [fillna] fills the nulls without changing the dtype.
    [fillna(False).astype(int)] is 0 or 1 either way.  Line 97 applies [~]
    before [astype(int)]: on a [bool] column that is the logical negation, on
    an [object] column it is Python's integer complement of each cell,
    [~True = -2] and [~False = -1]. *)

Inductive dtype := BoolDtype | ObjectDtype.

Definition is_null {A : Type} (c : option A) : bool :=
  match c with None => true | Some _ => false end.

Definition column_dtype (col : list (option bool)) : dtype :=
  if existsb is_null col then ObjectDtype else BoolDtype.

(** dtype of [df["transportation_access"]] *)
Definition transport_dtype (df : list entity) : dtype :=
  column_dtype (map transportation_access df).

(** [(~column).astype(int)], one cell of the filled column *)
Definition invert_int (d : dtype) (b : bool) : Q :=
  match d with
  | BoolDtype => Py.astype_int (negb b)
  | ObjectDtype => if b then (-2)%Q else (-1)%Q
  end.

Definition household_component (e : entity) : Q :=
  let c := (Py.clip_lower (Py.fillna 1 (household_size e)) 1 * (4 # 10))%Q in
  Py.qmin c (32 # 10).

Definition risk_row (d : dtype) (e : entity) : Q :=
  Py.round4
    (household_component e
     + Py.astype_int (Py.fillna false (medication_dependency e)) * (18 # 10)
     + Py.astype_int (Py.fillna false (insulin_dependency e)) * (22 # 10)
     + Py.astype_int (Py.fillna false (oxygen_powered_device e)) * (25 # 10)
     + Py.astype_int (Py.fillna false (mobility_limitation e)) * (15 # 10)
     + invert_int d (Py.fillna true (transportation_access e)) * (12 # 10)
     + Py.astype_int (Py.fillna false (financial_strain e)) * (14 # 10))%Q.

Definition calculate_risk (df : list entity) : list Q :=
  map (risk_row (transport_dtype df)) df.

(** The score in the words of the specification: the fields are defaulted
    first, then the formula is applied and rounded to four decimals. *)
Module SpecRisk.

Record defaulted := {
  size : Q;
  medication : bool;
  insulin : bool;
  oxygen_device : bool;
  mobility : bool;
  transport : bool;
  strain : bool
}.

Definition default_to {A : Type} (d : A) (x : option A) : A :=
  match x with None => d | Some v => v end.

Definition defaults (e : entity) : defaulted :=
  {| size := default_to 1%Q (household_size e);
     medication := default_to false (medication_dependency e);
     insulin := default_to false (insulin_dependency e);
     oxygen_device := default_to false (oxygen_powered_device e);
     mobility := default_to false (mobility_limitation e);
     transport := default_to true (transportation_access e);
     strain := default_to false (financial_strain e) |}.

Definition ind (b : bool) : Q := if b then 1%Q else 0%Q.

Definition formula (d : defaulted) : Q :=
  (Qmin (Qmax (size d) 1 * (4 # 10)) (32 # 10)
   + (18 # 10) * ind (medication d)
   + (22 # 10) * ind (insulin d)
   + (25 # 10) * ind (oxygen_device d)
   + (15 # 10) * ind (mobility d)
   + (12 # 10) * (1 - ind (transport d))
   + (14 # 10) * ind (strain d))%Q.

Definition score (d : defaulted) : Q := Py.round4 (formula d).

End SpecRisk.

(** What line 97 contributes, against the 1.2 * (1 - transportation_access)
    of the specification: the same on a [bool] column, 2.4 less on an
    [object] column. *)
Definition dtype_shift (d : dtype) : Q :=
  match d with BoolDtype => 0%Q | ObjectDtype => (24 # 10)%Q end.

(** [df["risk_score"] = calculate_risk(df)] (line 184) *)
Definition rescore (df : list entity) : list entity :=
  map (fun e => set_risk_score e (risk_row (transport_dtype df) e)) df.

(** ** Feature matrix (lines 110-122): one row of eight numbers per entity *)

Definition feature_row (e : entity) : list Q :=
  [ Py.fillna 0%Q (risk_score e);
    Py.fillna 1%Q (household_size e);
    Py.astype_int (Py.fillna false (medication_dependency e));
    Py.astype_int (Py.fillna false (insulin_dependency e));
    Py.astype_int (Py.fillna false (oxygen_powered_device e));
    Py.astype_int (Py.fillna false (mobility_limitation e));
    Py.astype_int (Py.fillna true (transportation_access e));
    Py.astype_int (Py.fillna false (financial_strain e)) ].

Definition prepare_features (df : list entity) : list (list Q) :=
  map feature_row df.

(** ** scikit-learn's [StandardScaler().fit_transform] (line 191)

    Library code, not part of the script.  What stands here is what its
    documentation describes, in exact arithmetic: per column, the mean and
    the population variance are fitted; [scale_] is the square root of the
    variance, with 1 in place of the scale of a constant column; every cell
    becomes [(x - mean_) / scale_].  The library computes in doubles, so its
    cells differ from these by rounding errors (a constant column comes out
    near 0, not at 0).  The pipeline only hands the matrix on to the three
    models, which are parameters of the world below; nothing is stated here
    about the cells of the matrix. *)

Module StandardScaler.
Local Open Scope R_scope.

Definition rsum (l : list R) : R := fold_right Rplus 0 l.

Definition mean_ (c : list R) : R := rsum c / INR (List.length c).

Definition var_ (c : list R) : R :=
  mean_ (map (fun x => (x - mean_ c) * (x - mean_ c)) c).

Definition std (c : list R) : R := sqrt (var_ c).

Definition scale_ (c : list R) : R :=
  if Req_dec_T (var_ c) 0 then 1 else sqrt (var_ c).

Definition column (j : nat) (X : list (list R)) : list R :=
  map (fun row => nth j row 0) X.

Definition n_features (X : list (list R)) : nat :=
  match X with [] => 0%nat | row :: _ => List.length row end.

Definition transform_cell (c : list R) (x : R) : R := (x - mean_ c) / scale_ c.

Definition transform_row (X : list (list R)) (row : list R) : list R :=
  map (fun j => transform_cell (column j X) (nth j row 0))
      (seq 0 (n_features X)).

Definition fit_transform (X : list (list R)) : list (list R) :=
  map (transform_row X) X.

End StandardScaler.

(** The matrix handed to the scaler: the feature frame as real numbers. *)
Definition to_matrix (F : list (list Q)) : list (list R) := map (map Q2R) F.

Definition scaled_features (df : list entity) : list (list R) :=
  StandardScaler.fit_transform (to_matrix (prepare_features df)).

(** ** Region grouping (lines 224-236)

    After the three model stages every row of the frame carries its cluster
    labels and its outlier flag. *)

Record profile := {
  ent : entity;
  kmeans_cluster : Z;
  dbscan_cluster : Z;
  is_outlier : bool
}.

(** A cell as Python sees it when a row of the grouped frame is read. *)
Inductive pyval := PNone | PNaN | PStr (s : string).

(** A JSON value decoded by [resp.json()]: [null] is [None]. *)
Definition of_json (o : option string) : pyval :=
  match o with Some s => PStr s | None => PNone end.

(** A key of [groupby(..., dropna=False)] as the grouped frame holds it:
    pandas keeps the rows whose key is missing in one group and labels that
    group NaN, whatever the missing marker was ([None] included). *)
Definition group_label (o : option string) : pyval :=
  match o with Some s => PStr s | None => PNaN end.

(** Python truth value: [None] and the empty string are false; NaN, a
    non-zero float, is true. *)
Definition truthy (v : pyval) : bool :=
  match v with
  | PNone => false
  | PNaN => true
  | PStr s => negb (String.eqb s "")
  end.

(** [v or d] *)
Definition or_val (v d : pyval) : pyval := if truthy v then v else d.

(** [a == b] as a dictionary compares keys that are distinct objects: NaN
    equals nothing. *)
Definition py_eqb (a b : pyval) : bool :=
  match a, b with
  | PNone, PNone => true
  | PStr s, PStr t => String.eqb s t
  | _, _ => false
  end.

Definition group_key : Type := option string * option string * option string.

Definition key_of (r : profile) : group_key :=
  (county_id (ent r), state_id (ent r), organization_id (ent r)).

(** Group keys come out sorted ([sort=True] is the default of [groupby]),
    column by column, the missing label last. *)
Definition label_compare (a b : option string) : comparison :=
  match a, b with
  | Some s, Some t => String.compare s t
  | Some _, None => Lt
  | None, Some _ => Gt
  | None, None => Eq
  end.

Definition key_compare (a b : group_key) : comparison :=
  let '(a1, a2, a3) := a in
  let '(b1, b2, b3) := b in
  match label_compare a1 b1 with
  | Eq => match label_compare a2 b2 with
          | Eq => label_compare a3 b3
          | c => c
          end
  | c => c
  end.

Definition key_eqb (a b : group_key) : bool :=
  match key_compare a b with Eq => true | _ => false end.

Fixpoint insert_key (k : group_key) (l : list group_key) : list group_key :=
  match l with
  | [] => [k]
  | h :: t =>
      match key_compare k h with
      | Lt => k :: l
      | Eq => l
      | Gt => h :: insert_key k t
      end
  end.

Definition group_keys (df : list profile) : list group_key :=
  fold_right insert_key [] (map key_of df).

(** [int(pd.Series.mode(s).iloc[0]) if len(s) else None]: [mode] lists the
    most frequent values in increasing order, so its first entry is the
    smallest of them. *)
Definition occurrences (x : Z) (l : list Z) : nat :=
  List.length (filter (Z.eqb x) l).

Definition mode_first (s : list Z) : option Z :=
  fold_left
    (fun best x =>
       match best with
       | None => Some x
       | Some b =>
           if (occurrences b s <? occurrences x s)%nat
              || ((occurrences b s =? occurrences x s)%nat && (x <? b))
           then Some x else Some b
       end)
    s None.

Module Grouped.
Record row := {
  county_id : pyval;
  state_id : pyval;
  organization_id : pyval;
  profile_count : Z;
  avg_risk_score : Q;
  max_risk_score : Q;
  min_risk_score : Q;
  anomaly_count : Z;
  kmeans_cluster : option Z;
  dbscan_cluster : option Z
}.
End Grouped.

Definition aggregate (k : group_key) (rows : list profile) : Grouped.row :=
  let '(c, s, o) := k in
  let risks := map (fun r => risk_score (ent r)) rows in
  {| Grouped.county_id := group_label c;
     Grouped.state_id := group_label s;
     Grouped.organization_id := group_label o;
     Grouped.profile_count := Z.of_nat (List.length rows);
     Grouped.avg_risk_score := Py.mean risks;
     Grouped.max_risk_score := Py.series_max risks;
     Grouped.min_risk_score := Py.series_min risks;
     Grouped.anomaly_count :=
       Z.of_nat (List.length (filter is_outlier rows));
     Grouped.kmeans_cluster := mode_first (map kmeans_cluster rows);
     Grouped.dbscan_cluster := mode_first (map dbscan_cluster rows) |}.

Definition members (k : group_key) (df : list profile) : list profile :=
  filter (fun r => key_eqb (key_of r) k) df.

Definition grouped (df : list profile) : list Grouped.row :=
  map (fun k => aggregate k (members k df)) (group_keys df).

(** ** Prior snapshots and the lookup table (lines 212-222) *)

Module Prior.
(** A stored row of [region_snapshots], the four selected columns. *)
Record row := {
  county_id : option string;
  state_id : option string;
  avg_risk_score : option Q;
  snapshot_date : Z
}.
End Prior.

(** [prev_date = today - timedelta(days=30)]; dates are day numbers. *)
Definition prev_date (today : Z) : Z := today - 30.

(** The rows the store answers to [snapshot_date=eq.<date>]. *)
Definition select_by_date (table : list Prior.row) (d : Z) : list Prior.row :=
  filter (fun r => Prior.snapshot_date r =? d) table.

Definition lookup_key : Type := pyval * pyval.

Definition lookup_key_eqb (a b : lookup_key) : bool :=
  py_eqb (fst a) (fst b) && py_eqb (snd a) (snd b).

(** A Python dictionary: keys in insertion order, a later value for a key
    that is present replaces the earlier one. *)
Definition dict : Type := list (lookup_key * Q).

Fixpoint dict_set (k : lookup_key) (v : Q) (d : dict) : dict :=
  match d with
  | [] => [(k, v)]
  | (k', v') :: d' =>
      if lookup_key_eqb k' k then (k', v) :: d'
      else (k', v') :: dict_set k v d'
  end.

Fixpoint dict_get (d : dict) (k : lookup_key) (default : Q) : Q :=
  match d with
  | [] => default
  | (k', v') :: d' =>
      if lookup_key_eqb k' k then v' else dict_get d' k default
  end.

Fixpoint dict_mem (d : dict) (k : lookup_key) : bool :=
  match d with
  | [] => false
  | (k', _) :: d' => lookup_key_eqb k' k || dict_mem d' k
  end.

(** [float(r.get("avg_risk_score", 0) or 0)] *)
Definition prior_avg (r : Prior.row) : Q :=
  match Prior.avg_risk_score r with
  | None => 0%Q
  | Some q => if Qeq_bool q 0 then 0%Q else q
  end.

Definition prior_key (r : Prior.row) : lookup_key :=
  (of_json (Prior.county_id r), of_json (Prior.state_id r)).

Definition prev_lookup (prev_snapshots : list Prior.row) : dict :=
  fold_left (fun d r => dict_set (prior_key r) (prior_avg r) d)
            prev_snapshots [].

(** The stored row whose average the table holds for a key: the last one
    among the selected rows that carries the key. *)
Definition last_match (rows : list Prior.row) (key : lookup_key)
    : option Prior.row :=
  fold_left (fun acc r => if lookup_key_eqb (prior_key r) key then Some r
                          else acc)
            rows None.

(** ** Snapshot rows (lines 238-272) *)

Module Snapshot.
Record row := {
  snapshot_date : Z;
  snapshot_window_days : Z;
  organization_id : pyval;
  county_id : pyval;
  state_id : pyval;
  profile_count : Z;
  avg_risk_score : Q;
  max_risk_score : Q;
  min_risk_score : Q;
  risk_growth_pct : Q;
  drift_value : Q;
  drift_status : drift_label;
  kmeans_cluster : option Z;
  dbscan_cluster : option Z;
  anomaly_count : Z;
  projection_14d : Q;
  model_version : string;
  pipeline_run_id : string;
  metadata : list (string * string)
}.
End Snapshot.

Definition UNKNOWN : pyval := PStr "UNKNOWN".

Definition drift_of (avg_risk prev_avg : Q) : Q :=
  if Qeq_bool prev_avg 0 then 0%Q
  else Py.round4 ((avg_risk - prev_avg) / prev_avg).

Definition snapshot_row (today : Z) (lookup : dict)
    (model_version run_id : string) (row : Grouped.row) : Snapshot.row :=
  let county_id := or_val (Grouped.county_id row) UNKNOWN in
  let state_id := or_val (Grouped.state_id row) UNKNOWN in
  let avg_risk := Grouped.avg_risk_score row in
  let prev_avg := dict_get lookup (county_id, state_id) 0%Q in
  let drift := drift_of avg_risk prev_avg in
  let growth := drift in
  let projection_14d := Py.round4 (avg_risk * (1 + growth * (5 # 10)))%Q in
  {| Snapshot.snapshot_date := today;
     Snapshot.snapshot_window_days := 30;
     Snapshot.organization_id := Grouped.organization_id row;
     Snapshot.county_id := county_id;
     Snapshot.state_id := state_id;
     Snapshot.profile_count := Grouped.profile_count row;
     Snapshot.avg_risk_score := Py.round4 avg_risk;
     Snapshot.max_risk_score := Py.round4 (Grouped.max_risk_score row);
     Snapshot.min_risk_score := Py.round4 (Grouped.min_risk_score row);
     Snapshot.risk_growth_pct := growth;
     Snapshot.drift_value := drift;
     Snapshot.drift_status := classify_drift drift;
     Snapshot.kmeans_cluster := Grouped.kmeans_cluster row;
     Snapshot.dbscan_cluster := Grouped.dbscan_cluster row;
     Snapshot.anomaly_count := Grouped.anomaly_count row;
     Snapshot.projection_14d := projection_14d;
     Snapshot.model_version := model_version;
     Snapshot.pipeline_run_id := run_id;
     Snapshot.metadata := [("generated_by", "nightly-level3-pipeline.py")]%string |}.

Definition snapshot_rows (today : Z) (prev_snapshots : list Prior.row)
    (model_version run_id : string) (df : list profile) : list Snapshot.row :=
  map (snapshot_row today (prev_lookup prev_snapshots) model_version run_id)
      (grouped df).

(** ** Audit records (lines 138-169) *)

Inductive run_status := SUCCESS | FAILED.

Inductive metric := MInt (z : Z) | MNum (q : Q) | MStr (s : string).

Module Audit.
Record row := {
  run_id : string;
  model_name : string;
  model_version : string;
  stage : string;
  status : run_status;
  started_at : Z;
  finished_at : Z;
  duration_ms : Z;
  processed_records : Z;
  feature_set : list string;
  metrics : list (string * metric);
  error_message : option string;
  initiated_by : string
}.
End Audit.

Definition audit_feature_set : list string :=
  [ "household_size"; "medication_dependency"; "insulin_dependency";
    "oxygen_powered_device"; "mobility_limitation"; "transportation_access";
    "financial_strain"; "risk_score" ]%string.

(** ** Durations (line 140)

    [int((finished_at - started_at).total_seconds() * 1000)] is computed in
    doubles.  The difference of two timestamps is an exact number of
    microseconds; [total_seconds()] is the double nearest to that number
    divided by 10^6, the product with 1000 is rounded again, and [int]
    truncates toward zero.  A double is modelled by the rational it stands
    for; sizes outside the normal range of binary64 do not occur here. *)

Module Double.

Definition pow2 (z : Z) : Q := Qpower 2 z.

(** The binade of a positive rational: [pow2 (ilog2 q) <= q < pow2 (ilog2 q + 1)]. *)
Definition ilog2 (q : Q) : Z :=
  let l := Z.log2 (Qnum q) - Z.log2 (Zpos (Qden q)) in
  if Qle_bool (pow2 l) q then l else l - 1.

(** The spacing of the doubles of that binade: 53 significant bits. *)
Definition ulp (q : Q) : Q := pow2 (ilog2 q - 52).

(** Round to nearest, ties to the even significand. *)
Definition round_pos (q : Q) : Q :=
  (inject_Z (Py.round_half_even (q / ulp q)) * ulp q)%Q.

Definition round (q : Q) : Q :=
  match Qcompare q 0 with
  | Eq => 0%Q
  | Gt => round_pos q
  | Lt => (- round_pos (- q))%Q
  end.

Definition div (a b : Q) : Q := round (a / b).
Definition mul (a b : Q) : Q := round (a * b).

(** [int(x)] *)
Definition to_int (q : Q) : Z :=
  if Qle_bool 0 q then Qfloor q else - Qfloor (- q).

End Double.

(** The same computation on the kernel's binary64 numbers, for comparison. *)
Module Binary64.

Definition of_Z (z : Z) : float :=
  if z <? 0 then PrimFloat.opp (PrimFloat.of_uint63 (Uint63.of_Z (- z)))
  else PrimFloat.of_uint63 (Uint63.of_Z z).

Definition to_int (f : float) : Z :=
  match Prim2SF f with
  | S754_finite s m e =>
      let v := if 0 <=? e then Zpos m * 2 ^ e else Zpos m / 2 ^ (- e) in
      if s then - v else v
  | _ => 0
  end.

Definition elapsed_ms (microseconds : Z) : Z :=
  to_int (PrimFloat.mul (PrimFloat.div (of_Z microseconds) (of_Z 1000000))
                        (of_Z 1000)).

End Binary64.

(** The double product of line 140, before [int]. *)
Definition elapsed_product (microseconds : Z) : Q :=
  Double.mul (Double.div (inject_Z microseconds) 1000000) 1000.

Definition elapsed_ms (started_at finished_at : Z) : Z :=
  Double.to_int (elapsed_product (finished_at - started_at)).

(** ** The world outside the script

    What a run is given: its environment variables, the identifier drawn by
    [uuid4], the successive readings of the wall clock, the local date, the
    two tables, how the store answers the i-th HTTP request of the run
    ([None]: accepted; [Some msg]: the call raises and [str(exc)] is [msg]),
    and the three scikit-learn models, each of which answers labels or
    raises. *)

Inductive outcome (A : Type) :=
| Return (a : A)
| Raise (msg : string).
Arguments Return {A} a.
Arguments Raise {A} msg.

Record env := {
  SUPABASE_URL : string;
  SUPABASE_SERVICE_ROLE_KEY : string;
  AERA_MODEL_VERSION : option string;
  uuid4 : string;
  clock : nat -> Z;
  today : Z;
  vulnerability_profiles : list entity;
  region_snapshots : list Prior.row;
  response : nat -> option string;
  KMeans_fit_predict : Z -> list (list R) -> outcome (list Z);
  DBSCAN_fit_predict : Q -> Z -> list (list R) -> outcome (list Z);
  IsolationForest_fit_predict : Q -> list (list R) -> outcome (list Z)
}.

(** What a run leaves behind: the HTTP requests it issued, in order, each
    with its fate, and how many times it read the clock. *)

Inductive operation :=
| SelectProfiles
| SelectSnapshots (date : Z)
| UpsertProfiles (rows : list (string * Q))
| UpsertSnapshots (rows : list Snapshot.row)
| InsertAudit (rows : list Audit.row).

Record request := { op : operation; accepted : bool }.

Record world := { ticks : nat; requests : list request }.

Definition initial_world : world := {| ticks := 0; requests := [] |}.

Definition audit_rows (rq : request) : list Audit.row :=
  match op rq with InsertAudit rows => rows | _ => [] end.

(** Audit records the run tried to write, and those that were written. *)
Definition audit_attempts (w : world) : list Audit.row :=
  flat_map audit_rows (requests w).
Definition audit_log (w : world) : list Audit.row :=
  flat_map audit_rows (filter accepted (requests w)).

Definition profile_upserts (w : world) : list (string * Q) :=
  flat_map (fun rq => match op rq with UpsertProfiles rows => rows | _ => [] end)
           (filter accepted (requests w)).
Definition snapshot_upserts (w : world) : list Snapshot.row :=
  flat_map (fun rq => match op rq with UpsertSnapshots rows => rows | _ => [] end)
           (filter accepted (requests w)).

(** ** Computations that issue requests and may raise *)

Definition M (A : Type) : Type := world -> outcome A * world.

Definition ret {A : Type} (a : A) : M A := fun w => (Return a, w).

Definition bind {A B : Type} (m : M A) (k : A -> M B) : M B :=
  fun w =>
    match m w with
    | (Return a, w') => k a w'
    | (Raise msg, w') => (Raise msg, w')
    end.

Definition lift {A : Type} (o : outcome A) : M A := fun w => (o, w).

Notation "x <- m ;; k" := (bind m (fun x => k))
  (at level 61, m at next level, right associativity).
Notation "m ;;; k" := (bind m (fun _ => k))
  (at level 61, right associativity).

(** [df["kmeans_cluster"] = ...], [df["dbscan_cluster"] = ...],
    [df["is_outlier"] = iso.fit_predict(scaled) == -1]: the label arrays have
    one entry per row (an array of another length makes pandas raise; the
    models never answer one, and a missing label reads 0 here). *)
Fixpoint attach (df : list entity) (km db iso : list Z) : list profile :=
  match df with
  | [] => []
  | e :: df' =>
      {| ent := e;
         kmeans_cluster := hd 0 km;
         dbscan_cluster := hd 0 db;
         is_outlier := (hd 0 iso =? -1) |}
      :: attach df' (tl km) (tl db) (tl iso)
  end.

Definition count_eq (x : Z) (l : list Z) : Z :=
  Z.of_nat (List.length (filter (Z.eqb x) l)).

Section Run.
Variable e : env.

(** [dt.datetime.now(dt.timezone.utc)] *)
Definition read_clock (w : world) : Z * world :=
  (clock e (ticks w), {| ticks := S (ticks w); requests := requests w |}).

Definition now : M Z := fun w => let (t, w') := read_clock w in (Return t, w').

(** One HTTP request followed by [raise_for_status()]. *)
Definition http (o : operation) : M unit :=
  fun w =>
    match response e (List.length (requests w)) with
    | None =>
        (Return tt,
         {| ticks := ticks w;
            requests := requests w ++ [{| op := o; accepted := true |}] |})
    | Some msg =>
        (Raise msg,
         {| ticks := ticks w;
            requests := requests w ++ [{| op := o; accepted := false |}] |})
    end.

(** [client.select] on the two tables. *)
Definition select_profiles : M (list entity) :=
  http SelectProfiles ;;; ret (vulnerability_profiles e).

Definition select_snapshots (d : Z) : M (list Prior.row) :=
  http (SelectSnapshots d) ;;; ret (select_by_date (region_snapshots e) d).

(** [client.upsert] and [client.insert]: no request for an empty list. *)
Definition upsert_profiles (rows : list (string * Q)) : M unit :=
  match rows with [] => ret tt | _ => http (UpsertProfiles rows) end.

Definition upsert_snapshots (rows : list Snapshot.row) : M unit :=
  match rows with [] => ret tt | _ => http (UpsertSnapshots rows) end.

Definition insert_audit (rows : list Audit.row) : M unit :=
  match rows with [] => ret tt | _ => http (InsertAudit rows) end.

Definition run_id : string := uuid4 e.

Definition model_version : string :=
  Py.fillna "level3-2026.02"%string (AERA_MODEL_VERSION e).

Definition audit_record (started_at finished_at : Z) (stage : string)
    (status : run_status) (processed : Z) (metrics : list (string * metric))
    (error : option string) : Audit.row :=
  {| Audit.run_id := run_id;
     Audit.model_name := "aera-level3";
     Audit.model_version := model_version;
     Audit.stage := stage;
     Audit.status := status;
     Audit.started_at := started_at;
     Audit.finished_at := finished_at;
     Audit.duration_ms := elapsed_ms started_at finished_at;
     Audit.processed_records := processed;
     Audit.feature_set := audit_feature_set;
     Audit.metrics := metrics;
     Audit.error_message := error;
     Audit.initiated_by := "nightly_pipeline" |}.

Definition log_stage (started_at : Z) (stage : string) (status : run_status)
    (processed : Z) (metrics : list (string * metric))
    (error : option string) : M unit :=
  finished_at <- now ;;
  insert_audit
    [audit_record started_at finished_at stage status processed metrics error].

(** The body of the [try] block once the profiles are loaded
    (lines 177-283). *)
Definition process (started_at : Z) (records : list entity) : M Z :=
  match records with
  | [] =>
      log_stage started_at "pipeline" SUCCESS 0
                [("message", MStr "no records")]%string None ;;;
      ret 0
  | _ :: _ =>
      let df := rescore records in
      let n := Z.of_nat (List.length df) in
      let risk_updates :=
        map (fun row => (id row, Py.fillna 0%Q (risk_score row))) df in
      upsert_profiles risk_updates ;;;
      log_stage started_at "risk_score" SUCCESS n
                [("mean_risk", MNum (Py.mean (map risk_score df)))]%string
                None ;;;
      let scaled := scaled_features df in
      let k := kmeans_k n in
      km <- lift (KMeans_fit_predict e k scaled) ;;
      log_stage started_at "kmeans" SUCCESS n
                [("clusters", MInt k)]%string None ;;;
      db <- lift (DBSCAN_fit_predict e dbscan_eps (dbscan_min_samples n)
                                     scaled) ;;
      log_stage started_at "dbscan" SUCCESS n
                [("noise_points", MInt (count_eq (-1) db))]%string None ;;;
      iso <- lift (IsolationForest_fit_predict e iso_contamination scaled) ;;
      let frame := attach df km db iso in
      log_stage started_at "isolation_forest" SUCCESS n
                [("outliers",
                  MInt (Z.of_nat (List.length (filter is_outlier frame))))]%string
                None ;;;
      prev_snapshots <- select_snapshots (prev_date (today e)) ;;
      let rows :=
        snapshot_rows (today e) prev_snapshots model_version run_id frame in
      let produced := Z.of_nat (List.length rows) in
      upsert_snapshots rows ;;;
      log_stage started_at "drift" SUCCESS produced
                [("snapshot_rows", MInt produced)]%string None ;;;
      log_stage started_at "pipeline" SUCCESS n
                [("run_id", MStr run_id)]%string None ;;;
      ret 0
  end.

(** The body of the [try] block (lines 172-283). *)
Definition pipeline (started_at : Z) : M Z :=
  records <- select_profiles ;;
  process started_at records.

(** [run()]: the exit status and what was left behind. *)
Definition run : Z * world :=
  let url := Py.rstrip_slash (SUPABASE_URL e) in
  let key := SUPABASE_SERVICE_ROLE_KEY e in
  if String.eqb url "" || String.eqb key "" then (1, initial_world)
  else
    let (started_at, w) := read_clock initial_world in
    match pipeline started_at w with
    | (Return exit_status, w') => (exit_status, w')
    | (Raise err, w') =>
        let (_, w'') :=
          log_stage started_at "pipeline" FAILED 0 [] (Some err) w' in
        (1, w'')
    end.

End Run.

(** The same environment with another centroid model, or another density
    model. *)
Definition with_KMeans (e : env)
    (f : Z -> list (list R) -> outcome (list Z)) : env :=
  {| SUPABASE_URL := SUPABASE_URL e;
     SUPABASE_SERVICE_ROLE_KEY := SUPABASE_SERVICE_ROLE_KEY e;
     AERA_MODEL_VERSION := AERA_MODEL_VERSION e;
     uuid4 := uuid4 e;
     clock := clock e;
     today := today e;
     vulnerability_profiles := vulnerability_profiles e;
     region_snapshots := region_snapshots e;
     response := response e;
     KMeans_fit_predict := f;
     DBSCAN_fit_predict := DBSCAN_fit_predict e;
     IsolationForest_fit_predict := IsolationForest_fit_predict e |}.

Definition with_DBSCAN (e : env)
    (f : Q -> Z -> list (list R) -> outcome (list Z)) : env :=
  {| SUPABASE_URL := SUPABASE_URL e;
     SUPABASE_SERVICE_ROLE_KEY := SUPABASE_SERVICE_ROLE_KEY e;
     AERA_MODEL_VERSION := AERA_MODEL_VERSION e;
     uuid4 := uuid4 e;
     clock := clock e;
     today := today e;
     vulnerability_profiles := vulnerability_profiles e;
     region_snapshots := region_snapshots e;
     response := response e;
     KMeans_fit_predict := KMeans_fit_predict e;
     DBSCAN_fit_predict := f;
     IsolationForest_fit_predict := IsolationForest_fit_predict e |}.

(** ** Sample inputs *)

(** household_size = 2, insulin_dependency = true, every other field absent. *)
Definition insulin_household_of_two : entity :=
  {| id := "p-1";
     organization_id := Some "org-1"%string;
     county_id := Some "Travis"%string;
     state_id := Some "TX"%string;
     household_size := Some 2%Q;
     medication_dependency := None;
     insulin_dependency := Some true;
     oxygen_powered_device := Some false;
     mobility_limitation := None;
     transportation_access := None;
     financial_strain := None;
     risk_score := None |}.

(** One profile whose county is missing (JSON null). *)
Definition profile_without_county : profile :=
  {| ent :=
       {| id := "p-2";
          organization_id := Some "org-1"%string;
          county_id := None;
          state_id := Some "TX"%string;
          household_size := Some 3%Q;
          medication_dependency := Some true;
          insulin_dependency := Some false;
          oxygen_powered_device := Some false;
          mobility_limitation := Some false;
          transportation_access := Some true;
          financial_strain := Some false;
          risk_score := Some (3 # 1)%Q |};
     kmeans_cluster := 0;
     dbscan_cluster := -1;
     is_outlier := false |}.

(** A profile of Travis county whose score is 2, and a table of stored
    snapshots: two of its region, thirty days and twenty-nine days before
    day 20500, and one of another region. *)
Definition travis_profile : profile :=
  {| ent := set_risk_score insulin_household_of_two 2%Q;
     kmeans_cluster := 0;
     dbscan_cluster := -1;
     is_outlier := false |}.

Definition travis_history : list Prior.row :=
  [ {| Prior.county_id := Some "Travis"%string;
       Prior.state_id := Some "TX"%string;
       Prior.avg_risk_score := Some (3 # 1)%Q;
       Prior.snapshot_date := 20470 |};
    {| Prior.county_id := Some "Travis"%string;
       Prior.state_id := Some "TX"%string;
       Prior.avg_risk_score := Some (1 # 1)%Q;
       Prior.snapshot_date := 20471 |};
    {| Prior.county_id := Some "Harris"%string;
       Prior.state_id := Some "TX"%string;
       Prior.avg_risk_score := Some (5 # 1)%Q;
       Prior.snapshot_date := 20470 |} ].

(** A store that accepts every request and holds no profile; a clock that
    advances one millisecond per reading. *)
Definition quiet_env : env :=
  {| SUPABASE_URL := "https://aera.example/";
     SUPABASE_SERVICE_ROLE_KEY := "service-key";
     AERA_MODEL_VERSION := None;
     uuid4 := "00000000-0000-4000-8000-000000000001";
     clock := fun i => 1000 * Z.of_nat i;
     today := 20500;
     vulnerability_profiles := [];
     region_snapshots := [];
     response := fun _ => None;
     KMeans_fit_predict := fun _ X => Return (map (fun _ => 0) X);
     DBSCAN_fit_predict := fun _ _ X => Return (map (fun _ => 0) X);
     IsolationForest_fit_predict := fun _ X => Return (map (fun _ => 1) X) |}.


(** ** Invariants of a run *)

(** The world when the [try] block is entered: the clock was read once. *)
Definition started_world : world := {| ticks := 1; requests := [] |}.

(** Both connection parameters are present (line 130). *)
Definition configured (e : env) : Prop :=
  Py.rstrip_slash (SUPABASE_URL e) <> ""%string
  /\ SUPABASE_SERVICE_ROLE_KEY e <> ""%string.

(** Every audit record written so far starts at [t0], lasts from [t0] to its
    own finish, and finishes at a clock reading taken later than the
    readings of the records before it. *)
Definition audit_timed (e : env) (t0 : Z) (w : world) : Prop :=
  exists readings : list nat,
    map Audit.finished_at (audit_log w) = map (clock e) readings
    /\ StronglySorted lt readings
    /\ Forall (fun i => (i < ticks w)%nat) readings
    /\ Forall (fun r => Audit.started_at r = t0
                        /\ Audit.duration_ms r
                           = elapsed_ms t0 (Audit.finished_at r))
              (audit_log w).

(** Every audit record the run has tried to write so far reports SUCCESS. *)
Definition only_success (w : world) : Prop :=
  Forall (fun r => Audit.status r = SUCCESS) (audit_attempts w).

Definition steady (e : env) (t0 : Z) (w : world) : Prop :=
  audit_timed e t0 w /\ only_success w.

(** No request was refused. *)
Definition all_accepted (w : world) : Prop :=
  Forall (fun rq => accepted rq = true) (requests w).

(** No request was refused, except possibly the last one issued. *)
Definition stopped_at_refusal (w : world) : Prop :=
  Forall (fun rq => accepted rq = true) (removelast (requests w)).

(** A computation keeps the invariants: from a world where nothing was
    refused it returns in such a world, or raises with nothing issued after
    a refusal. *)
Definition keeps {A : Type} (e : env) (t0 : Z) (m : M A) : Prop :=
  forall w,
    steady e t0 w -> all_accepted w ->
    match m w with
    | (Return _, w') => steady e t0 w' /\ all_accepted w'
    | (Raise _, w') => steady e t0 w' /\ stopped_at_refusal w'
    end.

(** ** Further definitions *)

(** An entity with another household size. *)
Definition with_household_size (e : entity) (h : option Q) : entity :=
  {| id := id e;
     organization_id := organization_id e;
     county_id := county_id e;
     state_id := state_id e;
     household_size := h;
     medication_dependency := medication_dependency e;
     insulin_dependency := insulin_dependency e;
     oxygen_powered_device := oxygen_powered_device e;
     mobility_limitation := mobility_limitation e;
     transportation_access := transportation_access e;
     financial_strain := financial_strain e;
     risk_score := risk_score e |}.

(** A string of [n] slashes. *)
Fixpoint slashes (n : nat) : string :=
  match n with
  | O => EmptyString
  | S n' => String "/"%char (slashes n')
  end.

(** ** What a run is made of: clock readings and requests *)

Definition tick (w : world) : world :=
  {| ticks := S (ticks w); requests := requests w |}.

Definition push (o : operation) (b : bool) (w : world) : world :=
  {| ticks := ticks w;
     requests := requests w ++ [{| op := o; accepted := b |}] |}.

Definition stage_names : list string :=
  [ "pipeline"; "risk_score"; "kmeans"; "dbscan"; "isolation_forest";
    "drift" ]%string.

(** The fields every audit record of a run shares, and what goes with each
    status. *)
Definition audit_shape (e : env) (r : Audit.row) : Prop :=
  Audit.run_id r = uuid4 e
  /\ Audit.model_name r = "aera-level3"%string
  /\ Audit.model_version r
     = Py.fillna "level3-2026.02"%string (AERA_MODEL_VERSION e)
  /\ Audit.started_at r = clock e 0
  /\ Audit.feature_set r = audit_feature_set
  /\ Audit.initiated_by r = "nightly_pipeline"%string
  /\ In (Audit.stage r) stage_names
  /\ (Audit.status r = SUCCESS -> Audit.error_message r = None)
  /\ (Audit.status r = FAILED ->
      Audit.stage r = "pipeline"%string
      /\ Audit.processed_records r = 0
      /\ Audit.metrics r = []
      /\ Audit.error_message r <> None).

(** The fields every snapshot row of a run shares. *)
Definition snapshot_shape (e : env) (s : Snapshot.row) : Prop :=
  Snapshot.pipeline_run_id s = uuid4 e
  /\ Snapshot.model_version s
     = Py.fillna "level3-2026.02"%string (AERA_MODEL_VERSION e)
  /\ Snapshot.snapshot_date s = today e
  /\ Snapshot.snapshot_window_days s = 30
  /\ Snapshot.risk_growth_pct s = Snapshot.drift_value s
  /\ Snapshot.drift_status s = classify_drift (Snapshot.drift_value s).

(** What each kind of request of a run carries. *)
Definition shaped (e : env) (o : operation) : Prop :=
  match o with
  | SelectProfiles => True
  | SelectSnapshots d => d = today e - 30
  | UpsertProfiles rows =>
      rows = map (fun x => (id x,
                            risk_row (transport_dtype (vulnerability_profiles e)) x))
                 (vulnerability_profiles e)
  | UpsertSnapshots rows => rows <> [] /\ Forall (snapshot_shape e) rows
  | InsertAudit rows => exists r, rows = [r] /\ audit_shape e r
  end.

(** A store that accepts every request and holds one profile and one prior
    snapshot of its region; models that put every row in cluster 0 and flag
    no outlier. *)
Definition busy_env : env :=
  {| SUPABASE_URL := "https://aera.example";
     SUPABASE_SERVICE_ROLE_KEY := "service-key";
     AERA_MODEL_VERSION := None;
     uuid4 := "00000000-0000-4000-8000-000000000003";
     clock := fun i => 1500 * Z.of_nat i;
     today := 20500;
     vulnerability_profiles := [insulin_household_of_two];
     region_snapshots :=
       [ {| Prior.county_id := Some "Travis"%string;
            Prior.state_id := Some "TX"%string;
            Prior.avg_risk_score := Some (2 # 1)%Q;
            Prior.snapshot_date := 20470 |} ];
     response := fun _ => None;
     KMeans_fit_predict := fun _ X => Return (map (fun _ => 0) X);
     DBSCAN_fit_predict := fun _ _ X => Return (map (fun _ => 0) X);
     IsolationForest_fit_predict := fun _ X => Return (map (fun _ => 1) X) |}.

(** A household of one in Travis county, every field stored. *)
Definition travis_household : entity :=
  {| id := "p-3";
     organization_id := Some "org-1"%string;
     county_id := Some "Travis"%string;
     state_id := Some "TX"%string;
     household_size := Some 1%Q;
     medication_dependency := Some false;
     insulin_dependency := Some false;
     oxygen_powered_device := Some false;
     mobility_limitation := Some false;
     transportation_access := Some true;
     financial_strain := Some false;
     risk_score := None |}.

(** A frame of three profiles in two regions: one without county, two of
    Travis county. *)
Definition two_region_frame : list profile :=
  [ profile_without_county;
    travis_profile;
    {| ent := travis_household;
       kmeans_cluster := 1;
       dbscan_cluster := -1;
       is_outlier := false |} ].

(** A store that accepts every request and holds the given profiles and the
    Travis history; a clock that advances 1.001 seconds per reading; models
    that answer the given labels. *)
Definition accepting_env (profiles : list entity) (km db iso : list Z) : env :=
  {| SUPABASE_URL := "https://aera.example";
     SUPABASE_SERVICE_ROLE_KEY := "service-key";
     AERA_MODEL_VERSION := None;
     uuid4 := "00000000-0000-4000-8000-000000000004";
     clock := fun i => 1001000 * Z.of_nat i;
     today := 20500;
     vulnerability_profiles := profiles;
     region_snapshots := travis_history;
     response := fun _ => None;
     KMeans_fit_predict := fun _ _ => Return km;
     DBSCAN_fit_predict := fun _ _ _ => Return db;
     IsolationForest_fit_predict := fun _ _ => Return iso |}.

(** Two profiles of one state; the county of the first is null. *)
Definition nameless_county_env : env :=
  accepting_env [ent profile_without_county; travis_household]
                [0; 1] [-1; -1] [1; 1].

(** Two profiles; the first leaves transportation_access null. *)
Definition defaulted_transport_env : env :=
  accepting_env [insulin_household_of_two; travis_household]
                [0; 1] [-1; -1] [1; 1].

(** Sums of counts. *)
Definition zsum (l : list Z) : Z := fold_right Z.add 0 l.

(** The order in which group keys come out. *)
Definition key_lt (a b : group_key) : Prop := key_compare a b = Lt.

(** The conflict key of the snapshot upsert, without the date. *)
Definition conflict_key (s : Snapshot.row) : pyval * pyval * pyval :=
  (Snapshot.county_id s, Snapshot.state_id s, Snapshot.organization_id s).

(** How serious a drift class is. *)
Definition severity (l : drift_label) : Z :=
  match l with STABLE => 0 | ESCALATING => 1 | ACCELERATING => 2 end.

(** The same environment with three other models. *)
Definition with_models (e : env)
    (k : Z -> list (list R) -> outcome (list Z))
    (d : Q -> Z -> list (list R) -> outcome (list Z))
    (i : Q -> list (list R) -> outcome (list Z)) : env :=
  {| SUPABASE_URL := SUPABASE_URL e;
     SUPABASE_SERVICE_ROLE_KEY := SUPABASE_SERVICE_ROLE_KEY e;
     AERA_MODEL_VERSION := AERA_MODEL_VERSION e;
     uuid4 := uuid4 e;
     clock := clock e;
     today := today e;
     vulnerability_profiles := vulnerability_profiles e;
     region_snapshots := region_snapshots e;
     response := response e;
     KMeans_fit_predict := k;
     DBSCAN_fit_predict := d;
     IsolationForest_fit_predict := i |}.

(** The busy store with a centroid model that refuses a batch smaller than
    the number of clusters asked for. *)
Definition strict_kmeans_env : env :=
  with_models busy_env
    (fun k X => if Z.of_nat (List.length X) <? k
                then Raise "n_samples should be >= n_clusters"%string
                else Return (map (fun _ => 0) X))
    (DBSCAN_fit_predict busy_env)
    (IsolationForest_fit_predict busy_env).

(** * Properties *)

(** ** Rounding *)

Lemma round_half_even_comp (p q : Q) :
  (p == q)%Q -> Py.round_half_even p = Py.round_half_even q.
Proof.
  intros H. unfold Py.round_half_even. cbv zeta.
  assert (F : Qfloor p = Qfloor q) by (apply Qfloor_comp; exact H).
  assert (E : (p - inject_Z (Qfloor p) == q - inject_Z (Qfloor q))%Q)
    by (rewrite F, H; reflexivity).
  rewrite (Qcompare_comp _ _ E (1 # 2) (1 # 2) (Qeq_refl _)), F.
  reflexivity.
Qed.

Lemma round4_comp (p q : Q) : (p == q)%Q -> Py.round4 p = Py.round4 q.
Proof.
  intros H. unfold Py.round4. f_equal.
  apply round_half_even_comp. rewrite H. reflexivity.
Qed.

Lemma round_half_even_bounds (q : Q) :
  Qfloor q <= Py.round_half_even q <= Qfloor q + 1.
Proof.
  unfold Py.round_half_even. cbv zeta.
  destruct (Qcompare (q - inject_Z (Qfloor q)) (1 # 2));
    try destruct (Z.even (Qfloor q)); lia.
Qed.

Lemma round_half_even_mono (p q : Q) :
  (p <= q)%Q -> Py.round_half_even p <= Py.round_half_even q.
Proof.
  intros H. pose proof (Qfloor_resp_le p q H) as Hf.
  destruct (Z.eq_dec (Qfloor p) (Qfloor q)) as [E | E].
  - unfold Py.round_half_even. cbv zeta. rewrite E.
    destruct (Qcompare (p - inject_Z (Qfloor q)) (1 # 2)) eqn:C1;
      destruct (Qcompare (q - inject_Z (Qfloor q)) (1 # 2)) eqn:C2;
      try rewrite <- Qeq_alt in C1; try rewrite <- Qlt_alt in C1;
      try rewrite <- Qgt_alt in C1;
      try rewrite <- Qeq_alt in C2; try rewrite <- Qlt_alt in C2;
      try rewrite <- Qgt_alt in C2;
      try (destruct (Z.even (Qfloor q)); lia);
      try lia; exfalso; Lqa.lra.
  - pose proof (round_half_even_bounds p). pose proof (round_half_even_bounds q).
    lia.
Qed.

Lemma round_half_even_near (q : Q) :
  (q - (1 # 2) <= inject_Z (Py.round_half_even q))%Q
  /\ (inject_Z (Py.round_half_even q) <= q + (1 # 2))%Q.
Proof.
  pose proof (Qfloor_le q) as Hl. pose proof (Qlt_floor q) as Hu.
  rewrite inject_Z_plus in Hu. change (inject_Z 1) with 1%Q in Hu.
  unfold Py.round_half_even. cbv zeta.
  destruct (Qcompare (q - inject_Z (Qfloor q)) (1 # 2)) eqn:C.
  - rewrite <- Qeq_alt in C.
    destruct (Z.even (Qfloor q)); rewrite ?inject_Z_plus;
      change (inject_Z 1) with 1%Q; split; Lqa.lra.
  - rewrite <- Qlt_alt in C. split; Lqa.lra.
  - rewrite <- Qgt_alt in C. rewrite inject_Z_plus.
    change (inject_Z 1) with 1%Q. split; Lqa.lra.
Qed.

(** Rounding to four decimals gives a number of ten-thousandths that is
    within half a ten-thousandth of its argument. *)
Lemma round4_near (x : Q) :
  Qden (Py.round4 x) = 10000%positive
  /\ (x - (1 # 20000) <= Py.round4 x)%Q
  /\ (Py.round4 x <= x + (1 # 20000))%Q.
Proof.
  split; [reflexivity |].
  pose proof (round_half_even_near (x * inject_Z 10000)) as [N1 N2].
  assert (E : (Py.round4 x
               == inject_Z (Py.round_half_even (x * inject_Z 10000))
                  * (1 # 10000))%Q).
  { unfold Py.round4. rewrite (Qmake_Qdiv _ 10000).
    change (inject_Z (Zpos 10000)) with (10000 # 1)%Q. field. }
  rewrite E. change (inject_Z 10000) with (10000 # 1)%Q in *.
  split; Lqa.lra.
Qed.

Lemma qmax_Qmax (a b : Q) : (Py.qmax a b == Qmax a b)%Q.
Proof.
  unfold Py.qmax. destruct (Qle_bool a b) eqn:E.
  - apply Qle_bool_iff in E. symmetry. apply Q.max_r. exact E.
  - symmetry. apply Q.max_l.
    destruct (Qlt_le_dec b a) as [L | L].
    + apply Qlt_le_weak. exact L.
    + apply Qle_bool_iff in L. congruence.
Qed.

Lemma qmin_Qmin (a b : Q) : (Py.qmin a b == Qmin a b)%Q.
Proof.
  unfold Py.qmin. destruct (Qle_bool a b) eqn:E.
  - apply Qle_bool_iff in E. symmetry. apply Q.min_l. exact E.
  - symmetry. apply Q.min_r.
    destruct (Qlt_le_dec b a) as [L | L].
    + apply Qlt_le_weak. exact L.
    + apply Qle_bool_iff in L. congruence.
Qed.

(** ** Cluster count and density parameters *)

Lemma round_sqrt_nearest (n : Z) :
  1 <= n ->
  let r := SpecWords.round_sqrt n in
  (2 * r - 1) * (2 * r - 1) <= 4 * n < (2 * r + 1) * (2 * r + 1).
Proof.
  intros Hn r. subst r. unfold SpecWords.round_sqrt.
  pose proof (Z.sqrt_spec (4 * n) ltac:(lia)) as [Hlo Hhi].
  pose proof (Z.sqrt_nonneg (4 * n)) as Hs.
  set (s := Z.sqrt (4 * n)) in *.
  pose proof (Z.div_mod (s + 1) 2 ltac:(lia)) as Hd.
  pose proof (Z.mod_pos_bound (s + 1) 2 ltac:(lia)) as Hm.
  set (q := (s + 1) / 2) in *.
  clearbody q. clearbody s.
  assert (Hcase : s = 2 * q - 1 \/ s = 2 * q) by lia.
  destruct Hcase as [E | E]; subst s.
  - split; [lia | nia].
  - assert (1 <= q) by nia.
    split; [nia | lia].
Qed.

(** ** Which model calls a run makes *)

Lemma process_KMeans_call (e : env)
    (f f' : Z -> list (list R) -> outcome (list Z)) (t0 : Z)
    (records : list entity) :
  let df := rescore records in
  let n := Z.of_nat (List.length df) in
  f (kmeans_k n) (scaled_features df) = f' (kmeans_k n) (scaled_features df) ->
  process (with_KMeans e f) t0 records = process (with_KMeans e f') t0 records.
Proof.
  intros df n H. destruct records as [| r rs]; [reflexivity |].
  unfold process. cbv zeta. fold df. fold n.
  change (KMeans_fit_predict (with_KMeans e f)) with f.
  change (KMeans_fit_predict (with_KMeans e f')) with f'.
  rewrite H. reflexivity.
Qed.

Lemma process_DBSCAN_call (e : env)
    (f f' : Q -> Z -> list (list R) -> outcome (list Z)) (t0 : Z)
    (records : list entity) :
  let df := rescore records in
  let n := Z.of_nat (List.length df) in
  f dbscan_eps (dbscan_min_samples n) (scaled_features df)
  = f' dbscan_eps (dbscan_min_samples n) (scaled_features df) ->
  process (with_DBSCAN e f) t0 records = process (with_DBSCAN e f') t0 records.
Proof.
  intros df n H. destruct records as [| r rs]; [reflexivity |].
  unfold process. cbv zeta. fold df. fold n.
  change (DBSCAN_fit_predict (with_DBSCAN e f)) with f.
  change (DBSCAN_fit_predict (with_DBSCAN e f')) with f'.
  rewrite H. reflexivity.
Qed.

Lemma run_process_ext (e e' : env) :
  SUPABASE_URL e' = SUPABASE_URL e ->
  SUPABASE_SERVICE_ROLE_KEY e' = SUPABASE_SERVICE_ROLE_KEY e ->
  AERA_MODEL_VERSION e' = AERA_MODEL_VERSION e ->
  uuid4 e' = uuid4 e ->
  clock e' = clock e ->
  response e' = response e ->
  vulnerability_profiles e' = vulnerability_profiles e ->
  (forall t0, process e' t0 (vulnerability_profiles e)
              = process e t0 (vulnerability_profiles e)) ->
  run e' = run e.
Proof.
  intros Hu Hk Hv Hi Hc Hr Hp Hproc.
  assert (Hlog : forall t s st p m er w,
             log_stage e' t s st p m er w = log_stage e t s st p m er w).
  { intros. unfold log_stage, bind, now, read_clock, insert_audit, http,
      audit_record, run_id, model_version.
    rewrite Hc, Hr, Hv, Hi. reflexivity. }
  unfold run. rewrite Hu, Hk.
  destruct (_ || _)%bool; [reflexivity |].
  unfold read_clock. rewrite Hc. cbn [ticks requests initial_world].
  assert (Hpipe : forall t w, pipeline e' t w = pipeline e t w).
  { intros t w. unfold pipeline, select_profiles, http, ret, bind.
    rewrite Hr, Hp.
    destruct (response e (List.length (requests w))); [reflexivity |].
    rewrite Hproc. reflexivity. }
  rewrite Hpipe.
  destruct (pipeline e (clock e 0) _) as [[s | err] w']; [reflexivity |].
  rewrite Hlog. reflexivity.
Qed.

Lemma run_KMeans_call (e : env)
    (f f' : Z -> list (list R) -> outcome (list Z)) :
  let df := rescore (vulnerability_profiles e) in
  let n := Z.of_nat (List.length df) in
  f (kmeans_k n) (scaled_features df) = f' (kmeans_k n) (scaled_features df) ->
  run (with_KMeans e f) = run (with_KMeans e f').
Proof.
  intros df n H. apply run_process_ext; try reflexivity.
  intros t0. apply process_KMeans_call. exact H.
Qed.

Lemma run_DBSCAN_call (e : env)
    (f f' : Q -> Z -> list (list R) -> outcome (list Z)) :
  let df := rescore (vulnerability_profiles e) in
  let n := Z.of_nat (List.length df) in
  f dbscan_eps (dbscan_min_samples n) (scaled_features df)
  = f' dbscan_eps (dbscan_min_samples n) (scaled_features df) ->
  run (with_DBSCAN e f) = run (with_DBSCAN e f').
Proof.
  intros df n H. apply run_process_ext; try reflexivity.
  intros t0. apply process_DBSCAN_call. exact H.
Qed.

Lemma rescore_length (df : list entity) :
  List.length (rescore df) = List.length df.
Proof. unfold rescore. apply length_map. Qed.

(** C1, counterexample: with seven entities the script chooses k = 2
    ([int] drops the fraction of sqrt 7 = 2.64...), while
    clamp(round(sqrt 7), 2, 6) = 3. *)
Lemma kmeans_k_is_not_rounded_root :
  1 <= 7 /\ kmeans_k 7 = 2 /\ SpecWords.k_of 7 = 3
  /\ kmeans_k 7 <> SpecWords.k_of 7.
Proof. repeat split; try reflexivity; try lia. vm_compute. discriminate. Qed.

(** C1, as amended: for every population size n >= 1 the number of centroid
    clusters is clamp(floor(sqrt n), 2, 6), and so lies between 2 and 6; a
    run over n entities consults the centroid model with that k, on the
    standardized features, and in no other way. *)
Theorem kmeans_k_floor_root (n : Z) :
  1 <= n ->
  kmeans_k n = SpecWords.k_floor_of n
  /\ 2 <= kmeans_k n <= 6
  /\ (forall (e : env) (f f' : Z -> list (list R) -> outcome (list Z)),
        Z.of_nat (List.length (vulnerability_profiles e)) = n ->
        let df := rescore (vulnerability_profiles e) in
        f (SpecWords.k_floor_of n) (scaled_features df)
        = f' (SpecWords.k_floor_of n) (scaled_features df) ->
        run (with_KMeans e f) = run (with_KMeans e f')).
Proof.
  intros Hn.
  assert (Hk : kmeans_k n = SpecWords.k_floor_of n /\ 2 <= kmeans_k n <= 6).
  { unfold kmeans_k, SpecWords.k_floor_of, SpecWords.clamp,
      Py.int_sqrt, Py.or_int.
    assert (Hs : 1 <= Z.sqrt n).
    { change 1 with (Z.sqrt 1) at 1. apply Z.sqrt_le_mono. exact Hn. }
    destruct (Z.sqrt n =? 0) eqn:E; [apply Z.eqb_eq in E; lia |].
    split; lia. }
  destruct Hk as [Hk Hb]. split; [exact Hk |]. split; [exact Hb |].
  intros e f f' Hlen df H. apply run_KMeans_call. cbv zeta.
  rewrite rescore_length, Hlen, Hk. exact H.
Qed.

(** Fifty entities: k = 6. *)
Lemma kmeans_k_floor_root_at_50 :
  1 <= 50 /\ kmeans_k 50 = SpecWords.k_floor_of 50 /\ 2 <= kmeans_k 50 <= 6.
Proof.
  split; [lia |].
  destruct (kmeans_k_floor_root 50 ltac:(lia)) as (Hk & Hb & _).
  split; [exact Hk | exact Hb].
Defined.

(** C9: for every population size n >= 1, min_samples of the density
    detector is clamp(floor(n / 20), 3, 8), hence between 3 and 8, and the
    radius eps is the constant 1.25; a run over n entities consults the
    density model with these two parameters, on the standardized features,
    and in no other way. *)
Theorem dbscan_parameters (n : Z) :
  1 <= n ->
  dbscan_min_samples n = SpecWords.min_samples_of n
  /\ 3 <= dbscan_min_samples n <= 8
  /\ (dbscan_eps == 125 # 100)%Q
  /\ (forall (e : env) (f f' : Q -> Z -> list (list R) -> outcome (list Z)),
        Z.of_nat (List.length (vulnerability_profiles e)) = n ->
        let df := rescore (vulnerability_profiles e) in
        f (125 # 100)%Q (SpecWords.min_samples_of n) (scaled_features df)
        = f' (125 # 100)%Q (SpecWords.min_samples_of n) (scaled_features df) ->
        run (with_DBSCAN e f) = run (with_DBSCAN e f')).
Proof.
  intros _.
  assert (Hm : dbscan_min_samples n = SpecWords.min_samples_of n
               /\ 3 <= dbscan_min_samples n <= 8).
  { unfold dbscan_min_samples, SpecWords.min_samples_of, SpecWords.clamp,
      Py.or_int.
    generalize (n / 20). intros m.
    destruct (m =? 0) eqn:E; [apply Z.eqb_eq in E; subst m |]; split; lia. }
  destruct Hm as [Hm Hb]. split; [exact Hm |]. split; [exact Hb |].
  split; [reflexivity |].
  intros e f f' Hlen df H. apply run_DBSCAN_call. cbv zeta.
  rewrite rescore_length, Hlen, Hm. exact H.
Qed.

(** A hundred entities: min_samples = 5. *)
Lemma dbscan_parameters_at_100 :
  1 <= 100
  /\ dbscan_min_samples 100 = SpecWords.min_samples_of 100
  /\ 3 <= dbscan_min_samples 100 <= 8
  /\ (dbscan_eps == 125 # 100)%Q.
Proof.
  split; [lia |].
  destruct (dbscan_parameters 100 ltac:(lia)) as (Hm & Hb & He & _).
  split; [exact Hm |]. split; [exact Hb | exact He].
Defined.

(** ** Drift classification *)

Lemma Qgtb_lt (a b : Q) : Qgtb a b = true <-> (b < a)%Q.
Proof.
  unfold Qgtb. rewrite negb_true_iff. split.
  - intros E. apply Qnot_le_lt. intros L. apply Qle_bool_iff in L. congruence.
  - intros L. destruct (Qle_bool a b) eqn:E; [| reflexivity].
    apply Qle_bool_iff in E. exfalso. apply (Qlt_not_le _ _ L E).
Qed.

Lemma Qgtb_le (a b : Q) : Qgtb a b = false <-> (a <= b)%Q.
Proof.
  unfold Qgtb. rewrite negb_false_iff. apply Qle_bool_iff.
Qed.

(** C5: a drift v is ACCELERATING exactly when v > 0.25, ESCALATING exactly
    when 0.15 < v <= 0.25, and STABLE otherwise; 0.25 is ESCALATING, 0.15 is
    STABLE, 0.30 is ACCELERATING, 0.20 is ESCALATING and 0.10 is STABLE. *)
Theorem classify_drift_thresholds (v : Q) :
  (classify_drift v = ACCELERATING <-> (25 # 100 < v)%Q)
  /\ (classify_drift v = ESCALATING <-> (15 # 100 < v)%Q /\ (v <= 25 # 100)%Q)
  /\ (classify_drift v = STABLE <-> (v <= 15 # 100)%Q)
  /\ classify_drift (25 # 100) = ESCALATING
  /\ classify_drift (15 # 100) = STABLE
  /\ classify_drift (30 # 100) = ACCELERATING
  /\ classify_drift (20 # 100) = ESCALATING
  /\ classify_drift (10 # 100) = STABLE.
Proof.
  unfold classify_drift.
  destruct (Qgtb v (25 # 100)) eqn:A; destruct (Qgtb v (15 # 100)) eqn:B;
    try apply Qgtb_lt in A; try apply Qgtb_lt in B;
    try apply Qgtb_le in A; try apply Qgtb_le in B;
    repeat split; try reflexivity; try discriminate; intros; try Lqa.lra;
    try (exfalso; Lqa.lra).
Qed.

(** ** Risk score *)

Lemma risk_formula_agrees (d : dtype) (e : entity) :
  (household_component e
   + Py.astype_int (Py.fillna false (medication_dependency e)) * (18 # 10)
   + Py.astype_int (Py.fillna false (insulin_dependency e)) * (22 # 10)
   + Py.astype_int (Py.fillna false (oxygen_powered_device e)) * (25 # 10)
   + Py.astype_int (Py.fillna false (mobility_limitation e)) * (15 # 10)
   + invert_int d (Py.fillna true (transportation_access e)) * (12 # 10)
   + Py.astype_int (Py.fillna false (financial_strain e)) * (14 # 10)
   == SpecRisk.formula (SpecRisk.defaults e) - dtype_shift d)%Q.
Proof.
  unfold SpecRisk.formula, SpecRisk.defaults, household_component,
    Py.clip_lower. cbn [SpecRisk.size SpecRisk.medication SpecRisk.insulin
    SpecRisk.oxygen_device SpecRisk.mobility SpecRisk.transport
    SpecRisk.strain].
  rewrite qmin_Qmin, qmax_Qmax.
  assert (T : forall b, (invert_int d b == 1 - SpecRisk.ind b
                                         - dtype_shift d * (10 # 12))%Q)
    by (intros []; destruct d; reflexivity).
  rewrite T.
  unfold SpecRisk.ind, Py.astype_int, SpecRisk.default_to, Py.fillna.
  destruct d; unfold dtype_shift; ring.
Qed.

Lemma risk_row_spec (d : dtype) (e : entity) :
  risk_row d e
  = Py.round4 (SpecRisk.formula (SpecRisk.defaults e) - dtype_shift d).
Proof. unfold risk_row. apply round4_comp. apply risk_formula_agrees. Qed.

Lemma column_dtype_object (col : list (option bool)) :
  column_dtype col = ObjectDtype <-> In None col.
Proof.
  unfold column_dtype. destruct (existsb is_null col) eqn:E.
  - split; [intros _ | reflexivity].
    apply existsb_exists in E. destruct E as ([b |] & Hin & Hn);
      [discriminate | exact Hin].
  - split; [discriminate |]. intros Hin.
    assert (existsb is_null col = true)
      by (apply existsb_exists; exists None; split; [exact Hin | reflexivity]).
    congruence.
Qed.

Lemma transport_dtype_object (df : list entity) :
  transport_dtype df = ObjectDtype
  <-> exists x, In x df /\ transportation_access x = None.
Proof.
  unfold transport_dtype. rewrite column_dtype_object, in_map_iff.
  split; intros (x & H1 & H2); exists x; split; assumption.
Qed.

Lemma transport_dtype_rescore (df : list entity) :
  transport_dtype (rescore df) = transport_dtype df.
Proof.
  unfold transport_dtype, rescore. rewrite map_map. reflexivity.
Qed.

(** ** Prior lookup *)

Lemma py_eqb_eq (a b : pyval) : py_eqb a b = true -> a = b.
Proof.
  destruct a, b; simpl; try discriminate; try reflexivity.
  intros E. apply String.eqb_eq in E. congruence.
Qed.

Lemma lookup_key_eqb_eq (a b : lookup_key) :
  lookup_key_eqb a b = true -> a = b.
Proof.
  destruct a as [a1 a2], b as [b1 b2]. unfold lookup_key_eqb. simpl.
  intros E. apply andb_true_iff in E. destruct E as [E1 E2].
  apply py_eqb_eq in E1. apply py_eqb_eq in E2. congruence.
Qed.

Lemma dict_get_set (k : lookup_key) (v : Q) (d : dict) (k' : lookup_key)
    (dflt : Q) :
  dict_get (dict_set k v d) k' dflt
  = if lookup_key_eqb k k' then v else dict_get d k' dflt.
Proof.
  induction d as [| [k1 v1] d IH]; simpl; [reflexivity |].
  destruct (lookup_key_eqb k1 k) eqn:E1; simpl.
  - apply lookup_key_eqb_eq in E1. subst k1.
    destruct (lookup_key_eqb k k'); reflexivity.
  - rewrite IH.
    destruct (lookup_key_eqb k1 k') eqn:E2;
      destruct (lookup_key_eqb k k') eqn:E3; try reflexivity.
    pose proof (lookup_key_eqb_eq _ _ E2) as F2.
    pose proof (lookup_key_eqb_eq _ _ E3) as F3.
    subst k1. subst k'. congruence.
Qed.

Lemma prev_lookup_snoc (rows : list Prior.row) (r : Prior.row) :
  prev_lookup (rows ++ [r])
  = dict_set (prior_key r) (prior_avg r) (prev_lookup rows).
Proof. unfold prev_lookup. rewrite fold_left_app. reflexivity. Qed.

Lemma last_match_snoc (rows : list Prior.row) (r : Prior.row)
    (k : lookup_key) :
  last_match (rows ++ [r]) k
  = if lookup_key_eqb (prior_key r) k then Some r else last_match rows k.
Proof. unfold last_match. rewrite fold_left_app. reflexivity. Qed.

Lemma prev_lookup_get (rows : list Prior.row) (k : lookup_key) :
  dict_get (prev_lookup rows) k 0%Q
  = match last_match rows k with Some p => prior_avg p | None => 0%Q end.
Proof.
  induction rows as [| r rows IH] using rev_ind; [reflexivity |].
  rewrite prev_lookup_snoc, last_match_snoc, dict_get_set.
  destruct (lookup_key_eqb (prior_key r) k); [reflexivity | exact IH].
Qed.

Lemma last_match_none (rows : list Prior.row) (k : lookup_key) :
  last_match rows k = None
  <-> forall r, In r rows -> lookup_key_eqb (prior_key r) k = false.
Proof.
  induction rows as [| r rows IH] using rev_ind.
  - split; [intros _ r [] | reflexivity].
  - rewrite last_match_snoc.
    destruct (lookup_key_eqb (prior_key r) k) eqn:E.
    + split; [discriminate |].
      intros H. rewrite (H r) in E; [discriminate |].
      apply in_or_app. right. left. reflexivity.
    + rewrite IH. split.
      * intros H x Hx. apply in_app_or in Hx. destruct Hx as [Hx | [<- | []]].
        -- apply H. exact Hx.
        -- exact E.
      * intros H x Hx. apply H. apply in_or_app. left. exact Hx.
Qed.

Lemma last_match_some (rows : list Prior.row) (k : lookup_key)
    (p : Prior.row) :
  last_match rows k = Some p -> In p rows /\ prior_key p = k.
Proof.
  induction rows as [| r rows IH] using rev_ind; [discriminate |].
  rewrite last_match_snoc.
  destruct (lookup_key_eqb (prior_key r) k) eqn:E.
  - intros [= <-]. split.
    + apply in_or_app. right. left. reflexivity.
    + apply lookup_key_eqb_eq. exact E.
  - intros H. destruct (IH H) as [Hin Hk]. split; [| exact Hk].
    apply in_or_app. left. exact Hin.
Qed.

Lemma select_by_date_In (table : list Prior.row) (d : Z) (p : Prior.row) :
  In p (select_by_date table d) <-> In p table /\ Prior.snapshot_date p = d.
Proof.
  unfold select_by_date. rewrite filter_In, Z.eqb_eq. reflexivity.
Qed.

Lemma drift_of_zero (avg prev : Q) : (prev == 0)%Q -> drift_of avg prev = 0%Q.
Proof.
  intros H. unfold drift_of. apply Qeq_bool_iff in H. rewrite H. reflexivity.
Qed.

Lemma drift_of_nonzero (avg prev : Q) :
  ~ (prev == 0)%Q ->
  drift_of avg prev = Py.round4 ((avg - prev) / prev).
Proof.
  intros H. unfold drift_of. destruct (Qeq_bool prev 0) eqn:E; [| reflexivity].
  apply Qeq_bool_iff in E. contradiction.
Qed.

Lemma last_match_split (rows : list Prior.row) (k : lookup_key)
    (p : Prior.row) :
  last_match rows k = Some p ->
  exists before after,
    rows = before ++ p :: after
    /\ forall r, In r after -> lookup_key_eqb (prior_key r) k = false.
Proof.
  induction rows as [| r rows IH] using rev_ind; [discriminate |].
  rewrite last_match_snoc.
  destruct (lookup_key_eqb (prior_key r) k) eqn:E.
  - intros [= <-]. exists rows, []. split; [reflexivity | intros ? []].
  - intros H. destruct (IH H) as (before & after & -> & Hafter).
    exists before, (after ++ [r]). split.
    + rewrite <- app_assoc. reflexivity.
    + intros x Hx. apply in_app_or in Hx. destruct Hx as [Hx | [<- | []]];
        [apply Hafter; exact Hx | exact E].
Qed.

Lemma prior_avg_missing (p : Prior.row) :
  Prior.avg_risk_score p = None -> prior_avg p = 0%Q.
Proof. intros H. unfold prior_avg. rewrite H. reflexivity. Qed.

Lemma prior_avg_stored (p : Prior.row) (q : Q) :
  Prior.avg_risk_score p = Some q ->
  ((q == 0)%Q -> prior_avg p = 0%Q) /\ (~ (q == 0)%Q -> prior_avg p = q).
Proof.
  intros H. unfold prior_avg. rewrite H.
  destruct (Qeq_bool q 0) eqn:E.
  - apply Qeq_bool_iff in E. split; [reflexivity | contradiction].
  - split; [| reflexivity]. intros E'. apply Qeq_bool_iff in E'. congruence.
Qed.

(** C3: for every region group, the prior average is the avg_risk_score
    stored in the snapshot dated exactly 30 days before the run date that
    carries the group's (county_id, state_id), the last such row when
    several do, whatever its organization; the drift is 0.0 when no such
    snapshot exists or when its stored average is missing or 0, and
    round((avg_risk - prev_avg) / prev_avg, 4) otherwise, a number of
    ten-thousandths within 0.00005 of the quotient; risk_growth_pct is the
    drift; projection_14d is round(avg_risk * (1 + drift * 0.5), 4).  A
    Travis group averaging 2 against a stored 3 drifts by -0.3333 and
    projects 1.6667. *)
Theorem drift_fields (table : list Prior.row) (today : Z)
    (mv rid : string) (g : Grouped.row) :
  let prev_snapshots := select_by_date table (prev_date today) in
  let row := snapshot_row today (prev_lookup prev_snapshots) mv rid g in
  let key := (Snapshot.county_id row, Snapshot.state_id row) in
  let avg_risk := Grouped.avg_risk_score g in
  (forall p, In p prev_snapshots
             <-> In p table /\ Prior.snapshot_date p = today - 30)
  /\ ((forall p, In p table -> Prior.snapshot_date p = today - 30 ->
                 prior_key p <> key) ->
      Snapshot.drift_value row = 0%Q)
  /\ (forall p, last_match prev_snapshots key = Some p ->
        In p table /\ Prior.snapshot_date p = today - 30 /\ prior_key p = key
        /\ (exists before after,
              prev_snapshots = before ++ p :: after
              /\ forall p', In p' after ->
                            lookup_key_eqb (prior_key p') key = false)
        /\ (Prior.avg_risk_score p = None -> Snapshot.drift_value row = 0%Q)
        /\ (forall q, Prior.avg_risk_score p = Some q ->
              ((q == 0)%Q -> Snapshot.drift_value row = 0%Q)
              /\ (~ (q == 0)%Q ->
                  Snapshot.drift_value row = Py.round4 ((avg_risk - q) / q)
                  /\ Qden (Snapshot.drift_value row) = 10000%positive
                  /\ ((avg_risk - q) / q - (1 # 20000)
                      <= Snapshot.drift_value row)%Q
                  /\ (Snapshot.drift_value row
                      <= (avg_risk - q) / q + (1 # 20000))%Q)))
  /\ (last_match prev_snapshots key = None
      <-> forall p, In p table -> Prior.snapshot_date p = today - 30 ->
                    lookup_key_eqb (prior_key p) key = false)
  /\ Snapshot.risk_growth_pct row = Snapshot.drift_value row
  /\ Snapshot.projection_14d row
     = Py.round4 (avg_risk * (1 + Snapshot.drift_value row * (5 # 10)))
  /\ Qden (Snapshot.projection_14d row) = 10000%positive
  /\ (avg_risk * (1 + Snapshot.drift_value row * (5 # 10)) - (1 # 20000)
      <= Snapshot.projection_14d row)%Q
  /\ (Snapshot.projection_14d row
      <= avg_risk * (1 + Snapshot.drift_value row * (5 # 10)) + (1 # 20000))%Q
  /\ (forall g' : Grouped.row,
        Grouped.county_id g' = Grouped.county_id g ->
        Grouped.state_id g' = Grouped.state_id g ->
        Grouped.avg_risk_score g' = Grouped.avg_risk_score g ->
        Snapshot.drift_value
          (snapshot_row today (prev_lookup prev_snapshots) mv rid g')
        = Snapshot.drift_value row)
  /\ map (fun s => (Snapshot.avg_risk_score s, Snapshot.drift_value s,
                    Snapshot.risk_growth_pct s, Snapshot.projection_14d s,
                    Snapshot.drift_status s))
         (snapshot_rows 20500 (select_by_date travis_history (prev_date 20500))
                        mv rid [travis_profile])
     = [ (20000 # 10000, -3333 # 10000, -3333 # 10000, 16667 # 10000,
          STABLE) ].
Proof.
  intros prev_snapshots row key avg_risk.
  assert (Hnone : last_match prev_snapshots key = None
      <-> forall p, In p table -> Prior.snapshot_date p = today - 30 ->
                    lookup_key_eqb (prior_key p) key = false).
  { rewrite last_match_none. split.
    - intros H p Hp Hd. apply H. apply select_by_date_In. split; assumption.
    - intros H p Hp. apply select_by_date_In in Hp. destruct Hp. now apply H. }
  assert (Hdrift : Snapshot.drift_value row
                   = drift_of avg_risk (dict_get (prev_lookup prev_snapshots)
                                                 key 0%Q)) by reflexivity.
  rewrite prev_lookup_get in Hdrift.
  split; [intros p; apply select_by_date_In |].
  split.
  { intros H. rewrite Hdrift.
    replace (last_match prev_snapshots key) with (@None Prior.row).
    - reflexivity.
    - symmetry. apply Hnone. intros p Hp Hd.
      destruct (lookup_key_eqb (prior_key p) key) eqn:E; [| reflexivity].
      apply lookup_key_eqb_eq in E. exfalso. exact (H p Hp Hd E). }
  split.
  { intros p Hp. rewrite Hdrift, Hp.
    pose proof (last_match_split _ _ _ Hp) as Hsplit.
    apply last_match_some in Hp. destruct Hp as [Hin Hk].
    apply select_by_date_In in Hin. destruct Hin as [Hin Hd].
    split; [exact Hin |]. split; [exact Hd |]. split; [exact Hk |].
    split; [exact Hsplit |].
    split.
    - intros Hm. rewrite (prior_avg_missing p Hm). reflexivity.
    - intros q Hq. destruct (prior_avg_stored p q Hq) as [Hz Hnz].
      split.
      + intros E. rewrite (Hz E). reflexivity.
      + intros E. rewrite (Hnz E), (drift_of_nonzero _ _ E).
        split; [reflexivity |]. apply round4_near. }
  split; [exact Hnone |].
  split; [reflexivity |].
  split; [reflexivity |].
  split; [apply round4_near |].
  split; [apply round4_near |].
  split; [apply round4_near |].
  split; [| reflexivity].
  intros g' Hc Hs Ha. unfold row, snapshot_row. simpl.
  rewrite Hc, Hs, Ha. reflexivity.
Qed.

(** ** Region groups *)

Lemma string_compare_refl (s : string) : String.compare s s = Eq.
Proof.
  pose proof (String.compare_antisym s s) as H.
  destruct (String.compare s s); simpl in H; congruence.
Qed.

Lemma label_compare_eq (a b : option string) :
  label_compare a b = Eq -> a = b.
Proof.
  destruct a, b; simpl; try discriminate; try reflexivity.
  intros H. apply String.compare_eq_iff in H. congruence.
Qed.

Lemma label_compare_refl (a : option string) : label_compare a a = Eq.
Proof. destruct a; simpl; [apply string_compare_refl | reflexivity]. Qed.

Lemma key_compare_eq (a b : group_key) : key_compare a b = Eq -> a = b.
Proof.
  destruct a as [[a1 a2] a3], b as [[b1 b2] b3]. simpl.
  destruct (label_compare a1 b1) eqn:E1; try discriminate.
  destruct (label_compare a2 b2) eqn:E2; try discriminate.
  intros E3.
  apply label_compare_eq in E1. apply label_compare_eq in E2.
  apply label_compare_eq in E3. congruence.
Qed.

Lemma key_compare_refl (a : group_key) : key_compare a a = Eq.
Proof.
  destruct a as [[a1 a2] a3]. simpl. now rewrite !label_compare_refl.
Qed.

Lemma insert_key_self (k : group_key) (l : list group_key) :
  In k (insert_key k l).
Proof.
  induction l as [| h t IH]; simpl; [left; reflexivity |].
  destruct (key_compare k h) eqn:E.
  - apply key_compare_eq in E. subst h. left. reflexivity.
  - left. reflexivity.
  - right. exact IH.
Qed.

Lemma insert_key_keeps (k x : group_key) (l : list group_key) :
  In x l -> In x (insert_key k l).
Proof.
  induction l as [| h t IH]; simpl; [intros [] |].
  intros H. destruct (key_compare k h).
  - exact H.
  - right. exact H.
  - destruct H as [H | H]; [left; exact H | right; apply IH; exact H].
Qed.

Lemma group_keys_complete (df : list profile) (r : profile) :
  In r df -> In (key_of r) (group_keys df).
Proof.
  unfold group_keys. induction df as [| x df IH]; simpl; [intros [] |].
  intros [-> | H].
  - apply insert_key_self.
  - apply insert_key_keeps. apply IH. exact H.
Qed.

Lemma members_self (df : list profile) (r : profile) :
  In r df -> In r (members (key_of r) df).
Proof.
  intros H. unfold members. apply filter_In. split; [exact H |].
  unfold key_eqb. now rewrite key_compare_refl.
Qed.

Lemma UNKNOWN_only_for_blank (c : option string) :
  or_val (group_label c) UNKNOWN = UNKNOWN
  <-> c = Some ""%string \/ c = Some "UNKNOWN"%string.
Proof.
  destruct c as [s |]; unfold or_val; simpl.
  - destruct (String.eqb s "") eqn:E; simpl.
    + apply String.eqb_eq in E. subst s. split; [left | ]; reflexivity.
    + split.
      * intros [= ->]. right. reflexivity.
      * intros [[= ->] | [= ->]]; [discriminate | reflexivity].
  - split; [discriminate | intros [H | H]; discriminate].
Qed.

(** A profile of the frame is in its group, and the snapshot row of that
    group carries the group's labels: NaN for a missing county or state
    ([NaN or "UNKNOWN"] is NaN), "UNKNOWN" only in place of an empty
    string. *)
Lemma missing_region_row (today : Z) (prev : list Prior.row)
    (mv rid : string) (df : list profile) (r : profile) :
  In r df ->
  let g := aggregate (key_of r) (members (key_of r) df) in
  let row := snapshot_row today (prev_lookup prev) mv rid g in
  In r (members (key_of r) df)
  /\ In g (grouped df)
  /\ In row (snapshot_rows today prev mv rid df)
  /\ (county_id (ent r) = None ->
      Snapshot.county_id row = PNaN /\ Snapshot.county_id row <> UNKNOWN)
  /\ (state_id (ent r) = None ->
      Snapshot.state_id row = PNaN /\ Snapshot.state_id row <> UNKNOWN)
  /\ Snapshot.organization_id row = group_label (organization_id (ent r))
  /\ (forall c, or_val (group_label c) UNKNOWN = UNKNOWN
                <-> c = Some ""%string \/ c = Some "UNKNOWN"%string).
Proof.
  intros Hin g row.
  assert (Hg : In g (grouped df)).
  { unfold grouped.
    apply (in_map (fun k => aggregate k (members k df))).
    apply group_keys_complete. exact Hin. }
  split; [apply members_self; exact Hin |].
  split; [exact Hg |].
  split; [unfold snapshot_rows; apply in_map; exact Hg |].
  split.
  { intros Hc.
    assert (E : Snapshot.county_id row = PNaN)
      by (unfold row, g, key_of; rewrite Hc; reflexivity).
    split; [exact E | rewrite E; discriminate]. }
  split.
  { intros Hs.
    assert (E : Snapshot.state_id row = PNaN)
      by (unfold row, g, key_of; rewrite Hs; reflexivity).
    split; [exact E | rewrite E; discriminate]. }
  split; [| apply UNKNOWN_only_for_blank].
  unfold row, g, key_of. reflexivity.
Qed.

(** ** Runs *)

Section RunInvariants.
Variable e : env.
Variable t0 : Z.

Lemma keeps_ret (A : Type) (a : A) : keeps e t0 (ret a).
Proof. intros w Ht Ha. simpl. split; assumption. Qed.

Lemma stopped_of_accepted (w : world) : all_accepted w -> stopped_at_refusal w.
Proof.
  unfold all_accepted, stopped_at_refusal. intros H.
  rewrite Forall_forall in *. intros x Hx. apply H.
  destruct (requests w) as [| y l] eqn:E; [destruct Hx |].
  assert (Hne : y :: l <> []) by discriminate.
  rewrite (app_removelast_last y Hne). apply in_or_app. left. exact Hx.
Qed.

Lemma keeps_lift (A : Type) (o : outcome A) : keeps e t0 (lift o).
Proof.
  intros w Ht Ha. unfold lift. destruct o; split; try assumption.
  apply stopped_of_accepted. exact Ha.
Qed.

Lemma keeps_bind (A B : Type) (m : M A) (k : A -> M B) :
  keeps e t0 m -> (forall a, keeps e t0 (k a)) -> keeps e t0 (bind m k).
Proof.
  intros Hm Hk w Ht Ha. unfold bind. specialize (Hm w Ht Ha).
  destruct (m w) as [[a | msg] w'].
  - destruct Hm as [Ht' Ha']. exact (Hk a w' Ht' Ha').
  - exact Hm.
Qed.

Lemma audit_log_snoc (l : list request) (rq : request) :
  flat_map audit_rows (filter accepted (l ++ [rq]))
  = flat_map audit_rows (filter accepted l)
    ++ (if accepted rq then audit_rows rq else []).
Proof.
  rewrite filter_app, flat_map_app. simpl.
  destruct (accepted rq); simpl; [rewrite app_nil_r |]; reflexivity.
Qed.

Lemma audit_attempts_snoc (l : list request) (rq : request) :
  flat_map audit_rows (l ++ [rq]) = flat_map audit_rows l ++ audit_rows rq.
Proof. rewrite flat_map_app. simpl. now rewrite app_nil_r. Qed.

Lemma audit_timed_same_log (w w' : world) :
  audit_log w' = audit_log w -> (ticks w <= ticks w')%nat ->
  audit_timed e t0 w -> audit_timed e t0 w'.
Proof.
  intros El Ht (idx & Hf & Hs & Hb & Hr). exists idx.
  rewrite El. repeat split; try assumption.
  eapply Forall_impl; [| exact Hb]. simpl. intros. lia.
Qed.

Lemma StronglySorted_snoc (l : list nat) (n : nat) :
  StronglySorted lt l -> Forall (fun i => (i < n)%nat) l ->
  StronglySorted lt (l ++ [n]).
Proof.
  induction 1 as [| x l Hs IH Hx]; simpl; intros Hb.
  - constructor; constructor.
  - inversion Hb; subst. constructor; [apply IH; assumption |].
    apply Forall_app. split; [exact Hx |].
    constructor; [assumption | constructor].
Qed.

(** Issuing a request that carries no audit record. *)
Lemma request_timed (w : world) (o : operation) (b : bool) (n : nat) :
  (forall rows, o <> InsertAudit rows) -> (ticks w <= n)%nat ->
  steady e t0 w ->
  steady e t0 {| ticks := n;
                 requests := requests w ++ [{| op := o; accepted := b |}] |}.
Proof.
  intros Ho Hn [Ht Hs].
  assert (Hrows : audit_rows {| op := o; accepted := b |} = []).
  { unfold audit_rows. simpl. destruct o; try reflexivity.
    exfalso. exact (Ho rows eq_refl). }
  split.
  - apply (audit_timed_same_log w); [| exact Hn | exact Ht].
    unfold audit_log. cbn [requests]. rewrite audit_log_snoc, Hrows.
    destruct b; apply app_nil_r.
  - unfold only_success, audit_attempts in *. cbn [requests].
    rewrite audit_attempts_snoc, Hrows, app_nil_r. exact Hs.
Qed.

(** Issuing the insert of one audit record, stamped by the reading just
    taken. *)
Lemma audit_insert_timed (w : world) (b : bool) (stage : string)
    (status : run_status) (processed : Z) (metrics : list (string * metric))
    (error : option string) :
  audit_timed e t0 w ->
  audit_timed e t0
    {| ticks := S (ticks w);
       requests :=
         requests w
         ++ [{| op := InsertAudit
                        [audit_record e t0 (clock e (ticks w)) stage status
                                      processed metrics error];
                accepted := b |}] |}.
Proof.
  intros Ht. destruct b.
  - destruct Ht as (idx & Hf & Hs & Hb & Hr).
    exists (idx ++ [ticks w]).
    unfold audit_log in *. cbn [requests ticks]. rewrite audit_log_snoc.
    cbn [accepted audit_rows op]. rewrite !map_app, Hf. simpl.
    repeat split.
    + apply StronglySorted_snoc; assumption.
    + apply Forall_app. split.
      * eapply Forall_impl; [| exact Hb]. simpl. intros. lia.
      * constructor; [lia | constructor].
    + apply Forall_app. split; [exact Hr |].
      constructor; [| constructor]. split; reflexivity.
  - apply (audit_timed_same_log w); [| simpl; lia | exact Ht].
    unfold audit_log. cbn [requests]. rewrite audit_log_snoc. simpl.
    apply app_nil_r.
Qed.

Lemma keeps_http (o : operation) :
  (forall rows, o <> InsertAudit rows) -> keeps e t0 (http e o).
Proof.
  intros Ho w Ht Ha. unfold http.
  destruct (response e (List.length (requests w))) as [msg |].
  - split; [apply request_timed; [exact Ho | lia | exact Ht] |].
    unfold stopped_at_refusal. simpl. rewrite removelast_last. exact Ha.
  - split; [apply request_timed; [exact Ho | lia | exact Ht] |].
    unfold all_accepted. simpl. apply Forall_app. split; [exact Ha |].
    constructor; [reflexivity | constructor].
Qed.

Lemma keeps_log_success (stage : string) (processed : Z)
    (metrics : list (string * metric)) (error : option string) :
  keeps e t0 (log_stage e t0 stage SUCCESS processed metrics error).
Proof.
  intros w [Ht Hs] Ha.
  unfold log_stage, bind, now, read_clock, insert_audit, http.
  cbn [ticks requests].
  assert (Hok : forall b,
    only_success
      {| ticks := S (ticks w);
         requests :=
           requests w
           ++ [{| op := InsertAudit
                          [audit_record e t0 (clock e (ticks w)) stage SUCCESS
                                        processed metrics error];
                  accepted := b |}] |}).
  { intros b. unfold only_success, audit_attempts in *. cbn [requests].
    rewrite audit_attempts_snoc. apply Forall_app. split; [exact Hs |].
    constructor; [reflexivity | constructor]. }
  destruct (response e (List.length (requests w))) as [msg |].
  - split; [split; [apply audit_insert_timed; exact Ht | apply Hok] |].
    unfold stopped_at_refusal. simpl. rewrite removelast_last. exact Ha.
  - split; [split; [apply audit_insert_timed; exact Ht | apply Hok] |].
    unfold all_accepted. simpl. apply Forall_app. split; [exact Ha |].
    constructor; [reflexivity | constructor].
Qed.

Lemma keeps_select_profiles : keeps e t0 (select_profiles e).
Proof.
  unfold select_profiles. apply keeps_bind.
  - apply keeps_http. discriminate.
  - intros _. apply keeps_ret.
Qed.

Lemma keeps_select_snapshots (d : Z) : keeps e t0 (select_snapshots e d).
Proof.
  unfold select_snapshots. apply keeps_bind.
  - apply keeps_http. discriminate.
  - intros _. apply keeps_ret.
Qed.

Lemma keeps_upsert_profiles (rows : list (string * Q)) :
  keeps e t0 (upsert_profiles e rows).
Proof.
  unfold upsert_profiles. destruct rows.
  - apply keeps_ret.
  - apply keeps_http. discriminate.
Qed.

Lemma keeps_upsert_snapshots (rows : list Snapshot.row) :
  keeps e t0 (upsert_snapshots e rows).
Proof.
  unfold upsert_snapshots. destruct rows.
  - apply keeps_ret.
  - apply keeps_http. discriminate.
Qed.

Lemma keeps_pipeline : keeps e t0 (pipeline e t0).
Proof.
  unfold pipeline.
  apply keeps_bind; [apply keeps_select_profiles |].
  intros [| r records]; unfold process.
  - apply keeps_bind; [apply keeps_log_success | intros; apply keeps_ret].
  - cbv zeta.
    repeat first
      [ apply keeps_ret
      | apply keeps_log_success
      | apply keeps_lift
      | apply keeps_upsert_profiles
      | apply keeps_upsert_snapshots
      | apply keeps_select_snapshots
      | apply keeps_bind; [| intros ? ] ].
Qed.

End RunInvariants.

Lemma started_world_steady (e : env) :
  steady e (clock e 0) started_world /\ all_accepted started_world.
Proof.
  split; [split |].
  - exists []. repeat split; constructor.
  - constructor.
  - constructor.
Qed.

Lemma run_configured (e : env) :
  configured e ->
  run e
  = match pipeline e (clock e 0) started_world with
    | (Return exit_status, w') => (exit_status, w')
    | (Raise err, w') =>
        (1, snd (log_stage e (clock e 0) "pipeline" FAILED 0 [] (Some err) w'))
    end.
Proof.
  intros [Hu Hk]. unfold run.
  apply String.eqb_neq in Hu. apply String.eqb_neq in Hk.
  rewrite Hu, Hk. simpl.
  change {| ticks := 1; requests := [] |} with started_world.
  destruct (pipeline e (clock e 0) started_world) as [[s | err] w'];
    [reflexivity |].
  destruct (log_stage e (clock e 0) "pipeline" FAILED 0 [] (Some err) w').
  reflexivity.
Qed.

Lemma log_failed_world (e : env) (t0 : Z) (err : string) (w : world) :
  snd (log_stage e t0 "pipeline" FAILED 0 [] (Some err) w)
  = {| ticks := S (ticks w);
       requests :=
         requests w
         ++ [{| op := InsertAudit
                        [audit_record e t0 (clock e (ticks w)) "pipeline"
                                      FAILED 0 [] (Some err)];
                accepted :=
                  match response e (List.length (requests w)) with
                  | None => true
                  | Some _ => false
                  end |}] |}.
Proof.
  unfold log_stage, bind, now, read_clock, insert_audit, http.
  cbn [ticks requests].
  destruct (response e (List.length (requests w))); reflexivity.
Qed.

(** C7: when the loaded population is empty (and the store accepts the two
    requests of such a run), exactly one audit record is written, with
    status SUCCESS and processed_records = 0; no score update and no region
    snapshot is written; the exit status is 0. *)
Theorem empty_population_run (e : env) :
  configured e ->
  vulnerability_profiles e = [] ->
  response e 0%nat = None ->
  response e 1%nat = None ->
  let r := audit_record e (clock e 0) (clock e 1) "pipeline" SUCCESS 0
                        [("message", MStr "no records")]%string None in
  run e
  = (0, {| ticks := 2;
           requests := [ {| op := SelectProfiles; accepted := true |};
                         {| op := InsertAudit [r]; accepted := true |} ] |})
  /\ fst (run e) = 0
  /\ audit_log (snd (run e)) = [r]
  /\ audit_attempts (snd (run e)) = [r]
  /\ Audit.status r = SUCCESS
  /\ Audit.processed_records r = 0
  /\ profile_upserts (snd (run e)) = []
  /\ snapshot_upserts (snd (run e)) = [].
Proof.
  intros Hc He H0 H1 r.
  assert (Hrun : run e
    = (0, {| ticks := 2;
             requests := [ {| op := SelectProfiles; accepted := true |};
                           {| op := InsertAudit [r]; accepted := true |} ] |})).
  { rewrite (run_configured e Hc).
    unfold pipeline, process, select_profiles, log_stage, insert_audit,
      bind, ret, now, read_clock, http, started_world.
    cbn [ticks requests List.length app]. rewrite H0.
    rewrite He. cbn [ticks requests List.length app]. rewrite H1.
    reflexivity. }
  rewrite Hrun. repeat split; reflexivity.
Qed.

(** The quiet store with no profile. *)
Lemma empty_population_run_quiet :
  configured quiet_env
  /\ vulnerability_profiles quiet_env = []
  /\ fst (run quiet_env) = 0
  /\ List.length (audit_log (snd (run quiet_env))) = 1%nat
  /\ map Audit.status (audit_log (snd (run quiet_env))) = [SUCCESS]
  /\ map Audit.processed_records (audit_log (snd (run quiet_env))) = [0]
  /\ snapshot_upserts (snd (run quiet_env)) = [].
Proof.
  assert (Hc : configured quiet_env) by (split; discriminate).
  destruct (empty_population_run quiet_env Hc eq_refl eq_refl eq_refl)
    as (_ & Hs & Hl & _ & _ & _ & _ & Hn).
  split; [exact Hc |]. split; [reflexivity |].
  split; [exact Hs |].
  rewrite Hl. split; [reflexivity |]. split; [reflexivity |].
  split; [reflexivity |]. exact Hn.
Defined.



(** ** Doubles *)

Module DoubleFacts.
Import Double.

Lemma pow2_pos (z : Z) : (0 < pow2 z)%Q.
Proof. unfold pow2. apply Qpower_0_lt. reflexivity. Qed.

Lemma pow2_add (a b : Z) : (pow2 (a + b) == pow2 a * pow2 b)%Q.
Proof. unfold pow2. apply Qpower_plus. discriminate. Qed.

Lemma pow2_le (a b : Z) : a <= b -> (pow2 a <= pow2 b)%Q.
Proof. intros H. unfold pow2. apply Qpower_le_compat_l; [exact H | discriminate]. Qed.

Lemma pow2_lt_inv (a b : Z) : (pow2 a < pow2 b)%Q -> a < b.
Proof.
  intros H. unfold pow2 in H.
  apply (Qpower_lt_compat_l_inv 2 a b H). reflexivity.
Qed.

Lemma pow2_Z (a : Z) : 0 <= a -> (pow2 a == inject_Z (2 ^ a))%Q.
Proof. intros H. unfold pow2. rewrite (Zpower_Qpower 2 a H). reflexivity. Qed.

Lemma pow2_succ (a : Z) : (pow2 (a + 1) == 2 * pow2 a)%Q.
Proof. rewrite pow2_add. change (pow2 1) with 2%Q. ring. Qed.

Lemma log2_Q (n : Z) :
  0 < n ->
  (pow2 (Z.log2 n) <= inject_Z n)%Q /\ (inject_Z n < pow2 (Z.log2 n + 1))%Q.
Proof.
  intros H. pose proof (Z.log2_spec n H) as [Hl Hu].
  pose proof (Z.log2_nonneg n) as H0.
  rewrite (pow2_Z (Z.log2 n) H0), (pow2_Z (Z.log2 n + 1)) by lia.
  split; [rewrite <- Zle_Qle; exact Hl |].
  rewrite <- Zlt_Qlt. unfold Z.succ in Hu. exact Hu.
Qed.

Lemma ilog2_spec (q : Q) :
  (0 < q)%Q ->
  (pow2 (ilog2 q) <= q)%Q /\ (q < pow2 (ilog2 q + 1))%Q.
Proof.
  intros Hq. destruct q as [n d].
  assert (Hn : 0 < n) by (unfold Qlt in Hq; simpl in Hq; lia).
  pose proof (log2_Q n Hn) as [Hnl Hnu].
  pose proof (log2_Q (Zpos d) (Pos2Z.is_pos d)) as [Hdl Hdu].
  assert (E : (n # d == inject_Z n / inject_Z (Zpos d))%Q)
    by apply Qmake_Qdiv.
  assert (Hd : (0 < inject_Z (Zpos d))%Q) by reflexivity.
  set (a := Z.log2 n) in *. set (b := Z.log2 (Zpos d)) in *.
  assert (Hup : (n # d < pow2 (a - b + 1))%Q).
  { rewrite E. apply Qlt_shift_div_r; [exact Hd |].
    apply Qlt_le_trans with (pow2 (a + 1)); [exact Hnu |].
    replace (a + 1) with ((a - b + 1) + b) by ring.
    rewrite pow2_add. apply Qmult_le_l; [apply pow2_pos | exact Hdl]. }
  assert (Hlo : (pow2 (a - b - 1) <= n # d)%Q).
  { rewrite E. apply Qle_shift_div_l; [exact Hd |].
    apply Qle_trans with (pow2 a); [| exact Hnl].
    replace a with ((a - b - 1) + (b + 1)) at 2 by ring.
    rewrite pow2_add. apply Qmult_le_l; [apply pow2_pos |].
    apply Qlt_le_weak. exact Hdu. }
  unfold ilog2. cbn [Qnum Qden]. fold a. fold b.
  destruct (Qle_bool (pow2 (a - b)) (n # d)) eqn:C.
  - apply Qle_bool_iff in C. split; assumption.
  - assert (C' : (n # d < pow2 (a - b))%Q).
    { destruct (Qlt_le_dec (n # d) (pow2 (a - b))) as [L | L]; [exact L |].
      apply Qle_bool_iff in L. congruence. }
    split; [exact Hlo |].
    replace (a - b - 1 + 1) with (a - b) by ring. exact C'.
Qed.

Lemma ilog2_mono (p q : Q) :
  (0 < p)%Q -> (p <= q)%Q -> ilog2 p <= ilog2 q.
Proof.
  intros Hp Hpq.
  assert (Hq : (0 < q)%Q) by Lqa.lra.
  pose proof (ilog2_spec p Hp) as [Hpl _].
  pose proof (ilog2_spec q Hq) as [_ Hqu].
  assert (H : (pow2 (ilog2 p) < pow2 (ilog2 q + 1))%Q) by Lqa.lra.
  apply pow2_lt_inv in H. lia.
Qed.

Lemma ulp_pos (q : Q) : (0 < ulp q)%Q.
Proof. apply pow2_pos. Qed.

(** The significand of a positive rational lies between 2^52 and 2^53. *)
Lemma significand_range (q : Q) :
  (0 < q)%Q ->
  (pow2 52 <= q / ulp q)%Q /\ (q / ulp q < pow2 53)%Q.
Proof.
  intros Hq. pose proof (ilog2_spec q Hq) as [Hl Hu].
  pose proof (ulp_pos q) as Hp. unfold ulp in *.
  set (L := ilog2 q) in *.
  assert (E1 : (pow2 L == pow2 52 * pow2 (L - 52))%Q).
  { rewrite <- pow2_add. replace (52 + (L - 52)) with L by ring. reflexivity. }
  assert (E2 : (pow2 (L + 1) == pow2 53 * pow2 (L - 52))%Q).
  { rewrite <- pow2_add. replace (53 + (L - 52)) with (L + 1) by ring.
    reflexivity. }
  split.
  - apply Qle_shift_div_l; [exact Hp |]. rewrite <- E1. exact Hl.
  - apply Qlt_shift_div_r; [exact Hp |]. rewrite <- E2. exact Hu.
Qed.

Lemma round_pos_significand (q : Q) :
  (0 < q)%Q ->
  2 ^ 52 <= Py.round_half_even (q / ulp q) <= 2 ^ 53.
Proof.
  intros Hq. pose proof (significand_range q Hq) as [Hl Hu].
  rewrite (pow2_Z 52) in Hl by lia. rewrite (pow2_Z 53) in Hu by lia.
  pose proof (round_half_even_bounds (q / ulp q)) as [Hb1 Hb2].
  pose proof (Qfloor_resp_le _ _ Hl) as F1. rewrite Qfloor_Z in F1.
  pose proof (Qfloor_resp_le _ _ (Qlt_le_weak _ _ Hu)) as F2.
  rewrite Qfloor_Z in F2.
  assert (F3 : Qfloor (q / ulp q) < 2 ^ 53).
  { rewrite Zlt_Qlt. apply Qle_lt_trans with (q / ulp q)%Q;
      [apply Qfloor_le | exact Hu]. }
  lia.
Qed.

Lemma round_pos_nonneg (q : Q) : (0 < q)%Q -> (0 < round_pos q)%Q.
Proof.
  intros Hq. unfold round_pos.
  pose proof (round_pos_significand q Hq) as [H _].
  pose proof (ulp_pos q) as Hu.
  apply Qmult_lt_0_compat; [| exact Hu].
  change 0%Q with (inject_Z 0). rewrite <- Zlt_Qlt.
  assert (0 < 2 ^ 52) by reflexivity. lia.
Qed.

(** Rounding moves a positive number by at most half a unit in the last
    place, which is at most 2^-53 of the number. *)
Lemma round_pos_near (q : Q) :
  (0 < q)%Q ->
  (q - q * pow2 (-53) <= round_pos q)%Q /\ (round_pos q <= q + q * pow2 (-53))%Q.
Proof.
  intros Hq. pose proof (significand_range q Hq) as [Hl _].
  pose proof (ulp_pos q) as Hu.
  pose proof (round_half_even_near (q / ulp q)) as [N1 N2].
  unfold round_pos. set (m := inject_Z (Py.round_half_even (q / ulp q))) in *.
  set (u := ulp q) in *.
  assert (Hh : (u * (1 # 2) <= q * pow2 (-53))%Q).
  { assert (H52 : (pow2 52 * u <= q)%Q).
    { apply (Qmult_le_compat_r _ _ u) in Hl; [| apply Qlt_le_weak; exact Hu].
      assert (E : (q / u * u == q)%Q) by (field; Lqa.lra).
      rewrite E in Hl. exact Hl. }
    change (pow2 52) with (inject_Z (2 ^ 52)) in H52.
    change (pow2 (-53)) with (1 # 9007199254740992)%Q.
    change (inject_Z (2 ^ 52)) with (4503599627370496 # 1)%Q in H52.
    Lqa.lra. }
  assert (E : (q == q / u * u)%Q) by (field; Lqa.lra).
  assert (M1 : ((q / u - (1 # 2)) * u <= m * u)%Q)
    by (apply Qmult_le_compat_r; [exact N1 | apply Qlt_le_weak; exact Hu]).
  assert (M2 : (m * u <= (q / u + (1 # 2)) * u)%Q)
    by (apply Qmult_le_compat_r; [exact N2 | apply Qlt_le_weak; exact Hu]).
  assert (E1 : ((q / u - (1 # 2)) * u == q - u * (1 # 2))%Q) by (field; Lqa.lra).
  assert (E2 : ((q / u + (1 # 2)) * u == q + u * (1 # 2))%Q) by (field; Lqa.lra).
  rewrite E1 in M1. rewrite E2 in M2. split; Lqa.lra.
Qed.

Lemma round_pos_mono (p q : Q) :
  (0 < p)%Q -> (p <= q)%Q -> (round_pos p <= round_pos q)%Q.
Proof.
  intros Hp Hpq. assert (Hq : (0 < q)%Q) by Lqa.lra.
  pose proof (ilog2_mono p q Hp Hpq) as Hm.
  destruct (Z.eq_dec (ilog2 p) (ilog2 q)) as [E | E].
  - unfold round_pos, ulp. rewrite E.
    apply Qmult_le_compat_r; [| apply Qlt_le_weak; apply pow2_pos].
    rewrite <- Zle_Qle. apply round_half_even_mono.
    apply Qmult_le_compat_r; [exact Hpq |].
    apply Qlt_le_weak. apply Qinv_lt_0_compat. apply pow2_pos.
  - pose proof (round_pos_significand p Hp) as [_ Sp].
    pose proof (round_pos_significand q Hq) as [Sq _].
    unfold round_pos, ulp.
    rewrite Zle_Qle in Sp, Sq.
    set (mp := inject_Z (Py.round_half_even (p / ulp p))) in *.
    set (mq := inject_Z (Py.round_half_even (q / ulp q))) in *.
    fold (ulp p) in mp. fold (ulp q) in mq.
    assert (Hu : (2 * pow2 (ilog2 p - 52) <= pow2 (ilog2 q - 52))%Q).
    { rewrite <- pow2_succ. apply pow2_le. lia. }
    pose proof (pow2_pos (ilog2 p - 52)) as P1.
    pose proof (pow2_pos (ilog2 q - 52)) as P2.
    apply Qle_trans with (inject_Z (2 ^ 53) * pow2 (ilog2 p - 52))%Q.
    + apply Qmult_le_compat_r; [exact Sp | apply Qlt_le_weak; exact P1].
    + apply Qle_trans with (inject_Z (2 ^ 52) * pow2 (ilog2 q - 52))%Q.
      * change (inject_Z (2 ^ 53)) with (2 * inject_Z (2 ^ 52))%Q.
        change (inject_Z (2 ^ 52)) with (4503599627370496 # 1)%Q.
        Lqa.lra.
      * apply Qmult_le_compat_r; [exact Sq | apply Qlt_le_weak; exact P2].
Qed.

Lemma round_zero (q : Q) : (q == 0)%Q -> round q = 0%Q.
Proof. intros H. unfold round. rewrite Qeq_alt in H. rewrite H. reflexivity. Qed.

Lemma round_pos_eq (q : Q) : (0 < q)%Q -> round q = round_pos q.
Proof.
  intros H. unfold round. rewrite Qgt_alt in H. rewrite H. reflexivity.
Qed.

Lemma round_nonneg (q : Q) : (0 <= q)%Q -> (0 <= round q)%Q.
Proof.
  intros H. destruct (Qlt_le_dec 0 q) as [L | L].
  - rewrite (round_pos_eq q L). apply Qlt_le_weak. apply round_pos_nonneg. exact L.
  - rewrite round_zero by Lqa.lra. apply Qle_refl.
Qed.

(** Rounding is monotone. *)
Lemma round_mono (p q : Q) :
  (0 <= p)%Q -> (p <= q)%Q -> (round p <= round q)%Q.
Proof.
  intros Hp Hpq. destruct (Qlt_le_dec 0 p) as [L | L].
  - rewrite (round_pos_eq p L), (round_pos_eq q) by Lqa.lra.
    apply round_pos_mono; assumption.
  - rewrite (round_zero p) by Lqa.lra. apply round_nonneg. Lqa.lra.
Qed.

Lemma round_near (q : Q) :
  (0 <= q)%Q ->
  (q - q * pow2 (-53) <= round q)%Q /\ (round q <= q + q * pow2 (-53))%Q.
Proof.
  intros H. destruct (Qlt_le_dec 0 q) as [L | L].
  - rewrite (round_pos_eq q L). apply round_pos_near. exact L.
  - assert (E : (q == 0)%Q) by Lqa.lra. rewrite (round_zero q E).
    rewrite E. split; Lqa.lra.
Qed.

End DoubleFacts.

(** ** Durations *)

Lemma to_int_nonneg (q : Q) : (0 <= q)%Q -> Double.to_int q = Qfloor q.
Proof.
  intros H. unfold Double.to_int. apply Qle_bool_iff in H. rewrite H.
  reflexivity.
Qed.

Lemma elapsed_product_nonneg (x : Z) : 0 <= x -> (0 <= elapsed_product x)%Q.
Proof.
  intros H. unfold elapsed_product, Double.mul, Double.div.
  apply DoubleFacts.round_nonneg.
  assert (T : (0 <= Double.round (inject_Z x / 1000000))%Q).
  { apply DoubleFacts.round_nonneg. rewrite Zle_Qle in H.
    change (inject_Z 0) with 0%Q in H.
    apply Qle_shift_div_l; [reflexivity |]. Lqa.lra. }
  Lqa.lra.
Qed.

Lemma elapsed_product_mono (x y : Z) :
  0 <= x -> x <= y -> (elapsed_product x <= elapsed_product y)%Q.
Proof.
  intros Hx Hxy. unfold elapsed_product, Double.mul, Double.div.
  rewrite Zle_Qle in Hx, Hxy. change (inject_Z 0) with 0%Q in Hx.
  assert (A0 : (0 <= inject_Z x / 1000000)%Q)
    by (apply Qle_shift_div_l; [reflexivity | Lqa.lra]).
  assert (A1 : (inject_Z x / 1000000 <= inject_Z y / 1000000)%Q).
  { unfold Qdiv. apply Qmult_le_compat_r; [exact Hxy | discriminate]. }
  pose proof (DoubleFacts.round_mono _ _ A0 A1) as T.
  pose proof (DoubleFacts.round_nonneg _ A0) as T0.
  apply DoubleFacts.round_mono; Lqa.lra.
Qed.

(** The product is within a thousandth of a millisecond of the exact
    quotient, for a difference of up to 10^15 microseconds. *)
Lemma elapsed_product_near (x : Z) :
  0 <= x <= 10 ^ 15 ->
  (inject_Z x / 1000 - (1 # 4000) <= elapsed_product x)%Q
  /\ (elapsed_product x <= inject_Z x / 1000 + (1 # 4000))%Q.
Proof.
  intros [H0 H1]. unfold elapsed_product, Double.mul, Double.div.
  rewrite Zle_Qle in H0, H1. change (inject_Z 0) with 0%Q in H0.
  change (inject_Z (10 ^ 15)) with (1000000000000000 # 1)%Q in H1.
  set (X := inject_Z x) in *.
  assert (A0 : (0 <= X / 1000000)%Q)
    by (apply Qle_shift_div_l; [reflexivity | Lqa.lra]).
  pose proof (DoubleFacts.round_near _ A0) as [T1 T2].
  pose proof (DoubleFacts.round_nonneg _ A0) as T0.
  set (t := Double.round (X / 1000000)) in *.
  assert (B0 : (0 <= t * 1000)%Q) by Lqa.lra.
  pose proof (DoubleFacts.round_near _ B0) as [P1 P2].
  set (p := Double.round (t * 1000)) in *.
  change (Double.pow2 (-53)) with (1 # 9007199254740992)%Q in *.
  assert (EX : (X / 1000000 == X * (1 # 1000000))%Q) by (field).
  assert (EY : (X / 1000 == X * (1 # 1000))%Q) by (field).
  rewrite EX in T1, T2. rewrite EY. split; Lqa.lra.
Qed.

Lemma elapsed_ms_product (s f : Z) :
  s <= f -> elapsed_ms s f = Qfloor (elapsed_product (f - s)).
Proof.
  intros H. unfold elapsed_ms.
  apply to_int_nonneg. apply elapsed_product_nonneg. lia.
Qed.

Lemma elapsed_ms_mono (s f f' : Z) :
  s <= f -> f <= f' -> elapsed_ms s f <= elapsed_ms s f'.
Proof.
  intros H1 H2. rewrite !elapsed_ms_product by lia.
  apply Qfloor_resp_le. apply elapsed_product_mono; lia.
Qed.

(** The duration is the whole number of milliseconds between the two
    timestamps, except that a difference of exactly k milliseconds may come
    out as k - 1. *)
Lemma elapsed_ms_near (s f : Z) :
  0 <= f - s <= 10 ^ 15 ->
  (f - s) / 1000 - 1 <= elapsed_ms s f <= (f - s) / 1000
  /\ ((f - s) mod 1000 <> 0 -> elapsed_ms s f = (f - s) / 1000).
Proof.
  intros Hx. rewrite elapsed_ms_product by lia.
  pose proof (elapsed_product_near (f - s) Hx) as [N1 N2].
  set (x := f - s) in *. set (p := elapsed_product x) in *.
  pose proof (Z.div_mod x 1000 ltac:(lia)) as Hdm.
  pose proof (Z.mod_pos_bound x 1000 ltac:(lia)) as Hr.
  set (k := x / 1000) in *. set (r := x mod 1000) in *.
  assert (EX : (inject_Z x / 1000 == inject_Z k + inject_Z r / 1000)%Q).
  { rewrite Hdm. rewrite inject_Z_plus, inject_Z_mult.
    change (inject_Z 1000) with 1000%Q. field. }
  rewrite EX in N1, N2.
  assert (R0 : (0 <= inject_Z r)%Q)
    by (change 0%Q with (inject_Z 0); rewrite <- Zle_Qle; lia).
  assert (R1 : (inject_Z r <= 999)%Q)
    by (change 999%Q with (inject_Z 999); rewrite <- Zle_Qle; lia).
  assert (ER : (inject_Z r / 1000 == inject_Z r * (1 # 1000))%Q) by field.
  rewrite ER in N1, N2.
  pose proof (Qfloor_le p) as F1. pose proof (Qlt_floor p) as F2.
  rewrite inject_Z_plus in F2. change (inject_Z 1) with 1%Q in F2.
  assert (U : Qfloor p < k + 1).
  { rewrite Zlt_Qlt, inject_Z_plus. change (inject_Z 1) with 1%Q. Lqa.lra. }
  assert (L : k - 2 < Qfloor p).
  { rewrite Zlt_Qlt. unfold Z.sub. rewrite inject_Z_plus.
    change (inject_Z (- (2))) with (- (2))%Q. Lqa.lra. }
  split; [lia |].
  intros Hr0.
  assert (R2 : (1 <= inject_Z r)%Q)
    by (change 1%Q with (inject_Z 1); rewrite <- Zle_Qle; lia).
  assert (L' : k - 1 < Qfloor p).
  { rewrite Zlt_Qlt. unfold Z.sub. rewrite inject_Z_plus.
    change (inject_Z (- (1))) with (- (1))%Q. Lqa.lra. }
  lia.
Qed.

(** On these differences the model and the kernel's binary64 arithmetic give
    the same duration; a difference of 1001 milliseconds comes out as 1000. *)
Lemma elapsed_ms_binary64 :
  forallb (fun x => elapsed_ms 0 x =? Binary64.elapsed_ms x)
    (map (fun i => Z.of_nat i * 1000) (seq 0 2000)
     ++ map (fun i => Z.of_nat i * 7919 + 13) (seq 0 1000)
     ++ map (fun i => - (Z.of_nat i * 1500)) (seq 0 200)
     ++ map (fun i => 86400000000 * Z.of_nat i + 1001000) (seq 0 200))
  = true
  /\ elapsed_ms 0 1001000 = 1000
  /\ Binary64.elapsed_ms 1001000 = 1000.
Proof. vm_compute. repeat split. Qed.

(** ** Audit timing *)

Lemma readings_sorted (f : nat -> Z) (idx : list nat) :
  (forall i j, (i <= j)%nat -> f i <= f j) ->
  StronglySorted lt idx -> StronglySorted Z.le (map f idx).
Proof.
  intros Hf. induction 1 as [| x l Hs IH Hx]; simpl; constructor.
  - exact IH.
  - rewrite Forall_map. eapply Forall_impl; [| exact Hx].
    simpl. intros y Hy. apply Hf. lia.
Qed.

Lemma durations_sorted (t0 : Z) (l : list Audit.row) :
  Forall (fun r => Audit.started_at r = t0
                   /\ Audit.duration_ms r
                      = elapsed_ms t0 (Audit.finished_at r)) l ->
  Forall (fun r => t0 <= Audit.finished_at r) l ->
  StronglySorted Z.le (map Audit.finished_at l) ->
  StronglySorted Z.le (map Audit.duration_ms l).
Proof.
  induction l as [| r l IH]; simpl; intros Hf Hge Hs; [constructor |].
  inversion Hf as [| ? ? [_ Hd] Hf']; subst.
  inversion Hge as [| ? ? Hr Hge']; subst.
  inversion Hs as [| ? ? Hs' Hall]; subst.
  constructor; [apply IH; assumption |].
  rewrite Forall_map in *. rewrite Forall_forall in *.
  intros y Hy. destruct (Hf' y Hy) as [_ Hdy].
  rewrite Hd, Hdy. apply elapsed_ms_mono; [exact Hr |]. apply Hall. exact Hy.
Qed.

Lemma run_audit_timed (e : env) : audit_timed e (clock e 0) (snd (run e)).
Proof.
  destruct (String.eqb (Py.rstrip_slash (SUPABASE_URL e)) "") eqn:Eu;
    [| destruct (String.eqb (SUPABASE_SERVICE_ROLE_KEY e) "") eqn:Ek].
  - unfold run. rewrite Eu. simpl. exists []. repeat split; constructor.
  - unfold run. rewrite Eu, Ek. simpl. exists []. repeat split; constructor.
  - assert (Hc : configured e) by (split; apply String.eqb_neq; assumption).
    rewrite (run_configured e Hc).
    destruct (started_world_steady e) as [Hs Ha].
    pose proof (keeps_pipeline e (clock e 0) started_world Hs Ha) as Hk.
    destruct (pipeline e (clock e 0) started_world) as [[s | err] w'].
    + simpl. apply Hk.
    + cbn [snd]. rewrite log_failed_world.
      apply audit_insert_timed. apply Hk.
Qed.

(** C10: every audit record written during one run carries the run's start
    timestamp as started_at and a reading of the clock as finished_at, and
    its duration_ms is computed from finished_at minus that start, not from
    the start of its stage: it is the whole number of milliseconds between
    the two (one less at most, when the double product falls just below a
    whole number); so, the clock never going backwards, finished_at and
    duration_ms do not decrease along the records of the run. *)
Theorem audit_timing (e : env) :
  (forall i j, (i <= j)%nat -> clock e i <= clock e j) ->
  (forall i, (i < ticks (snd (run e)))%nat ->
             clock e i - clock e 0 <= 10 ^ 15) ->
  let written := audit_log (snd (run e)) in
  Forall (fun r =>
            let elapsed := Audit.finished_at r - Audit.started_at r in
            Audit.started_at r = clock e 0
            /\ (exists i, (i < ticks (snd (run e)))%nat
                          /\ Audit.finished_at r = clock e i)
            /\ Audit.duration_ms r
               = Double.to_int
                   (Double.mul (Double.div (inject_Z elapsed) 1000000) 1000)
            /\ elapsed / 1000 - 1 <= Audit.duration_ms r <= elapsed / 1000
            /\ (elapsed mod 1000 <> 0 ->
                Audit.duration_ms r = elapsed / 1000))
         written
  /\ StronglySorted Z.le (map Audit.finished_at written)
  /\ StronglySorted Z.le (map Audit.duration_ms written).
Proof.
  intros Hmono Hlen written.
  destruct (run_audit_timed e) as (idx & Hf & Hs & Hticks & Hr).
  fold written in Hf, Hr.
  assert (Hfin : StronglySorted Z.le (map Audit.finished_at written)).
  { rewrite Hf. apply readings_sorted; assumption. }
  assert (Hread : Forall (fun r => exists i, (i < ticks (snd (run e)))%nat
                                             /\ Audit.finished_at r = clock e i)
                         written).
  { rewrite Forall_forall. intros r Hin.
    apply (in_map Audit.finished_at) in Hin. rewrite Hf in Hin.
    apply in_map_iff in Hin. destruct Hin as (i & Hi & Hidx).
    rewrite Forall_forall in Hticks.
    exists i. split; [apply Hticks; exact Hidx | symmetry; exact Hi]. }
  split; [| split; [exact Hfin |]].
  - rewrite Forall_forall in *. intros r Hin.
    destruct (Hr r Hin) as [Hst Hd]. destruct (Hread r Hin) as (i & Hlt & Hi).
    cbv zeta. rewrite Hst.
    assert (Hx : 0 <= Audit.finished_at r - clock e 0 <= 10 ^ 15).
    { rewrite Hi. pose proof (Hmono 0%nat i ltac:(lia)).
      pose proof (Hlen i Hlt). lia. }
    split; [reflexivity |]. split; [exists i; split; [exact Hlt | exact Hi] |].
    split; [exact Hd |]. rewrite Hd. apply elapsed_ms_near. exact Hx.
  - apply (durations_sorted (clock e 0)); [exact Hr | | exact Hfin].
    rewrite Forall_forall in *. intros r Hin.
    destruct (Hread r Hin) as (i & _ & ->). apply Hmono. lia.
Qed.

(** The store with two profiles: six records, all started at 0, finished
    1.001 seconds apart; the first lasts 1001 milliseconds and reports
    1000. *)
Lemma audit_timing_two_profiles :
  (forall i j, (i <= j)%nat ->
               clock nameless_county_env i <= clock nameless_county_env j)
  /\ (forall i, (i < ticks (snd (run nameless_county_env)))%nat ->
                clock nameless_county_env i - clock nameless_county_env 0
                <= 10 ^ 15)
  /\ map (fun r => (Audit.stage r, Audit.started_at r, Audit.finished_at r,
                    Audit.duration_ms r))
         (audit_log (snd (run nameless_county_env)))
     = [ ("risk_score", 0, 1001000, 1000);
         ("kmeans", 0, 2002000, 2001);
         ("dbscan", 0, 3003000, 3003);
         ("isolation_forest", 0, 4004000, 4003);
         ("drift", 0, 5005000, 5005);
         ("pipeline", 0, 6006000, 6006) ]%string
  /\ StronglySorted Z.le
       (map Audit.duration_ms (audit_log (snd (run nameless_county_env)))).
Proof.
  assert (Hm : forall i j, (i <= j)%nat ->
                 clock nameless_county_env i <= clock nameless_county_env j)
    by (intros i j H;
        change (1001000 * Z.of_nat i <= 1001000 * Z.of_nat j); lia).
  assert (Ht : ticks (snd (run nameless_county_env)) = 7%nat)
    by (lazy; reflexivity).
  assert (Hl : forall i, (i < ticks (snd (run nameless_county_env)))%nat ->
                 clock nameless_county_env i - clock nameless_county_env 0
                 <= 10 ^ 15).
  { intros i Hi. rewrite Ht in Hi.
    change (1001000 * Z.of_nat i - 1001000 * 0 <= 10 ^ 15).
    assert (10 ^ 15 = 1000000000000000) by reflexivity. lia. }
  split; [exact Hm |]. split; [exact Hl |]. split; [lazy; reflexivity |].
  apply (audit_timing nameless_county_env Hm Hl).
Defined.

(** ** Runs that meet no refusal *)

Lemma insert_key_nonempty (k : group_key) (l : list group_key) :
  insert_key k l <> [].
Proof.
  destruct l as [| h t]; simpl; [discriminate |].
  destruct (key_compare k h); discriminate.
Qed.

Lemma snapshot_rows_nonempty (today : Z) (prev : list Prior.row)
    (mv rid : string) (df : list profile) :
  df <> [] -> snapshot_rows today prev mv rid df <> [].
Proof.
  intros Hdf H. unfold snapshot_rows, grouped in H.
  apply map_eq_nil in H. apply map_eq_nil in H.
  destruct df as [| x df]; [contradiction |].
  unfold group_keys in H. simpl in H. exact (insert_key_nonempty _ _ H).
Qed.

Section Accepted.
Variable e : env.
Hypothesis accepts : forall i, response e i = None.

Lemma http_accepted (o : operation) (w : world) :
  http e o w = (Return tt, push o true w).
Proof. unfold http. rewrite accepts. reflexivity. Qed.

Lemma log_stage_accepted (t0 : Z) (stage : string) (status : run_status)
    (processed : Z) (metrics : list (string * metric))
    (error : option string) (w : world) :
  log_stage e t0 stage status processed metrics error w
  = (Return tt,
     push (InsertAudit [audit_record e t0 (clock e (ticks w)) stage status
                                     processed metrics error])
          true (tick w)).
Proof.
  unfold log_stage, bind, now, read_clock, insert_audit, http.
  cbn [requests ticks]. rewrite accepts. reflexivity.
Qed.

Lemma upsert_snapshots_accepted (rows : list Snapshot.row) (w : world) :
  rows <> [] ->
  upsert_snapshots e rows w = (Return tt, push (UpsertSnapshots rows) true w).
Proof.
  intros H. unfold upsert_snapshots. destruct rows; [contradiction |].
  apply http_accepted.
Qed.

End Accepted.

Lemma rescored_updates (records : list entity) :
  map (fun row => (id row, Py.fillna 0%Q (risk_score row))) (rescore records)
  = map (fun x => (id x, risk_row (transport_dtype records) x)) records.
Proof. unfold rescore. rewrite map_map. reflexivity. Qed.

Lemma attach_ent (df : list entity) (km db iso : list Z) :
  map ent (attach df km db iso) = df.
Proof.
  revert km db iso. induction df as [| x df IH]; intros; [reflexivity |].
  simpl. now rewrite IH.
Qed.

(** What a run leaves in the store when every request is accepted and the
    three models answer: the scores of the loaded profiles and the snapshot
    rows of the labelled frame. *)
Lemma accepted_run (e : env) (r : entity) (rs : list entity)
    (km db iso : list Z) :
  configured e ->
  vulnerability_profiles e = r :: rs ->
  (forall i, response e i = None) ->
  let df := rescore (r :: rs) in
  let n := Z.of_nat (List.length df) in
  KMeans_fit_predict e (kmeans_k n) (scaled_features df) = Return km ->
  DBSCAN_fit_predict e dbscan_eps (dbscan_min_samples n) (scaled_features df)
  = Return db ->
  IsolationForest_fit_predict e iso_contamination (scaled_features df)
  = Return iso ->
  fst (run e) = 0
  /\ profile_upserts (snd (run e))
     = map (fun x => (id x, risk_row (transport_dtype (r :: rs)) x)) (r :: rs)
  /\ snapshot_upserts (snd (run e))
     = snapshot_rows (today e)
         (select_by_date (region_snapshots e) (today e - 30))
         (model_version e) (run_id e) (attach df km db iso).
Proof.
  intros Hc Hp Hacc df n Hkm Hdb Hiso.
  set (rows := snapshot_rows (today e)
                 (select_by_date (region_snapshots e) (today e - 30))
                 (model_version e) (run_id e) (attach df km db iso)).
  assert (Hrows : rows <> []).
  { apply snapshot_rows_nonempty. unfold df. simpl. discriminate. }
  assert (Hrun : exists a1 a2 a3 a4 a5 a6,
    run e
    = (0, {| ticks := 7;
             requests :=
               map (fun o => {| op := o; accepted := true |})
                 [ SelectProfiles;
                   UpsertProfiles
                     (map (fun x => (id x,
                                     risk_row (transport_dtype (r :: rs)) x))
                          (r :: rs));
                   InsertAudit [a1]; InsertAudit [a2]; InsertAudit [a3];
                   InsertAudit [a4];
                   SelectSnapshots (today e - 30);
                   UpsertSnapshots rows;
                   InsertAudit [a5]; InsertAudit [a6] ] |})).
  { do 6 eexists. rewrite (run_configured e Hc).
    unfold pipeline, select_profiles. unfold bind at 1 2.
    rewrite (http_accepted e Hacc). unfold ret at 1. rewrite Hp.
    unfold process. cbv zeta. rewrite rescored_updates. fold df. fold n.
    unfold bind at 1. unfold upsert_profiles. cbn [map].
    rewrite (http_accepted e Hacc).
    unfold bind at 1. rewrite (log_stage_accepted e Hacc).
    unfold bind at 1. rewrite Hkm. unfold lift at 1.
    unfold bind at 1. rewrite (log_stage_accepted e Hacc).
    unfold bind at 1. rewrite Hdb. unfold lift at 1.
    unfold bind at 1. rewrite (log_stage_accepted e Hacc).
    unfold bind at 1. rewrite Hiso. unfold lift at 1.
    unfold bind at 1. rewrite (log_stage_accepted e Hacc).
    unfold bind at 1. unfold select_snapshots. unfold bind at 1.
    rewrite (http_accepted e Hacc). unfold ret at 1.
    unfold prev_date. fold rows.
    unfold bind at 1.
    rewrite (upsert_snapshots_accepted e Hacc rows _ Hrows).
    unfold bind at 1. rewrite (log_stage_accepted e Hacc).
    unfold bind at 1. rewrite (log_stage_accepted e Hacc).
    unfold ret. unfold push, tick, started_world.
    cbn [ticks requests app map]. reflexivity. }
  destruct Hrun as (a1 & a2 & a3 & a4 & a5 & a6 & Hrun).
  rewrite Hrun. cbn [fst snd].
  split; [reflexivity |].
  split; [unfold profile_upserts | unfold snapshot_upserts];
    cbn [requests map filter accepted flat_map op app];
    rewrite ?app_nil_r; reflexivity.
Qed.

Lemma calculate_risk_spec (df : list entity) :
  calculate_risk df
  = map (fun x => Py.round4 (SpecRisk.formula (SpecRisk.defaults x)
                             - dtype_shift (transport_dtype df))) df.
Proof. unfold calculate_risk. apply map_ext. intros x. apply risk_row_spec. Qed.

(** C2, what the script computes: when no transportation_access of the
    batch is null, every score is the specified formula on the defaulted
    fields, rounded to four decimals.  When one is null, the column has
    dtype object, [~] is the integer complement and every score of the batch
    is the rounded formula less 2.4: the household of two with only
    insulin_dependency true, its transportation_access null, is specified
    to score 3.0000 and scores 0.6; in a run over that household and a
    household of one with every field stored, the scores written are 0.6
    and -2.0 where 3.0000 and 0.4000 are specified. *)
Theorem risk_score_formula (df : list entity) :
  (transport_dtype df = BoolDtype ->
   calculate_risk df = map (fun x => SpecRisk.score (SpecRisk.defaults x)) df)
  /\ (transport_dtype df = ObjectDtype ->
      calculate_risk df
      = map (fun x => Py.round4 (SpecRisk.formula (SpecRisk.defaults x)
                                 - (24 # 10))) df)
  /\ (transport_dtype df = ObjectDtype
      <-> exists x, In x df /\ transportation_access x = None)
  /\ (transport_dtype df = BoolDtype
      <-> forall x, In x df -> transportation_access x <> None)
  /\ SpecRisk.score (SpecRisk.defaults insulin_household_of_two)
     = 30000 # 10000
  /\ calculate_risk [insulin_household_of_two] = [6000 # 10000]
  /\ map (fun x => (id x, SpecRisk.score (SpecRisk.defaults x)))
         (vulnerability_profiles defaulted_transport_env)
     = [ ("p-1"%string, 30000 # 10000); ("p-3"%string, 4000 # 10000) ]
  /\ fst (run defaulted_transport_env) = 0
  /\ profile_upserts (snd (run defaulted_transport_env))
     = [ ("p-1"%string, 6000 # 10000); ("p-3"%string, -20000 # 10000) ].
Proof.
  split.
  { intros H. rewrite calculate_risk_spec, H. apply map_ext. intros x.
    unfold SpecRisk.score. apply round4_comp. unfold dtype_shift. ring. }
  split.
  { intros H. rewrite calculate_risk_spec, H. reflexivity. }
  split; [apply transport_dtype_object |].
  split.
  { pose proof (transport_dtype_object df) as Ho.
    destruct (transport_dtype df).
    - split; [| reflexivity]. intros _ x Hin Hn.
      assert (BoolDtype = ObjectDtype) by (apply Ho; exists x; split; assumption).
      discriminate.
    - split; [discriminate |]. intros H.
      destruct Ho as [Ho _]. destruct (Ho eq_refl) as (x & Hin & Hn).
      exfalso. exact (H x Hin Hn). }
  split; [reflexivity |]. split; [reflexivity |]. split; [reflexivity |].
  assert (Hc : configured defaulted_transport_env) by (split; discriminate).
  destruct (accepted_run defaulted_transport_env insulin_household_of_two
              [travis_household] [0; 1] [-1; -1] [1; 1] Hc eq_refl
              (fun _ => eq_refl) eq_refl eq_refl eq_refl)
    as (H0 & Hu & _).
  split; [exact H0 |]. rewrite Hu. reflexivity.
Qed.

(** C4, what the script does with a missing county or state: in a run that
    meets no refusal, every loaded profile has its snapshot row among the
    rows handed to the snapshot upsert; when the profile's county_id (or
    state_id) is null, that row carries the NaN label the grouping gave the
    group ([NaN or "UNKNOWN"] is NaN), not "UNKNOWN"; the string is written
    only in place of an empty one.  The organization is copied from the
    group as it is. *)
Theorem missing_region_row_is_NaN (e : env) (r : entity) (rs : list entity)
    (km db iso : list Z) (p : entity) :
  configured e ->
  vulnerability_profiles e = r :: rs ->
  (forall i, response e i = None) ->
  let df := rescore (r :: rs) in
  let n := Z.of_nat (List.length df) in
  KMeans_fit_predict e (kmeans_k n) (scaled_features df) = Return km ->
  DBSCAN_fit_predict e dbscan_eps (dbscan_min_samples n) (scaled_features df)
  = Return db ->
  IsolationForest_fit_predict e iso_contamination (scaled_features df)
  = Return iso ->
  In p (r :: rs) ->
  fst (run e) = 0
  /\ exists row,
       In row (snapshot_upserts (snd (run e)))
       /\ (county_id p = None ->
           Snapshot.county_id row = PNaN /\ Snapshot.county_id row <> UNKNOWN)
       /\ (state_id p = None ->
           Snapshot.state_id row = PNaN /\ Snapshot.state_id row <> UNKNOWN)
       /\ (forall c, county_id p = Some c ->
             Snapshot.county_id row
             = if String.eqb c "" then UNKNOWN else PStr c)
       /\ (forall s, state_id p = Some s ->
             Snapshot.state_id row
             = if String.eqb s "" then UNKNOWN else PStr s)
       /\ Snapshot.organization_id row = group_label (organization_id p).
Proof.
  intros Hc Hp Hacc df n Hkm Hdb Hiso Hin.
  destruct (accepted_run e r rs km db iso Hc Hp Hacc Hkm Hdb Hiso)
    as (H0 & _ & Hrows).
  fold df in Hrows. split; [exact H0 |].
  set (p' := set_risk_score p (risk_row (transport_dtype (r :: rs)) p)).
  assert (Hdf : In p' df)
    by (unfold df, rescore;
        apply (in_map (fun x => set_risk_score x
                                  (risk_row (transport_dtype (r :: rs)) x)));
        exact Hin).
  rewrite <- (attach_ent df km db iso) in Hdf.
  apply in_map_iff in Hdf. destruct Hdf as (prof & Hent & Hprof).
  destruct (missing_region_row (today e)
              (select_by_date (region_snapshots e) (today e - 30))
              (model_version e) (run_id e) (attach df km db iso) prof Hprof)
    as (_ & _ & Hrow & Hcounty & Hstate & Horg & _).
  rewrite Hent in Hcounty, Hstate, Horg.
  eexists. split; [rewrite Hrows; exact Hrow |].
  split; [exact Hcounty |]. split; [exact Hstate |].
  split; [| split; [| exact Horg]].
  - intros c Hcid. unfold snapshot_row, aggregate, key_of.
    cbn [Snapshot.county_id Grouped.county_id fst snd]. rewrite Hent.
    change (county_id p') with (county_id p). rewrite Hcid.
    unfold or_val, group_label, truthy. destruct (String.eqb c ""); reflexivity.
  - intros s Hsid. unfold snapshot_row, aggregate, key_of.
    cbn [Snapshot.state_id Grouped.state_id fst snd]. rewrite Hent.
    change (state_id p') with (state_id p). rewrite Hsid.
    unfold or_val, group_label, truthy. destruct (String.eqb s ""); reflexivity.
Qed.

(** The store with two profiles of one state, the county of the first null:
    the run returns 0 and hands two rows to the snapshot upsert, one of
    Travis county and one whose county_id is NaN. *)
Lemma missing_region_row_is_NaN_two_profiles :
  configured nameless_county_env
  /\ vulnerability_profiles nameless_county_env
     = [ent profile_without_county; travis_household]
  /\ county_id (ent profile_without_county) = None
  /\ fst (run nameless_county_env) = 0
  /\ map (fun s => (Snapshot.county_id s, Snapshot.state_id s,
                    Snapshot.organization_id s, Snapshot.profile_count s))
         (snapshot_upserts (snd (run nameless_county_env)))
     = [ (PStr "Travis", PStr "TX", PStr "org-1", 1);
         (PNaN, PStr "TX", PStr "org-1", 1) ].
Proof.
  assert (Hc : configured nameless_county_env) by (split; discriminate).
  destruct (missing_region_row_is_NaN nameless_county_env
              (ent profile_without_county) [travis_household]
              [0; 1] [-1; -1] [1; 1] (ent profile_without_county)
              Hc eq_refl (fun _ => eq_refl) eq_refl eq_refl eq_refl
              (or_introl eq_refl))
    as (H0 & _).
  split; [exact Hc |]. split; [reflexivity |]. split; [reflexivity |].
  split; [exact H0 |]. lazy. reflexivity.
Defined.

(** * Further properties *)

(** ** Rounding, continued *)

Lemma round4_mono (p q : Q) : (p <= q)%Q -> (Py.round4 p <= Py.round4 q)%Q.
Proof.
  intros H. unfold Py.round4, Qle. simpl.
  assert (Hm : Py.round_half_even (p * inject_Z 10000)
               <= Py.round_half_even (q * inject_Z 10000)).
  { apply round_half_even_mono. apply Qmult_le_compat_r; [exact H |].
    discriminate. }
  lia.
Qed.

Lemma round_half_even_Z (m : Z) : Py.round_half_even (inject_Z m) = m.
Proof.
  unfold Py.round_half_even. cbv zeta. rewrite Qfloor_Z.
  assert (Z0 : (inject_Z m - inject_Z m == 0)%Q) by ring.
  rewrite (Qcompare_comp _ _ Z0 (1 # 2) (1 # 2) (Qeq_refl _)).
  reflexivity.
Qed.

Lemma round4_exact (q : Q) (m : Z) :
  (q * inject_Z 10000 == inject_Z m)%Q ->
  Py.round4 q = Qmake m 10000 /\ (Py.round4 q == q)%Q.
Proof.
  intros H.
  assert (E : Py.round4 q = Qmake m 10000).
  { unfold Py.round4. rewrite (round_half_even_comp _ _ H), round_half_even_Z.
    reflexivity. }
  split; [exact E |]. rewrite E.
  assert (Hm : (Qmake m 10000 == inject_Z m / inject_Z 10000)%Q).
  { unfold Qeq, Qdiv, Qmult, Qinv, inject_Z. simpl. lia. }
  rewrite Hm, <- H. field.
Qed.

(** ** Risk score, continued *)

Lemma astype_int_range (b : bool) :
  (0 <= Py.astype_int b)%Q /\ (Py.astype_int b <= 1)%Q.
Proof. destruct b; split; discriminate. Qed.

Lemma qmin_spec (a b : Q) :
  ((a <= b)%Q /\ Py.qmin a b = a) \/ ((b < a)%Q /\ Py.qmin a b = b).
Proof.
  unfold Py.qmin. destruct (Qle_bool a b) eqn:E.
  - left. split; [apply Qle_bool_iff; exact E | reflexivity].
  - right. split; [| reflexivity]. apply Qnot_le_lt. intros H.
    apply Qle_bool_iff in H. congruence.
Qed.

Lemma qmax_spec (a b : Q) :
  ((a <= b)%Q /\ Py.qmax a b = b) \/ ((b < a)%Q /\ Py.qmax a b = a).
Proof.
  unfold Py.qmax. destruct (Qle_bool a b) eqn:E.
  - left. split; [apply Qle_bool_iff; exact E | reflexivity].
  - right. split; [| reflexivity]. apply Qnot_le_lt. intros H.
    apply Qle_bool_iff in H. congruence.
Qed.

Lemma household_component_cases (e : entity) :
  let h := Py.fillna 1%Q (household_size e) in
  ((h <= 1)%Q /\ (household_component e == 4 # 10)%Q)
  \/ ((1 <= h)%Q /\ (h <= 8)%Q /\ (household_component e == h * (4 # 10))%Q)
  \/ ((8 <= h)%Q /\ (household_component e == 32 # 10)%Q).
Proof.
  intros h. unfold household_component, Py.clip_lower. fold h. cbv zeta.
  destruct (qmax_spec h 1) as [[H1 ->] | [H1 ->]].
  - left. split; [exact H1 |].
    destruct (qmin_spec (1 * (4 # 10)) (32 # 10)) as [[_ ->] | [H2 _]].
    + reflexivity.
    + exfalso. revert H2. discriminate.
  - destruct (qmin_spec (h * (4 # 10)) (32 # 10)) as [[H2 ->] | [H2 ->]].
    + right. left. split; [Lqa.lra |]. split; [Lqa.lra | reflexivity].
    + right. right. split; [Lqa.lra | reflexivity].
Qed.

Lemma household_component_range (e : entity) :
  (4 # 10 <= household_component e)%Q /\ (household_component e <= 32 # 10)%Q.
Proof.
  destruct (household_component_cases e)
    as [[H E] | [[H1 [H2 E]] | [H E]]]; rewrite E; split; Lqa.lra.
Qed.

Lemma invert_int_range (d : dtype) (b : bool) :
  (-2 <= invert_int d b)%Q /\ (invert_int d b <= 1)%Q
  /\ (d = BoolDtype -> (0 <= invert_int d b)%Q)
  /\ (d = ObjectDtype -> (invert_int d b <= -1)%Q).
Proof.
  destruct d, b; cbn; repeat split; intros; try discriminate.
Qed.

Lemma risk_row_range (d : dtype) (e : entity) :
  (-2 <= risk_row d e)%Q /\ (risk_row d e <= 138 # 10)%Q
  /\ (d = BoolDtype -> (4 # 10 <= risk_row d e)%Q)
  /\ (d = ObjectDtype -> (risk_row d e <= 114 # 10)%Q).
Proof.
  unfold risk_row.
  pose proof (household_component_range e) as [Hl Hu].
  pose proof (astype_int_range (Py.fillna false (medication_dependency e)))
    as [A1 B1].
  pose proof (astype_int_range (Py.fillna false (insulin_dependency e)))
    as [A2 B2].
  pose proof (astype_int_range (Py.fillna false (oxygen_powered_device e)))
    as [A3 B3].
  pose proof (astype_int_range (Py.fillna false (mobility_limitation e)))
    as [A4 B4].
  pose proof (invert_int_range d (Py.fillna true (transportation_access e)))
    as (A5 & B5 & C5 & D5).
  pose proof (astype_int_range (Py.fillna false (financial_strain e)))
    as [A6 B6].
  split; [| split; [| split]].
  - apply Qle_trans with (Py.round4 (-2)); [discriminate |].
    apply round4_mono. Lqa.lra.
  - apply Qle_trans with (Py.round4 (138 # 10)); [| discriminate].
    apply round4_mono. Lqa.lra.
  - intros Hd. specialize (C5 Hd).
    apply Qle_trans with (Py.round4 (4 # 10)); [discriminate |].
    apply round4_mono. Lqa.lra.
  - intros Hd. specialize (D5 Hd).
    apply Qle_trans with (Py.round4 (114 # 10)); [| discriminate].
    apply round4_mono. Lqa.lra.
Qed.

(** X7: every score of a batch lies between -2.0 and 13.8 (a household of
    eight or more with every risk factor and no transport); when no
    transportation_access of the batch is null the scores are at least 0.4
    (a household of one with no risk factor and with transport), and when
    one is null they are at most 11.4. *)
Theorem risk_score_bounds (df : list entity) :
  Forall (fun s => (-2 <= s)%Q /\ (s <= 138 # 10)%Q) (calculate_risk df)
  /\ ((forall x, In x df -> transportation_access x <> None) ->
      Forall (fun s => (4 # 10 <= s)%Q) (calculate_risk df))
  /\ ((exists x, In x df /\ transportation_access x = None) ->
      Forall (fun s => (s <= 114 # 10)%Q) (calculate_risk df)).
Proof.
  unfold calculate_risk. rewrite !Forall_map.
  split; [| split].
  - rewrite Forall_forall. intros e _.
    destruct (risk_row_range (transport_dtype df) e) as (H1 & H2 & _).
    split; assumption.
  - intros Hnone. rewrite Forall_forall. intros e _.
    apply risk_row_range.
    pose proof (transport_dtype_object df) as Ho.
    destruct (transport_dtype df); [reflexivity |].
    destruct Ho as [Ho _]. destruct (Ho eq_refl) as (x & Hin & Hn).
    exfalso. exact (Hnone x Hin Hn).
  - intros Hsome. rewrite Forall_forall. intros e _.
    apply risk_row_range. apply transport_dtype_object. exact Hsome.
Qed.

(** X8: whatever the dtype of the transportation_access column, the score
    depends on the household size only through its value clamped to the
    interval from 1 to 8: a missing size counts as 1, any size below 1 as 1,
    any size above 8 as 8. *)
Theorem risk_score_clamps_household (d : dtype) (e : entity) (h : Q) :
  risk_row d (with_household_size e (Some h))
  = risk_row d (with_household_size e (Some (Qmin (Qmax h 1) 8)))
  /\ risk_row d (with_household_size e None)
     = risk_row d (with_household_size e (Some 1%Q))
  /\ ((h <= 1)%Q -> risk_row d (with_household_size e (Some h))
                    = risk_row d (with_household_size e None))
  /\ ((8 <= h)%Q -> risk_row d (with_household_size e (Some h))
                    = risk_row d (with_household_size e (Some 8%Q))).
Proof.
  assert (Hc : forall a b,
             (Qmin (Qmax a 1) 8 == Qmin (Qmax b 1) 8)%Q ->
             risk_row d (with_household_size e (Some a))
             = risk_row d (with_household_size e (Some b))).
  { intros a b H. unfold risk_row. apply round4_comp.
    assert (Hh : (household_component (with_household_size e (Some a))
                  == household_component (with_household_size e (Some b)))%Q).
    { unfold household_component, Py.clip_lower. simpl.
      rewrite !qmin_Qmin, !qmax_Qmax.
      assert (G : forall x, (Qmin (Qmax x 1 * (4 # 10)) (32 # 10)
                             == Qmin (Qmax x 1) 8 * (4 # 10))%Q).
      { intros x. destruct (Qlt_le_dec 8 (Qmax x 1)) as [L | L].
        - rewrite (Q.min_r (Qmax x 1) 8) by Lqa.lra.
          rewrite Q.min_r by Lqa.lra. reflexivity.
        - rewrite (Q.min_l (Qmax x 1) 8) by Lqa.lra.
          rewrite Q.min_l by Lqa.lra. reflexivity. }
      rewrite !G, H. reflexivity. }
    simpl. rewrite Hh. reflexivity. }
  split.
  { apply Hc. destruct (Qlt_le_dec 8 (Qmax h 1)) as [L | L].
    - rewrite (Q.min_r (Qmax h 1) 8) by Lqa.lra.
      rewrite (Q.max_l 8 1) by Lqa.lra. rewrite Q.min_l by Lqa.lra.
      reflexivity.
    - rewrite (Q.min_l (Qmax h 1) 8) by Lqa.lra.
      assert (1 <= Qmax h 1)%Q by apply Q.le_max_r.
      rewrite (Q.max_l (Qmax h 1) 1) by assumption.
      rewrite Q.min_l by Lqa.lra. reflexivity. }
  split; [reflexivity |]. split.
  - intros H. change (risk_row d (with_household_size e None))
      with (risk_row d (with_household_size e (Some 1%Q))).
    apply Hc. rewrite (Q.max_r h 1) by exact H. reflexivity.
  - intros H. apply Hc.
    rewrite (Q.max_l h 1) by Lqa.lra. rewrite (Q.max_l 8 1) by Lqa.lra.
    rewrite Q.min_r by exact H. rewrite Q.min_l by Lqa.lra. reflexivity.
Qed.

Lemma ind_inject (b : bool) :
  (SpecRisk.ind b == inject_Z (if b then 1 else 0))%Q.
Proof. destruct b; reflexivity. Qed.

(** X9: when the household size is a whole number (or missing), rounding to
    four decimals changes nothing: the score is exactly the value of the
    expression, a whole number of tenths; that value is the specified
    formula on a transportation_access column without null, and 2.4 less on
    a column that holds one. *)
Theorem risk_score_exact_for_whole_sizes (dt : dtype) (e : entity) (z : Z) :
  (Py.fillna 1 (household_size e) == inject_Z z)%Q ->
  (dt = BoolDtype ->
   (risk_row dt e == SpecRisk.formula (SpecRisk.defaults e))%Q)
  /\ (dt = ObjectDtype ->
      (risk_row dt e == SpecRisk.formula (SpecRisk.defaults e) - (24 # 10))%Q)
  /\ exists tenths : Z, (risk_row dt e == inject_Z tenths / 10)%Q.
Proof.
  intros Hz.
  set (d := SpecRisk.defaults e).
  set (c := Z.min (Z.max z 1) 8).
  set (b := fun x : bool => if x then 1 else 0).
  set (m := 4 * c + 18 * b (SpecRisk.medication d)
            + 22 * b (SpecRisk.insulin d)
            + 25 * b (SpecRisk.oxygen_device d)
            + 15 * b (SpecRisk.mobility d)
            + 12 * (1 - b (SpecRisk.transport d))
            + 14 * b (SpecRisk.strain d)).
  assert (Hsize : (SpecRisk.size d == inject_Z z)%Q) by exact Hz.
  assert (Hh : (Qmin (Qmax (SpecRisk.size d) 1 * (4 # 10)) (32 # 10)
                == inject_Z (4 * c) / 10)%Q).
  { rewrite Hsize. unfold c.
    assert (Qz : forall k : Z, z <= k -> (inject_Z z <= inject_Z k)%Q)
      by (intros k Hk; rewrite <- Zle_Qle; exact Hk).
    assert (Qz' : forall k : Z, k <= z -> (inject_Z k <= inject_Z z)%Q)
      by (intros k Hk; rewrite <- Zle_Qle; exact Hk).
    destruct (Z_le_gt_dec z 1) as [L | L].
    - pose proof (Qz 1 L) as L1. change (inject_Z 1) with 1%Q in L1.
      rewrite (Q.max_r (inject_Z z) 1) by exact L1.
      rewrite (Q.min_l (1 * (4 # 10)) (32 # 10)) by discriminate.
      rewrite Z.max_r, Z.min_l by lia. reflexivity.
    - pose proof (Qz' 1 ltac:(lia)) as L1. change (inject_Z 1) with 1%Q in L1.
      rewrite (Q.max_l (inject_Z z) 1) by exact L1.
      destruct (Z_le_gt_dec z 8) as [U | U].
      + pose proof (Qz 8 U) as U1. change (inject_Z 8) with 8%Q in U1.
        rewrite (Q.min_l (inject_Z z * (4 # 10)) (32 # 10)) by Lqa.lra.
        rewrite Z.max_l, Z.min_l by lia.
        rewrite inject_Z_mult. change (inject_Z 4) with (4 # 1)%Q. field.
      + pose proof (Qz' 8 ltac:(lia)) as U1.
        change (inject_Z 8) with 8%Q in U1.
        rewrite (Q.min_r (inject_Z z * (4 # 10)) (32 # 10)) by Lqa.lra.
        rewrite Z.max_l, Z.min_r by lia. reflexivity. }
  assert (Hf : (SpecRisk.formula d == inject_Z m / 10)%Q).
  { unfold SpecRisk.formula. rewrite Hh, !ind_inject. unfold m, b, Z.sub.
    rewrite ?inject_Z_plus, ?inject_Z_mult, ?inject_Z_plus, ?inject_Z_opp.
    repeat match goal with
           | |- context [inject_Z (Zpos ?p)] =>
               change (inject_Z (Zpos p)) with (Zpos p # 1)%Q
           end.
    field. }
  set (sh := match dt with BoolDtype => 0 | ObjectDtype => 24 end).
  assert (Hs : (dtype_shift dt == inject_Z sh / 10)%Q)
    by (unfold sh; destruct dt; reflexivity).
  assert (Hx : ((SpecRisk.formula d - dtype_shift dt) * inject_Z 10000
                == inject_Z (1000 * (m + - sh)))%Q).
  { rewrite Hf, Hs, inject_Z_mult, inject_Z_plus, inject_Z_opp.
    change (inject_Z 1000) with (1000 # 1)%Q.
    change (inject_Z 10000) with (10000 # 1)%Q. field. }
  destruct (round4_exact _ _ Hx) as [_ He].
  assert (Hrow : (risk_row dt e == SpecRisk.formula d - dtype_shift dt)%Q)
    by (rewrite (risk_row_spec dt e); exact He).
  split; [intros Hd; rewrite Hrow, Hd; unfold dtype_shift; ring |].
  split; [intros Hd; rewrite Hrow, Hd; unfold dtype_shift; reflexivity |].
  exists (m + - sh). rewrite Hrow, Hf, Hs, inject_Z_plus, inject_Z_opp. field.
Qed.

(** A household of two whose transportation_access is null, scored alone:
    the column has dtype object and the score is the formula less 2.4. *)
Lemma risk_score_exact_for_whole_sizes_two :
  (Py.fillna 1 (household_size insulin_household_of_two) == inject_Z 2)%Q
  /\ transport_dtype [insulin_household_of_two] = ObjectDtype
  /\ (risk_row (transport_dtype [insulin_household_of_two])
               insulin_household_of_two
      == SpecRisk.formula (SpecRisk.defaults insulin_household_of_two)
         - (24 # 10))%Q.
Proof.
  assert (H : (Py.fillna 1 (household_size insulin_household_of_two)
               == inject_Z 2)%Q) by reflexivity.
  split; [exact H |]. split; [reflexivity |].
  exact (proj1 (proj2 (risk_score_exact_for_whole_sizes
                         (transport_dtype [insulin_household_of_two])
                         insulin_household_of_two 2 H))
               eq_refl).
Defined.

(** ** Model parameters, continued *)

(** X10: the cluster count is 2 up to eight entities, 6 from thirty-six on,
    never decreases with the population, and exceeds the population exactly
    for a population of one. *)
Theorem kmeans_k_regimes (n : Z) :
  1 <= n ->
  (n < 9 -> kmeans_k n = 2)
  /\ (36 <= n -> kmeans_k n = 6)
  /\ (forall m, n <= m -> kmeans_k n <= kmeans_k m)
  /\ (kmeans_k n <= n <-> 2 <= n).
Proof.
  intros Hn.
  assert (Hk : forall a, 1 <= a -> kmeans_k a = Z.max 2 (Z.min 6 (Z.sqrt a))).
  { intros a Ha. unfold kmeans_k, Py.int_sqrt, Py.or_int.
    assert (1 <= Z.sqrt a)
      by (change 1 with (Z.sqrt 1) at 1; apply Z.sqrt_le_mono; exact Ha).
    destruct (Z.sqrt a =? 0) eqn:E; [apply Z.eqb_eq in E; lia | reflexivity]. }
  pose proof (Z.sqrt_nonneg n) as H0.
  repeat split.
  - intros H. rewrite Hk by exact Hn.
    assert (Z.sqrt n < 3) by (apply Z.sqrt_lt_square; lia). lia.
  - intros H. rewrite Hk by exact Hn.
    assert (6 <= Z.sqrt n) by (apply Z.sqrt_le_square; lia). lia.
  - intros m Hm. rewrite !Hk by lia.
    pose proof (Z.sqrt_le_mono n m Hm). lia.
  - intros H. rewrite Hk in H by exact Hn. lia.
  - intros H. rewrite Hk by exact Hn.
    pose proof (Z.sqrt_le_lin n ltac:(lia)). lia.
Qed.

(** Nine entities: three clusters. *)
Lemma kmeans_k_regimes_at_9 :
  1 <= 9 /\ (kmeans_k 9 <= 9 <-> 2 <= 9) /\ kmeans_k 9 = 3.
Proof.
  split; [lia |].
  destruct (kmeans_k_regimes 9 ltac:(lia)) as (_ & _ & _ & H).
  split; [exact H | reflexivity].
Defined.

(** X11: min_samples is 3 below eighty entities, 8 from one hundred and sixty
    on, never decreases with the population, and exceeds the population
    exactly for populations of one and two. *)
Theorem dbscan_min_samples_regimes (n : Z) :
  1 <= n ->
  (n < 80 -> dbscan_min_samples n = 3)
  /\ (160 <= n -> dbscan_min_samples n = 8)
  /\ (forall m, n <= m -> dbscan_min_samples n <= dbscan_min_samples m)
  /\ (dbscan_min_samples n <= n <-> 3 <= n).
Proof.
  intros Hn.
  assert (Hk : forall a, dbscan_min_samples a = Z.max 3 (Z.min 8 (a / 20))).
  { intros a. unfold dbscan_min_samples, Py.or_int.
    destruct (a / 20 =? 0) eqn:E; [apply Z.eqb_eq in E; rewrite E |];
      reflexivity. }
  pose proof (Z.div_mod n 20 ltac:(lia)) as Hd.
  pose proof (Z.mod_pos_bound n 20 ltac:(lia)) as Hb.
  repeat split.
  - intros H. rewrite Hk. lia.
  - intros H. rewrite Hk. lia.
  - intros m Hm. rewrite !Hk.
    pose proof (Z.div_le_mono n m 20 ltac:(lia) Hm). lia.
  - intros H. rewrite Hk in H. lia.
  - intros H. rewrite Hk. lia.
Qed.

(** A hundred entities: min_samples = 5. *)
Lemma dbscan_min_samples_regimes_at_100 :
  1 <= 100 /\ (dbscan_min_samples 100 <= 100 <-> 3 <= 100)
  /\ dbscan_min_samples 100 = 5.
Proof.
  split; [lia |].
  destruct (dbscan_min_samples_regimes 100 ltac:(lia)) as (_ & _ & _ & H).
  split; [exact H | reflexivity].
Defined.

(** ** Drift and its classification, continued *)

Lemma round4_le_const (x c : Q) (m : Z) :
  (c * inject_Z 10000 == inject_Z m)%Q -> (x <= c)%Q -> (Py.round4 x <= c)%Q.
Proof.
  intros Hc Hx. destruct (round4_exact c m Hc) as [_ E].
  rewrite <- E. apply round4_mono. exact Hx.
Qed.

(** X12: with a positive prior average, a region is classed ACCELERATING only
    if its average exceeds the prior one by more than 25 percent, and is
    classed other than STABLE only if it exceeds it by more than 15 percent;
    an average that did not grow gives a drift of at most 0. *)
Theorem flags_require_growth (avg_risk prev_avg : Q) :
  (0 < prev_avg)%Q ->
  (classify_drift (drift_of avg_risk prev_avg) = ACCELERATING ->
   (prev_avg * (125 # 100) < avg_risk)%Q)
  /\ (classify_drift (drift_of avg_risk prev_avg) <> STABLE ->
      (prev_avg * (115 # 100) < avg_risk)%Q)
  /\ ((avg_risk <= prev_avg)%Q ->
      (drift_of avg_risk prev_avg <= 0)%Q
      /\ classify_drift (drift_of avg_risk prev_avg) = STABLE).
Proof.
  intros Hp.
  assert (Hd : drift_of avg_risk prev_avg
               = Py.round4 ((avg_risk - prev_avg) / prev_avg)).
  { apply drift_of_nonzero. intros E. rewrite E in Hp. revert Hp. discriminate. }
  assert (Hle : forall (c : Q) (m : Z),
             (c * inject_Z 10000 == inject_Z m)%Q ->
             (avg_risk <= prev_avg * (1 + c))%Q ->
             (drift_of avg_risk prev_avg <= c)%Q).
  { intros c m Hc H. rewrite Hd. apply (round4_le_const _ c m Hc).
    apply Qle_shift_div_r; [exact Hp | Lqa.lra]. }
  assert (Hstable : forall v, (v <= 15 # 100)%Q -> classify_drift v = STABLE).
  { intros v Hv. unfold classify_drift.
    destruct (Qgtb v (25 # 100)) eqn:A; [apply Qgtb_lt in A; Lqa.lra |].
    destruct (Qgtb v (15 # 100)) eqn:B; [apply Qgtb_lt in B; Lqa.lra |].
    reflexivity. }
  split; [| split].
  - intros H. apply Qnot_le_lt. intros L.
    assert (D : (drift_of avg_risk prev_avg <= 25 # 100)%Q)
      by (apply (Hle (25 # 100) 2500); [reflexivity | Lqa.lra]).
    unfold classify_drift in H.
    destruct (Qgtb (drift_of avg_risk prev_avg) (25 # 100)) eqn:A.
    + apply Qgtb_lt in A. Lqa.lra.
    + destruct (Qgtb (drift_of avg_risk prev_avg) (15 # 100)); discriminate.
  - intros H. apply Qnot_le_lt. intros L. apply H. apply Hstable.
    apply (Hle (15 # 100) 1500); [reflexivity | Lqa.lra].
  - intros L.
    assert (D : (drift_of avg_risk prev_avg <= 0)%Q)
      by (apply (Hle 0%Q 0); [reflexivity | Lqa.lra]).
    split; [exact D |]. apply Hstable. Lqa.lra.
Qed.

(** Prior average 2.0, current average 3.0: drift 0.5, ACCELERATING. *)
Lemma flags_require_growth_sample :
  (0 < 2)%Q
  /\ classify_drift (drift_of 3 2) = ACCELERATING
  /\ (2 * (125 # 100) < 3)%Q.
Proof.
  assert (H : (0 < 2)%Q) by reflexivity.
  split; [exact H |]. split; [reflexivity |].
  exact (proj1 (flags_require_growth 3 2 H) eq_refl).
Defined.

(** ** Configuration *)

(** X13: [rstrip("/")] removes exactly the trailing slashes: the string is
    its result followed by slashes only, the result does not end with a
    slash, and appending a slash to the string does not change the result. *)
Theorem rstrip_slash_spec (s : string) :
  (exists n, s = (Py.rstrip_slash s ++ slashes n)%string)
  /\ (forall t, Py.rstrip_slash s <> (t ++ "/")%string)
  /\ Py.rstrip_slash (s ++ "/") = Py.rstrip_slash s
  /\ Py.rstrip_slash (Py.rstrip_slash s) = Py.rstrip_slash s
  /\ (Py.rstrip_slash s = ""%string <-> exists n, s = slashes n).
Proof.
  assert (Hdecomp : forall u, exists n,
             u = (Py.rstrip_slash u ++ slashes n)%string).
  { induction u as [| c u [n IH]]; [exists 0%nat; reflexivity |].
    simpl. destruct (Py.rstrip_slash u) as [| a r] eqn:E.
    - simpl in IH. destruct (Ascii.eqb c "/") eqn:C.
      + apply Ascii.eqb_eq in C. subst c. exists (S n). simpl. now rewrite <- IH.
      + exists n. simpl. now rewrite <- IH.
    - exists n. simpl. simpl in IH. now rewrite <- IH. }
  assert (Hend : forall u t, Py.rstrip_slash u <> (t ++ "/")%string).
  { induction u as [| c u IH]; intros t.
    - simpl. destruct t; discriminate.
    - simpl. destruct (Py.rstrip_slash u) as [| a r] eqn:E.
      + destruct (Ascii.eqb c "/") eqn:C.
        * destruct t; discriminate.
        * destruct t as [| b t]; simpl.
          -- intros [= ->]. discriminate.
          -- intros [= -> H]. destruct t; discriminate.
      + destruct t as [| b t]; simpl.
        * discriminate.
        * intros [= -> H]. exact (IH t H). }
  assert (Hsnoc : forall u, Py.rstrip_slash (u ++ "/") = Py.rstrip_slash u).
  { induction u as [| c u IH]; [reflexivity |].
    simpl. rewrite IH. reflexivity. }
  assert (Hslashes : forall n, Py.rstrip_slash (slashes n) = ""%string).
  { induction n as [| n IH]; [reflexivity |]. simpl. now rewrite IH. }
  assert (Happ : forall n u,
             Py.rstrip_slash (u ++ slashes n) = Py.rstrip_slash u).
  { induction n as [| n IH]; intros u.
    - simpl. f_equal.
      induction u as [| c u IHu]; [reflexivity | simpl; now rewrite IHu].
    - replace (u ++ slashes (S n))%string
        with ((u ++ "/") ++ slashes n)%string.
      + rewrite IH. apply Hsnoc.
      + simpl. induction u as [| c u IHu]; [reflexivity |].
        simpl. now rewrite IHu. }
  split; [apply Hdecomp |]. split; [apply Hend |]. split; [apply Hsnoc |].
  split.
  - destruct (Hdecomp s) as [n Hn].
    pose proof (Happ n (Py.rstrip_slash s)) as H. rewrite <- Hn in H.
    symmetry. exact H.
  - split.
    + intros E. destruct (Hdecomp s) as [n Hn]. rewrite E in Hn.
      exists n. exact Hn.
    + intros [n ->]. apply Hslashes.
Qed.

(** ** Runs as sequences of clock readings and requests *)

Section Steps.
Variable e : env.
Variable R : world -> world -> Prop.
Hypothesis R_refl : forall w, R w w.
Hypothesis R_trans : forall a b c, R a b -> R b c -> R a c.
Hypothesis R_tick : forall w, R w (tick w).
Hypothesis R_push : forall w o b, shaped e o -> R w (push o b w).

Let steps {A : Type} (m : M A) : Prop := forall w, R w (snd (m w)).

Lemma steps_ret (A : Type) (a : A) : steps (ret a).
Proof. intros w. apply R_refl. Qed.

Lemma steps_lift (A : Type) (o : outcome A) : steps (lift o).
Proof. intros w. apply R_refl. Qed.

Lemma steps_bind (A B : Type) (m : M A) (k : A -> M B) :
  steps m -> (forall a, steps (k a)) -> steps (bind m k).
Proof.
  intros Hm Hk w. unfold bind. specialize (Hm w).
  destruct (m w) as [[a | msg] w']; simpl in *.
  - apply (R_trans _ w'); [exact Hm | apply Hk].
  - exact Hm.
Qed.

Lemma steps_http (o : operation) : shaped e o -> steps (http e o).
Proof.
  intros Ho w. unfold http.
  destruct (response e (List.length (requests w))); apply (R_push w o _ Ho).
Qed.

Lemma steps_log_stage (t0 : Z) (stage : string) (status : run_status)
    (processed : Z) (metrics : list (string * metric))
    (error : option string) :
  (forall finished,
      audit_shape e (audit_record e t0 finished stage status processed
                                  metrics error)) ->
  steps (log_stage e t0 stage status processed metrics error).
Proof.
  intros Hs w. unfold log_stage, bind, now, read_clock, insert_audit, http.
  cbn [ticks requests].
  assert (Ho : shaped e (InsertAudit
                 [audit_record e t0 (clock e (ticks w)) stage status processed
                               metrics error])).
  { simpl. eexists. split; [reflexivity | apply Hs]. }
  apply (R_trans _ (tick w)); [apply R_tick |].
  destruct (response e (List.length (requests w)));
    apply (R_push (tick w) _ _ Ho).
Qed.

Lemma success_shape (finished : Z) (stage : string) (processed : Z)
    (metrics : list (string * metric)) :
  In stage stage_names ->
  audit_shape e (audit_record e (clock e 0) finished stage SUCCESS processed
                              metrics None).
Proof.
  intros Hin. unfold audit_shape. simpl.
  repeat split; try reflexivity; try exact Hin; discriminate.
Qed.

Lemma failed_shape (finished : Z) (err : string) :
  audit_shape e (audit_record e (clock e 0) finished "pipeline" FAILED 0 []
                              (Some err)).
Proof.
  unfold audit_shape. simpl.
  repeat split; try reflexivity; try discriminate. left. reflexivity.
Qed.

Lemma snapshot_rows_shape (prev : list Prior.row) (df : list profile) :
  Forall (snapshot_shape e)
         (snapshot_rows (today e) prev (model_version e) (run_id e) df).
Proof.
  unfold snapshot_rows. apply Forall_map. apply Forall_forall.
  intros g _. unfold snapshot_shape. simpl. repeat split; reflexivity.
Qed.

Lemma steps_select_snapshots :
  steps (select_snapshots e (prev_date (today e))).
Proof.
  unfold select_snapshots. apply steps_bind; [| intros; apply steps_ret].
  apply steps_http. reflexivity.
Qed.

Lemma steps_upsert_profiles (rows : list (string * Q)) :
  rows = map (fun x => (id x,
                        risk_row (transport_dtype (vulnerability_profiles e))
                                 x))
             (vulnerability_profiles e) ->
  steps (upsert_profiles e rows).
Proof.
  intros H. unfold upsert_profiles. destruct rows; [apply steps_ret |].
  apply steps_http. exact H.
Qed.

Lemma steps_upsert_snapshots (rows : list Snapshot.row) :
  Forall (snapshot_shape e) rows -> steps (upsert_snapshots e rows).
Proof.
  intros H. unfold upsert_snapshots. destruct rows; [apply steps_ret |].
  apply steps_http. split; [discriminate | exact H].
Qed.

Lemma steps_process :
  steps (process e (clock e 0) (vulnerability_profiles e)).
Proof.
  unfold process. destruct (vulnerability_profiles e) as [| r rs] eqn:E.
  - apply steps_bind; [| intros; apply steps_ret].
    apply steps_log_stage. intros. apply success_shape. simpl. tauto.
  - cbv zeta. rewrite rescored_updates.
    repeat first
      [ apply steps_ret
      | apply steps_lift
      | apply steps_log_stage; intros; apply success_shape; simpl; tauto
      | apply steps_select_snapshots
      | apply steps_upsert_snapshots; apply snapshot_rows_shape
      | apply steps_upsert_profiles; rewrite E; reflexivity
      | apply steps_bind; [| intros ? ] ].
Qed.

Lemma steps_run : R initial_world (snd (run e)).
Proof.
  unfold run.
  destruct (_ || _)%bool; [apply R_refl |].
  unfold read_clock. cbn [ticks requests initial_world].
  change {| ticks := 1; requests := [] |} with (tick initial_world).
  apply (R_trans _ (tick initial_world)); [apply R_tick |].
  assert (Hp : R (tick initial_world)
                 (snd (pipeline e (clock e 0) (tick initial_world)))).
  { unfold pipeline, select_profiles, bind, http, ret.
    destruct (response e _).
    - apply (R_push _ SelectProfiles false I).
    - apply (R_trans _ (push SelectProfiles true (tick initial_world)));
        [apply (R_push _ SelectProfiles true I) | apply steps_process]. }
  destruct (pipeline e (clock e 0) (tick initial_world)) as [[s | err] w'].
  - exact Hp.
  - simpl in Hp. apply (R_trans _ w'); [exact Hp |].
    pose proof (steps_log_stage (clock e 0) "pipeline" FAILED 0 []
                  (Some err) (fun f => failed_shape f err) w') as Hl.
    destruct (log_stage e (clock e 0) "pipeline" FAILED 0 [] (Some err) w').
    exact Hl.
Qed.

End Steps.

Lemma run_requests_shaped (e : env) :
  Forall (fun rq => shaped e (op rq)) (requests (snd (run e))).
Proof.
  apply (steps_run e
           (fun w w' => Forall (fun rq => shaped e (op rq)) (requests w) ->
                        Forall (fun rq => shaped e (op rq)) (requests w'))).
  - intros w H. exact H.
  - intros a b c Hab Hbc H. apply Hbc, Hab, H.
  - intros w H. exact H.
  - intros w o b Ho H. simpl. apply Forall_app. split; [exact H |].
    constructor; [exact Ho | constructor].
  - constructor.
Qed.

Lemma run_requests_extend (e : env) (w : world) :
  exists l,
    requests (snd (process e (clock e 0) (vulnerability_profiles e) w))
    = requests w ++ l.
Proof.
  apply (steps_process e
           (fun w w' => exists l, requests w' = requests w ++ l)).
  - intros x. exists []. now rewrite app_nil_r.
  - intros a b c [l1 H1] [l2 H2]. exists (l1 ++ l2).
    now rewrite H2, H1, app_assoc.
  - intros x. exists []. simpl. now rewrite app_nil_r.
  - intros x o b _. eexists. reflexivity.
Qed.

Lemma shaped_audit_attempts (e : env) (l : list request) :
  Forall (fun rq => shaped e (op rq)) l ->
  Forall (audit_shape e) (flat_map audit_rows l).
Proof.
  induction 1 as [| rq l Hrq _ IH]; simpl; [constructor |].
  apply Forall_app. split; [| exact IH].
  unfold audit_rows. destruct (op rq); try constructor.
  destruct Hrq as [r [-> Hr]]. constructor; [exact Hr | constructor].
Qed.

Lemma shaped_snapshot_upserts (e : env) (l : list request) :
  Forall (fun rq => shaped e (op rq)) l ->
  Forall (snapshot_shape e)
         (flat_map (fun rq => match op rq with
                              | UpsertSnapshots rows => rows
                              | _ => []
                              end)
                   (filter accepted l)).
Proof.
  induction 1 as [| rq l Hrq _ IH]; simpl; [constructor |].
  destruct (accepted rq); [| exact IH]. simpl.
  apply Forall_app. split; [| exact IH].
  destruct (op rq); try constructor. apply Hrq.
Qed.

(** X4: every audit record a run tries to write carries the run's id, the
    model name and version, the run's start timestamp, the same list of
    eight features and the same initiator; a SUCCESS record has no error
    message; a FAILED record belongs to the stage "pipeline", counts no
    processed record, has no metric and has an error message. *)
Theorem audit_records_share_run_fields (e : env) :
  Forall (audit_shape e) (audit_attempts (snd (run e)))
  /\ Forall (fun r => List.length (Audit.feature_set r) = 8%nat)
            (audit_attempts (snd (run e))).
Proof.
  assert (H : Forall (audit_shape e) (audit_attempts (snd (run e)))).
  { apply shaped_audit_attempts. apply run_requests_shaped. }
  split; [exact H |].
  eapply Forall_impl; [| exact H]. simpl.
  intros r (_ & _ & _ & _ & Hf & _). rewrite Hf. reflexivity.
Qed.

(** X5: every snapshot row a run sends carries the run's id and model
    version, the date of the run and a 30-day window, a risk_growth_pct equal
    to its drift_value and the drift_status that classifies that value; the
    list sent is never empty; and the run id and model version of the rows
    are those of every audit record of the run. *)
Theorem snapshot_rows_share_run_fields (e : env) :
  Forall (fun rq => forall rows, op rq = UpsertSnapshots rows ->
                                 rows <> [] /\ Forall (snapshot_shape e) rows)
         (requests (snd (run e)))
  /\ Forall (snapshot_shape e) (snapshot_upserts (snd (run e)))
  /\ (forall s a, In s (snapshot_upserts (snd (run e))) ->
                  In a (audit_attempts (snd (run e))) ->
                  Snapshot.pipeline_run_id s = Audit.run_id a
                  /\ Snapshot.model_version s = Audit.model_version a).
Proof.
  pose proof (run_requests_shaped e) as Hs.
  assert (H1 : Forall (fun rq => forall rows, op rq = UpsertSnapshots rows ->
                         rows <> [] /\ Forall (snapshot_shape e) rows)
                      (requests (snd (run e)))).
  { eapply Forall_impl; [| exact Hs]. simpl. intros rq Hrq rows E.
    rewrite E in Hrq. exact Hrq. }
  assert (H2 : Forall (snapshot_shape e) (snapshot_upserts (snd (run e)))).
  { apply shaped_snapshot_upserts. exact Hs. }
  assert (H3 : Forall (audit_shape e) (audit_attempts (snd (run e)))).
  { apply shaped_audit_attempts. exact Hs. }
  split; [exact H1 |]. split; [exact H2 |].
  intros s a Hin Ha.
  rewrite Forall_forall in H2, H3.
  destruct (H2 s Hin) as (S1 & S2 & _).
  destruct (H3 a Ha) as (A1 & _ & A3 & _).
  split; congruence.
Qed.

(** X6: every score update a run sends holds exactly one pair per loaded
    profile, in the order of the load: the profile's id with its recomputed
    score. *)
Theorem score_updates_cover_population (e : env) :
  Forall (fun rq => forall rows, op rq = UpsertProfiles rows ->
            rows = map (fun x =>
                          (id x,
                           risk_row
                             (transport_dtype (vulnerability_profiles e)) x))
                       (vulnerability_profiles e)
            /\ map fst rows = map id (vulnerability_profiles e)
            /\ map snd rows = calculate_risk (vulnerability_profiles e))
         (requests (snd (run e))).
Proof.
  eapply Forall_impl; [| exact (run_requests_shaped e)]. simpl.
  intros rq Hrq rows E. rewrite E in Hrq. simpl in Hrq. subst rows.
  split; [reflexivity |]. unfold calculate_risk. rewrite !map_map.
  split; reflexivity.
Qed.

(** ** Configuration and exit status *)

Lemma process_returns_zero (e : env) (t0 : Z) (records : list entity)
    (w w' : world) (s : Z) :
  process e t0 records w = (Return s, w') -> s = 0.
Proof.
  set (zero := fun m : M Z =>
                 forall w s w', m w = (Return s, w') -> s = 0).
  assert (Hb : forall (A : Type) (m : M A) (k : A -> M Z),
             (forall a, zero (k a)) -> zero (bind m k)).
  { intros A m k Hk x sx x' H. unfold bind in H.
    destruct (m x) as [[a | msg] x1]; [| discriminate].
    exact (Hk a x1 sx x' H). }
  assert (Hr : zero (ret 0)).
  { intros x sx x' H. unfold ret in H. congruence. }
  assert (Hz : zero (process e t0 records)).
  { unfold process. destruct records as [| r rs].
    - apply Hb. intros _. exact Hr.
    - cbv zeta. repeat (apply Hb; intros ?). exact Hr. }
  apply Hz.
Qed.

Lemma pipeline_returns_zero (e : env) (t0 : Z) (w w' : world) (s : Z) :
  pipeline e t0 w = (Return s, w') -> s = 0.
Proof.
  unfold pipeline. unfold bind at 1.
  destruct (select_profiles e w) as [[records | msg] w1]; [| discriminate].
  apply process_returns_zero.
Qed.

(** X1: without a URL (once its trailing slashes are stripped) or without a
    key, the run returns 1 having read no clock and issued no request, so no
    audit record either; with both, the first request of the run is the load
    of the profiles. *)
Theorem configuration_gate (e : env) :
  (~ configured e -> run e = (1, initial_world))
  /\ (configured e ->
      exists rest,
        requests (snd (run e))
        = {| op := SelectProfiles;
             accepted := match response e 0%nat with
                         | None => true
                         | Some _ => false
                         end |} :: rest)
  /\ ((exists n, SUPABASE_URL e = slashes n) -> run e = (1, initial_world)).
Proof.
  assert (Hun : ~ configured e -> run e = (1, initial_world)).
  { intros H. unfold run.
    destruct (String.eqb (Py.rstrip_slash (SUPABASE_URL e)) "") eqn:Eu;
      [reflexivity |].
    destruct (String.eqb (SUPABASE_SERVICE_ROLE_KEY e) "") eqn:Ek;
      [reflexivity |].
    exfalso. apply H. split; apply String.eqb_neq; assumption. }
  split; [exact Hun |]. split.
  - intros Hc. rewrite (run_configured e Hc).
    unfold pipeline, select_profiles, bind, http, ret.
    cbn [requests started_world List.length app].
    destruct (response e 0%nat) as [msg |].
    + rewrite log_failed_world. cbn [snd requests app]. eexists. reflexivity.
    + destruct (run_requests_extend e
                  {| ticks := ticks started_world;
                     requests := [{| op := SelectProfiles;
                                     accepted := true |}] |}) as [l Hl].
      destruct (process e (clock e 0) (vulnerability_profiles e) _)
        as [[s | err] w'].
      * exists l. exact Hl.
      * rewrite log_failed_world. cbn [snd requests] in *. rewrite Hl.
        simpl. eexists. reflexivity.
  - intros [n Hn]. apply Hun. intros [Hu _]. apply Hu.
    rewrite Hn. clear. induction n as [| n IH]; [reflexivity |].
    simpl. now rewrite IH.
Qed.

(** X2: the exit status is 0 or 1, and it is 0 exactly when the run was
    configured and no audit record it tried to write reports FAILED; a run
    that returns 0 had none of its requests refused. *)
Theorem exit_status_meaning (e : env) :
  (fst (run e) = 0 \/ fst (run e) = 1)
  /\ (fst (run e) = 0 <-> configured e /\ only_success (snd (run e)))
  /\ (fst (run e) = 0 -> all_accepted (snd (run e))).
Proof.
  destruct (String.eqb (Py.rstrip_slash (SUPABASE_URL e)) "") eqn:Eu;
    [| destruct (String.eqb (SUPABASE_SERVICE_ROLE_KEY e) "") eqn:Ek].
  - assert (Hr : run e = (1, initial_world)) by (unfold run; now rewrite Eu).
    rewrite Hr. simpl. split; [right; reflexivity |]. split.
    + split; [discriminate |]. intros [[Hu _] _]. exfalso. apply Hu.
      apply String.eqb_eq. exact Eu.
    + discriminate.
  - assert (Hr : run e = (1, initial_world))
      by (unfold run; rewrite Eu, Ek; reflexivity).
    rewrite Hr. simpl. split; [right; reflexivity |]. split.
    + split; [discriminate |]. intros [[_ Hk] _]. exfalso. apply Hk.
      apply String.eqb_eq. exact Ek.
    + discriminate.
  - assert (Hc : configured e) by (split; apply String.eqb_neq; assumption).
    rewrite (run_configured e Hc).
    destruct (started_world_steady e) as [Hs Ha].
    pose proof (keeps_pipeline e (clock e 0) started_world Hs Ha) as Hk.
    destruct (pipeline e (clock e 0) started_world) as [[s | err] w'] eqn:Ep.
    + apply pipeline_returns_zero in Ep. subst s. simpl.
      destruct Hk as [[_ Ho] Hacc].
      split; [left; reflexivity |]. split; [| intros _; exact Hacc].
      split; [intros _; split; assumption | reflexivity].
    + rewrite log_failed_world. simpl.
      split; [right; reflexivity |]. split; [| discriminate].
      split; [discriminate |]. intros [_ Ho]. exfalso.
      unfold only_success, audit_attempts in Ho. cbn [requests] in Ho.
      rewrite audit_attempts_snoc in Ho. apply Forall_app in Ho.
      destruct Ho as [_ Ho]. inversion Ho as [| ? ? Hst _]. discriminate.
Qed.

(** ** A run that meets no refusal *)


(** X3: when the store accepts every request and the three models answer, a
    run over a non-empty population returns 0 after exactly ten requests, in
    this order: the load, the score upsert, the audit records of risk_score,
    kmeans, dbscan and isolation_forest, the select of prior snapshots, the
    snapshot upsert, the audit records of drift and pipeline; the six audit
    records report SUCCESS, each stamped by its own clock reading. *)
Theorem accepted_run_trace (e : env) (r : entity) (rs : list entity)
    (km db iso : list Z) :
  configured e ->
  vulnerability_profiles e = r :: rs ->
  (forall i, response e i = None) ->
  let df := rescore (r :: rs) in
  let n := Z.of_nat (List.length df) in
  KMeans_fit_predict e (kmeans_k n) (scaled_features df) = Return km ->
  DBSCAN_fit_predict e dbscan_eps (dbscan_min_samples n) (scaled_features df)
  = Return db ->
  IsolationForest_fit_predict e iso_contamination (scaled_features df)
  = Return iso ->
  let rows :=
    snapshot_rows (today e)
      (select_by_date (region_snapshots e) (today e - 30))
      (model_version e) (run_id e) (attach df km db iso) in
  let w := snd (run e) in
  fst (run e) = 0
  /\ ticks w = 7%nat
  /\ all_accepted w
  /\ (exists a1 a2 a3 a4 a5 a6,
        map op (requests w)
        = [ SelectProfiles;
            UpsertProfiles
              (map (fun x => (id x, risk_row (transport_dtype (r :: rs)) x))
                   (r :: rs));
            InsertAudit [a1]; InsertAudit [a2]; InsertAudit [a3];
            InsertAudit [a4];
            SelectSnapshots (today e - 30);
            UpsertSnapshots rows;
            InsertAudit [a5]; InsertAudit [a6] ]
        /\ audit_log w = [a1; a2; a3; a4; a5; a6])
  /\ map (fun a => (Audit.stage a, Audit.status a, Audit.processed_records a,
                    Audit.finished_at a))
         (audit_log w)
     = [ ("risk_score"%string, SUCCESS, n, clock e 1);
         ("kmeans"%string, SUCCESS, n, clock e 2);
         ("dbscan"%string, SUCCESS, n, clock e 3);
         ("isolation_forest"%string, SUCCESS, n, clock e 4);
         ("drift"%string, SUCCESS, Z.of_nat (List.length rows), clock e 5);
         ("pipeline"%string, SUCCESS, n, clock e 6) ]
  /\ profile_upserts w
     = map (fun x => (id x, risk_row (transport_dtype (r :: rs)) x)) (r :: rs)
  /\ snapshot_upserts w = rows.
Proof.
  intros Hc Hp Hacc df n Hkm Hdb Hiso rows w.
  assert (Hrows : rows <> []).
  { apply snapshot_rows_nonempty. unfold df. simpl. discriminate. }
  assert (Hrun : exists a1 a2 a3 a4 a5 a6,
    map (fun a => (Audit.stage a, Audit.status a, Audit.processed_records a,
                   Audit.finished_at a)) [a1; a2; a3; a4; a5; a6]
    = [ ("risk_score"%string, SUCCESS, n, clock e 1);
        ("kmeans"%string, SUCCESS, n, clock e 2);
        ("dbscan"%string, SUCCESS, n, clock e 3);
        ("isolation_forest"%string, SUCCESS, n, clock e 4);
        ("drift"%string, SUCCESS, Z.of_nat (List.length rows), clock e 5);
        ("pipeline"%string, SUCCESS, n, clock e 6) ]
    /\ run e
       = (0, {| ticks := 7;
                requests :=
                  map (fun o => {| op := o; accepted := true |})
                    [ SelectProfiles;
                      UpsertProfiles
                        (map (fun x => (id x,
                                        risk_row (transport_dtype (r :: rs))
                                                 x))
                             (r :: rs));
                      InsertAudit [a1]; InsertAudit [a2]; InsertAudit [a3];
                      InsertAudit [a4];
                      SelectSnapshots (today e - 30);
                      UpsertSnapshots rows;
                      InsertAudit [a5]; InsertAudit [a6] ] |})).
  { do 6 eexists. split; [| rewrite (run_configured e Hc)].
    2:{ unfold pipeline, select_profiles. unfold bind at 1 2.
        rewrite (http_accepted e Hacc). unfold ret at 1. rewrite Hp.
        unfold process. cbv zeta. rewrite rescored_updates. fold df. fold n.
        unfold bind at 1. unfold upsert_profiles. cbn [map].
        rewrite (http_accepted e Hacc).
        unfold bind at 1. rewrite (log_stage_accepted e Hacc).
        unfold bind at 1. rewrite Hkm. unfold lift at 1.
        unfold bind at 1. rewrite (log_stage_accepted e Hacc).
        unfold bind at 1. rewrite Hdb. unfold lift at 1.
        unfold bind at 1. rewrite (log_stage_accepted e Hacc).
        unfold bind at 1. rewrite Hiso. unfold lift at 1.
        unfold bind at 1. rewrite (log_stage_accepted e Hacc).
        unfold bind at 1. unfold select_snapshots. unfold bind at 1.
        rewrite (http_accepted e Hacc). unfold ret at 1.
        unfold prev_date. fold rows.
        unfold bind at 1.
        rewrite (upsert_snapshots_accepted e Hacc rows _ Hrows).
        unfold bind at 1. rewrite (log_stage_accepted e Hacc).
        unfold bind at 1. rewrite (log_stage_accepted e Hacc).
        unfold ret. unfold push, tick, started_world.
        cbn [ticks requests app map]. reflexivity. }
    reflexivity. }
  destruct Hrun as (a1 & a2 & a3 & a4 & a5 & a6 & Hst & Hrun).
  unfold w. rewrite Hrun. cbn [fst snd ticks].
  split; [reflexivity |]. split; [reflexivity |].
  split; [unfold all_accepted; cbn [requests map]; repeat constructor |].
  split; [exists a1, a2, a3, a4, a5, a6; split; reflexivity |].
  split; [exact Hst |].
  split; [unfold profile_upserts | unfold snapshot_upserts];
    cbn [requests map filter accepted flat_map op app];
    rewrite ?app_nil_r; reflexivity.
Qed.

(** The busy store: one profile, every request accepted. *)
Lemma accepted_run_trace_busy :
  configured busy_env
  /\ vulnerability_profiles busy_env = [insulin_household_of_two]
  /\ (forall i, response busy_env i = None)
  /\ fst (run busy_env) = 0
  /\ ticks (snd (run busy_env)) = 7%nat
  /\ all_accepted (snd (run busy_env)).
Proof.
  assert (Hc : configured busy_env) by (split; discriminate).
  assert (Ha : forall i, response busy_env i = None) by reflexivity.
  destruct (accepted_run_trace busy_env insulin_household_of_two []
              (map (fun _ => 0)
                   (scaled_features (rescore [insulin_household_of_two])))
              (map (fun _ => 0)
                   (scaled_features (rescore [insulin_household_of_two])))
              (map (fun _ => 1)
                   (scaled_features (rescore [insulin_household_of_two])))
              Hc eq_refl Ha eq_refl eq_refl eq_refl)
    as (H0 & Ht & Hall & _).
  split; [exact Hc |]. split; [reflexivity |]. split; [exact Ha |].
  split; [exact H0 |]. split; [exact Ht | exact Hall].
Defined.

(** ** Region groups, continued *)

Lemma string_lt_trans (a b c : string) :
  String.compare a b = Lt -> String.compare b c = Lt ->
  String.compare a c = Lt.
Proof.
  intros H1 H2.
  apply (proj2 (OrderedTypeEx.String_as_OT.cmp_lt a c)).
  apply (OrderedTypeEx.String_as_OT.lt_trans a b c).
  - apply (proj1 (OrderedTypeEx.String_as_OT.cmp_lt a b)). exact H1.
  - apply (proj1 (OrderedTypeEx.String_as_OT.cmp_lt b c)). exact H2.
Qed.

Lemma label_lt_trans (a b c : option string) :
  label_compare a b = Lt -> label_compare b c = Lt -> label_compare a c = Lt.
Proof.
  destruct a as [a |], b as [b |], c as [c |]; simpl;
    try discriminate; try reflexivity.
  apply string_lt_trans.
Qed.

Lemma label_compare_antisym (a b : option string) :
  label_compare a b = CompOpp (label_compare b a).
Proof.
  destruct a, b; simpl; try reflexivity. apply String.compare_antisym.
Qed.

Lemma key_lt_cases (a b : group_key) :
  key_lt a b
  <-> label_compare (fst (fst a)) (fst (fst b)) = Lt
      \/ (fst (fst a) = fst (fst b)
          /\ (label_compare (snd (fst a)) (snd (fst b)) = Lt
              \/ (snd (fst a) = snd (fst b)
                  /\ label_compare (snd a) (snd b) = Lt))).
Proof.
  destruct a as [[a1 a2] a3], b as [[b1 b2] b3]. unfold key_lt. simpl.
  destruct (label_compare a1 b1) eqn:E1;
    [destruct (label_compare a2 b2) eqn:E2 | |];
    try (apply label_compare_eq in E1; subst b1);
    try (apply label_compare_eq in E2; subst b2);
    split; intros H;
    repeat match goal with
           | H : _ \/ _ |- _ => destruct H
           | H : _ /\ _ |- _ => destruct H
           end;
    subst; try rewrite label_compare_refl in *; try discriminate;
    try reflexivity; try assumption; try congruence; tauto.
Qed.

Lemma key_lt_trans (a b c : group_key) : key_lt a b -> key_lt b c -> key_lt a c.
Proof.
  rewrite !key_lt_cases.
  intros [H1 | [E1 [H1 | [F1 H1]]]] [H2 | [E2 [H2 | [F2 H2]]]].
  - left. eapply label_lt_trans; eassumption.
  - left. rewrite <- E2. exact H1.
  - left. rewrite <- E2. exact H1.
  - left. rewrite E1. exact H2.
  - right. split; [congruence |]. left. eapply label_lt_trans; eassumption.
  - right. split; [congruence |]. left. rewrite <- F2. exact H1.
  - left. rewrite E1. exact H2.
  - right. split; [congruence |]. left. rewrite F1. exact H2.
  - right. split; [congruence |]. right. split; [congruence |].
    eapply label_lt_trans; eassumption.
Qed.

Lemma key_lt_irrefl (a : group_key) : ~ key_lt a a.
Proof. unfold key_lt. rewrite key_compare_refl. discriminate. Qed.

Lemma key_compare_gt (a b : group_key) :
  key_compare a b = Gt -> key_lt b a.
Proof.
  destruct a as [[a1 a2] a3], b as [[b1 b2] b3]. unfold key_lt. simpl.
  rewrite (label_compare_antisym b1 a1), (label_compare_antisym b2 a2),
    (label_compare_antisym b3 a3).
  destruct (label_compare a1 b1); simpl; try discriminate; try reflexivity.
  destruct (label_compare a2 b2); simpl; try discriminate; try reflexivity.
  destruct (label_compare a3 b3); simpl; try discriminate; reflexivity.
Qed.

Lemma insert_key_In (k x : group_key) (l : list group_key) :
  In x (insert_key k l) -> x = k \/ In x l.
Proof.
  induction l as [| h t IH]; simpl.
  - intros [H | []]. left. symmetry. exact H.
  - destruct (key_compare k h).
    + intros H. right. exact H.
    + intros [H | H]; [left; symmetry; exact H | right; exact H].
    + intros [H | H]; [right; left; exact H |].
      destruct (IH H) as [E | E]; [left; exact E | right; right; exact E].
Qed.

Lemma insert_key_sorted (k : group_key) (l : list group_key) :
  StronglySorted key_lt l -> StronglySorted key_lt (insert_key k l).
Proof.
  induction 1 as [| h t Hs IH Hh]; simpl.
  - constructor; constructor.
  - destruct (key_compare k h) eqn:E.
    + constructor; assumption.
    + constructor; [constructor; assumption |].
      constructor; [exact E |].
      eapply Forall_impl; [| exact Hh]. simpl. intros x Hx.
      eapply key_lt_trans; [exact E | exact Hx].
    + constructor; [exact IH |].
      apply Forall_forall. intros x Hx. apply insert_key_In in Hx.
      destruct Hx as [-> | Hx].
      * apply key_compare_gt. exact E.
      * rewrite Forall_forall in Hh. apply Hh. exact Hx.
Qed.

Lemma group_keys_sorted (df : list profile) :
  StronglySorted key_lt (group_keys df).
Proof.
  unfold group_keys. induction df as [| r df IH]; simpl.
  - constructor.
  - apply insert_key_sorted. exact IH.
Qed.

Lemma sorted_NoDup (l : list group_key) :
  StronglySorted key_lt l -> NoDup l.
Proof.
  induction 1 as [| h t Hs IH Hh]; constructor; [| exact IH].
  intros Hin. rewrite Forall_forall in Hh.
  exact (key_lt_irrefl h (Hh h Hin)).
Qed.

Lemma group_keys_sound (df : list profile) (k : group_key) :
  In k (group_keys df) -> exists r, In r df /\ key_of r = k.
Proof.
  unfold group_keys. induction df as [| x df IH]; simpl; [intros [] |].
  intros H. apply insert_key_In in H. destruct H as [-> | H].
  - exists x. split; [left |]; reflexivity.
  - destruct (IH H) as [r [Hr Hk]]. exists r. split; [right; exact Hr | exact Hk].
Qed.

Lemma insert_key_length (k : group_key) (l : list group_key) :
  (List.length (insert_key k l) <= S (List.length l))%nat.
Proof.
  induction l as [| h t IH]; simpl; [lia |].
  destruct (key_compare k h); simpl; lia.
Qed.

Lemma group_keys_length (df : list profile) :
  (List.length (group_keys df) <= List.length df)%nat.
Proof.
  unfold group_keys. induction df as [| r df IH]; simpl; [lia |].
  pose proof (insert_key_length (key_of r) (fold_right insert_key []
                                              (map key_of df))). lia.
Qed.

Lemma key_eqb_eq (a b : group_key) : key_eqb a b = true <-> a = b.
Proof.
  unfold key_eqb. split.
  - destruct (key_compare a b) eqn:E; try discriminate.
    intros _. apply key_compare_eq. exact E.
  - intros ->. now rewrite key_compare_refl.
Qed.

Lemma count_one (x : group_key) (keys : list group_key) :
  NoDup keys -> In x keys ->
  list_sum (map (fun k => if key_eqb x k then 1%nat else 0%nat) keys) = 1%nat.
Proof.
  induction 1 as [| h t Hh Hn IH]; [intros [] |].
  intros [-> | Hin]; simpl.
  - rewrite (proj2 (key_eqb_eq x x) eq_refl).
    assert (Z0 : list_sum (map (fun k => if key_eqb x k then 1%nat else 0%nat)
                               t) = 0%nat).
    { clear IH Hn. induction t as [| y t IHt]; [reflexivity |].
      simpl. destruct (key_eqb x y) eqn:E.
      - apply key_eqb_eq in E. subst y. exfalso. apply Hh. left. reflexivity.
      - apply IHt. intros H. apply Hh. right. exact H. }
    rewrite Z0. reflexivity.
  - destruct (key_eqb x h) eqn:E.
    + apply key_eqb_eq in E. subst h. contradiction.
    + simpl. apply IH. exact Hin.
Qed.

Lemma members_count (keys : list group_key) (df : list profile) :
  NoDup keys -> (forall r, In r df -> In (key_of r) keys) ->
  list_sum (map (fun k => List.length (members k df)) keys) = List.length df.
Proof.
  intros Hn. induction df as [| r df IH]; intros Hcover.
  - simpl. clear. induction keys as [| k keys IHk]; [reflexivity |].
    simpl. exact IHk.
  - assert (Hone : forall k,
      List.length (members k (r :: df))
      = ((if key_eqb (key_of r) k then 1 else 0)
         + List.length (members k df))%nat).
    { intros k. unfold members. simpl.
      destruct (key_eqb (key_of r) k); reflexivity. }
    assert (Hsplit : forall l,
      list_sum (map (fun k => List.length (members k (r :: df))) l)
      = (list_sum (map (fun k => if key_eqb (key_of r) k then 1 else 0) l)
         + list_sum (map (fun k => List.length (members k df)) l))%nat).
    { induction l as [| k l IHl]; [reflexivity |].
      rewrite !map_cons.
      change (list_sum (?a :: ?t)) with (a + list_sum t)%nat.
      rewrite IHl, Hone. simpl. lia. }
    rewrite Hsplit, count_one, IH; simpl.
    + reflexivity.
    + intros x Hx. apply Hcover. right. exact Hx.
    + exact Hn.
    + apply Hcover. left. reflexivity.
Qed.

Lemma members_filter (p : profile -> bool) (k : group_key)
    (df : list profile) :
  filter p (members k df) = members k (filter p df).
Proof.
  unfold members. induction df as [| r df IH]; [reflexivity |].
  simpl. destruct (key_eqb (key_of r) k) eqn:E; destruct (p r) eqn:P; simpl;
    rewrite ?E, ?P, IH; reflexivity.
Qed.

Lemma zsum_of_nat (f : group_key -> nat) (l : list group_key) :
  zsum (map (fun k => Z.of_nat (f k)) l) = Z.of_nat (list_sum (map f l)).
Proof.
  induction l as [| k l IH]; [reflexivity |].
  rewrite !map_cons.
  change (zsum (?a :: ?t)) with (a + zsum t).
  change (list_sum (?a :: ?t)) with (a + list_sum t)%nat.
  rewrite IH. lia.
Qed.

(** X14: the groups partition the frame: the profile counts of the snapshot
    rows add up to the number of profiles, their anomaly counts add up to
    the number of flagged profiles, no row counts zero profiles, and there
    are at most as many rows as profiles. *)
Theorem groups_partition_population (today : Z) (prev : list Prior.row)
    (mv rid : string) (df : list profile) :
  let rows := snapshot_rows today prev mv rid df in
  zsum (map Snapshot.profile_count rows) = Z.of_nat (List.length df)
  /\ zsum (map Snapshot.anomaly_count rows)
     = Z.of_nat (List.length (filter is_outlier df))
  /\ Forall (fun s => 1 <= Snapshot.profile_count s) rows
  /\ (List.length rows <= List.length df)%nat
  /\ (forall records km db iso,
         df = attach records km db iso ->
         zsum (map Snapshot.profile_count rows)
         = Z.of_nat (List.length records)).
Proof.
  intros rows.
  pose proof (sorted_NoDup _ (group_keys_sorted df)) as Hnd.
  assert (Hcount : zsum (map Snapshot.profile_count rows)
                   = Z.of_nat (List.length df)).
  { unfold rows, snapshot_rows, grouped. rewrite !map_map.
    erewrite map_ext
      with (g := fun k => Z.of_nat (List.length (members k df))).
    - rewrite zsum_of_nat. f_equal. apply members_count; [exact Hnd |].
      intros r Hr. apply group_keys_complete. exact Hr.
    - intros [[c s] o]. reflexivity. }
  split; [exact Hcount |]. split.
  { unfold rows, snapshot_rows, grouped. rewrite !map_map.
    erewrite map_ext
      with (g := fun k => Z.of_nat
                            (List.length (members k (filter is_outlier df)))).
    - rewrite zsum_of_nat. f_equal. apply members_count; [exact Hnd |].
      intros r Hr. apply group_keys_complete.
      apply filter_In in Hr. apply Hr.
    - intros [[c s] o]. simpl. now rewrite members_filter. }
  split.
  { unfold rows, snapshot_rows, grouped. rewrite !Forall_map.
    apply Forall_forall. intros k Hk.
    destruct (group_keys_sound df k Hk) as [r [Hr Hkey]]. subst k.
    pose proof (members_self df r Hr) as Hm.
    destruct (key_of r) as [[c s] o] eqn:Ek. simpl.
    destruct (members (c, s, o) df); [destruct Hm | simpl; lia]. }
  split.
  { unfold rows, snapshot_rows, grouped. rewrite !length_map.
    apply group_keys_length. }
  intros records km db iso E. rewrite Hcount, E.
  rewrite <- (attach_ent records km db iso) at 2. now rewrite length_map.
Qed.

Lemma NoDup_map_injective (A B : Type) (f : A -> B) (l : list A) :
  (forall x y, In x l -> In y l -> f x = f y -> x = y) ->
  NoDup l -> NoDup (map f l).
Proof.
  intros Hinj Hn. induction Hn as [| a l Ha Hn IH]; simpl; constructor.
  - intros Hin. apply in_map_iff in Hin. destruct Hin as [y [Hy Hyl]].
    apply Ha. rewrite <- (Hinj y a); [exact Hyl | right; exact Hyl
                                     | left; reflexivity | exact Hy].
  - apply IH. intros x y Hx Hy. apply Hinj; right; assumption.
Qed.

Lemma group_label_injective (a b : option string) :
  group_label a = group_label b -> a = b.
Proof. destruct a, b; simpl; congruence. Qed.

Lemma or_val_keeps (c : option string) :
  c <> Some ""%string -> or_val (group_label c) UNKNOWN = group_label c.
Proof.
  intros H. destruct c as [s |]; [| reflexivity].
  unfold or_val. simpl. destruct (String.eqb s "") eqn:E; [| reflexivity].
  apply String.eqb_eq in E. subst s. contradiction.
Qed.

Lemma conflict_key_of_group (today : Z) (lookup : dict) (mv rid : string)
    (k : group_key) (rows : list profile) :
  conflict_key (snapshot_row today lookup mv rid (aggregate k rows))
  = (or_val (group_label (fst (fst k))) UNKNOWN,
     or_val (group_label (snd (fst k))) UNKNOWN,
     group_label (snd k)).
Proof. destruct k as [[c s] o]. reflexivity. Qed.

(** X15: when no profile has an empty string as county or state, no two
    snapshot rows of a run share their county, state and organization: the
    conflict key of the upsert names each row once. *)
Theorem conflict_keys_distinct (today : Z) (prev : list Prior.row)
    (mv rid : string) (df : list profile) :
  (forall r, In r df ->
             county_id (ent r) <> Some ""%string
             /\ state_id (ent r) <> Some ""%string) ->
  NoDup (map conflict_key (snapshot_rows today prev mv rid df)).
Proof.
  intros Hne. unfold snapshot_rows, grouped. rewrite !map_map.
  apply NoDup_map_injective.
  - intros k1 k2 H1 H2. rewrite !conflict_key_of_group.
    destruct (group_keys_sound df k1 H1) as [r1 [Hr1 E1]].
    destruct (group_keys_sound df k2 H2) as [r2 [Hr2 E2]].
    destruct (Hne r1 Hr1) as [Hc1 Hs1]. destruct (Hne r2 Hr2) as [Hc2 Hs2].
    subst k1 k2. unfold key_of. simpl.
    rewrite !or_val_keeps by assumption.
    intros [= Hc Hs Ho].
    apply group_label_injective in Hc. apply group_label_injective in Hs.
    apply group_label_injective in Ho. congruence.
  - apply sorted_NoDup. apply group_keys_sorted.
Qed.

(** Three profiles in two regions: two rows, of Travis county and of the
    region without county, under two different keys. *)
Lemma conflict_keys_distinct_two_regions :
  (forall r, In r two_region_frame ->
             county_id (ent r) <> Some ""%string
             /\ state_id (ent r) <> Some ""%string)
  /\ map conflict_key
         (snapshot_rows 20500 [] "level3-2026.02" "run-1" two_region_frame)
     = [ (PStr "Travis", PStr "TX", PStr "org-1");
         (PNaN, PStr "TX", PStr "org-1") ]
  /\ NoDup (map conflict_key
                (snapshot_rows 20500 [] "level3-2026.02" "run-1"
                               two_region_frame)).
Proof.
  assert (H : forall r, In r two_region_frame ->
                        county_id (ent r) <> Some ""%string
                        /\ state_id (ent r) <> Some ""%string).
  { intros r [<- | [<- | [<- | []]]]; split; discriminate. }
  split; [exact H |]. split; [reflexivity |].
  exact (conflict_keys_distinct 20500 [] "level3-2026.02" "run-1"
           two_region_frame H).
Defined.

(** ** Drift, continued *)

Lemma prev_lookup_zero (prev : list Prior.row) (k : lookup_key) :
  (forall p, In p prev -> (prior_avg p == 0)%Q) ->
  (dict_get (prev_lookup prev) k 0 == 0)%Q.
Proof.
  intros H. rewrite prev_lookup_get.
  destruct (last_match prev k) as [p |] eqn:E; [| reflexivity].
  apply H. apply (last_match_some prev k p E).
Qed.

Lemma snapshot_row_without_prior (today : Z) (lookup : dict)
    (mv rid : string) (g : Grouped.row) :
  (dict_get lookup
            (or_val (Grouped.county_id g) UNKNOWN,
             or_val (Grouped.state_id g) UNKNOWN) 0 == 0)%Q ->
  let s := snapshot_row today lookup mv rid g in
  Snapshot.drift_value s = 0%Q
  /\ Snapshot.risk_growth_pct s = 0%Q
  /\ Snapshot.drift_status s = STABLE
  /\ Snapshot.projection_14d s = Snapshot.avg_risk_score s.
Proof.
  intros H s.
  assert (D : Snapshot.drift_value s = 0%Q).
  { unfold s, snapshot_row. cbn [Snapshot.drift_value].
    apply drift_of_zero. exact H. }
  unfold s, snapshot_row in *.
  cbn [Snapshot.drift_value Snapshot.risk_growth_pct Snapshot.drift_status
       Snapshot.projection_14d Snapshot.avg_risk_score] in *.
  rewrite D. repeat split; try reflexivity.
  apply round4_comp. ring.
Qed.

(** X16: when the store holds no snapshot for the prior date, or only ones
    whose average is null or 0, every snapshot row has drift 0 and growth 0,
    is classed STABLE, and projects the rounded current average. *)
Theorem no_baseline_means_stable (today : Z) (prev : list Prior.row)
    (mv rid : string) (df : list profile) :
  (forall p, In p prev -> (prior_avg p == 0)%Q) ->
  Forall (fun s => Snapshot.drift_value s = 0%Q
                   /\ Snapshot.risk_growth_pct s = 0%Q
                   /\ Snapshot.drift_status s = STABLE
                   /\ Snapshot.projection_14d s = Snapshot.avg_risk_score s)
         (snapshot_rows today prev mv rid df).
Proof.
  intros H. unfold snapshot_rows. apply Forall_map. apply Forall_forall.
  intros g _. apply snapshot_row_without_prior. apply prev_lookup_zero.
  exact H.
Qed.

(** An empty store. *)
Lemma no_baseline_means_stable_empty :
  (forall p : Prior.row, In p [] -> (prior_avg p == 0)%Q)
  /\ Forall (fun s => Snapshot.drift_value s = 0%Q
                      /\ Snapshot.risk_growth_pct s = 0%Q
                      /\ Snapshot.drift_status s = STABLE
                      /\ Snapshot.projection_14d s
                         = Snapshot.avg_risk_score s)
            (snapshot_rows 20500 [] "level3-2026.02" "run-1"
                           [profile_without_county]).
Proof.
  assert (H : forall p : Prior.row, In p [] -> (prior_avg p == 0)%Q)
    by (intros p []).
  split; [exact H |].
  exact (no_baseline_means_stable 20500 [] "level3-2026.02" "run-1"
           [profile_without_county] H).
Defined.

Lemma dict_get_NaN (d : dict) (k : lookup_key) :
  fst k = PNaN \/ snd k = PNaN -> dict_get d k 0 = 0%Q.
Proof.
  intros H. induction d as [| [k' v] d IH]; [reflexivity |].
  simpl. replace (lookup_key_eqb k' k) with false; [exact IH |].
  unfold lookup_key_eqb. destruct k as [a b], k' as [a' b']. simpl in *.
  destruct H as [-> | ->].
  - destruct a'; reflexivity.
  - destruct b'; destruct (py_eqb a' a); reflexivity.
Qed.

(** X17: a group whose county or state is missing never meets a prior
    snapshot, whatever the store holds: its row has drift 0 and growth 0,
    is classed STABLE, and projects the rounded current average. *)
Theorem missing_region_has_no_baseline (today : Z) (prev : list Prior.row)
    (mv rid : string) (c s o : option string) (rows : list profile) :
  c = None \/ s = None ->
  let row := snapshot_row today (prev_lookup prev) mv rid
                          (aggregate (c, s, o) rows) in
  Snapshot.drift_value row = 0%Q
  /\ Snapshot.risk_growth_pct row = 0%Q
  /\ Snapshot.drift_status row = STABLE
  /\ Snapshot.projection_14d row = Snapshot.avg_risk_score row.
Proof.
  intros H. apply snapshot_row_without_prior.
  rewrite dict_get_NaN; [reflexivity |].
  simpl. destruct H as [-> | ->]; [left | right]; reflexivity.
Qed.

(** A prior snapshot exists for (None, TX); the group without county does
    not meet it. *)
Lemma missing_region_has_no_baseline_sample :
  (@None string = None \/ Some "TX"%string = None)
  /\ Snapshot.drift_value
       (snapshot_row 20500
          (prev_lookup [ {| Prior.county_id := None;
                            Prior.state_id := Some "TX"%string;
                            Prior.avg_risk_score := Some (1 # 1)%Q;
                            Prior.snapshot_date := 20470 |} ])
          "level3-2026.02" "run-1"
          (aggregate (None, Some "TX"%string, Some "org-1"%string)
                     [profile_without_county]))
     = 0%Q.
Proof.
  assert (H : @None string = None \/ Some "TX"%string = None)
    by (left; reflexivity).
  split; [exact H |].
  exact (proj1 (missing_region_has_no_baseline 20500
                  [ {| Prior.county_id := None;
                       Prior.state_id := Some "TX"%string;
                       Prior.avg_risk_score := Some (1 # 1)%Q;
                       Prior.snapshot_date := 20470 |} ]
                  "level3-2026.02" "run-1" None (Some "TX"%string)
                  (Some "org-1"%string) [profile_without_county] H)).
Defined.

(** ** Scoring, continued *)

(** X18: scoring ignores the stored score and is idempotent: scoring a
    rescored frame changes nothing; the first feature column of a rescored
    frame is the recomputed score, and the feature matrix has one row of
    eight numbers per profile. *)
Theorem rescore_idempotent (df : list entity) :
  rescore (rescore df) = rescore df
  /\ calculate_risk (rescore df) = calculate_risk df
  /\ map risk_score (rescore df) = map Some (calculate_risk df)
  /\ map (fun row => nth 0 row 0%Q) (prepare_features (rescore df))
     = calculate_risk df
  /\ List.length (prepare_features df) = List.length df
  /\ Forall (fun row => List.length row = 8%nat) (prepare_features df).
Proof.
  assert (Hr : forall d e r, risk_row d (set_risk_score e r) = risk_row d e)
    by reflexivity.
  pose proof (transport_dtype_rescore df) as Hd.
  split; [| split; [| split; [| split; [| split]]]].
  - unfold rescore at 1. rewrite Hd. unfold rescore. rewrite map_map.
    apply map_ext. intros e. rewrite Hr. reflexivity.
  - unfold calculate_risk. rewrite Hd. unfold rescore. rewrite map_map.
    apply map_ext. intros e. apply Hr.
  - unfold calculate_risk, rescore. rewrite !map_map. reflexivity.
  - unfold prepare_features, calculate_risk, rescore. rewrite !map_map.
    reflexivity.
  - unfold prepare_features. apply length_map.
  - unfold prepare_features. apply Forall_map. apply Forall_forall.
    intros e _. reflexivity.
Qed.

(** ** Aggregates *)

Lemma qmin_le (a b : Q) : (Py.qmin a b <= a)%Q /\ (Py.qmin a b <= b)%Q.
Proof.
  destruct (qmin_spec a b) as [[H ->] | [H ->]]; split; Lqa.lra.
Qed.

Lemma qmax_ge (a b : Q) : (a <= Py.qmax a b)%Q /\ (b <= Py.qmax a b)%Q.
Proof.
  destruct (qmax_spec a b) as [[H ->] | [H ->]]; split; Lqa.lra.
Qed.

Lemma fold_qmin_le (xs : list Q) (x : Q) :
  (fold_left Py.qmin xs x <= x)%Q
  /\ forall y, In y xs -> (fold_left Py.qmin xs x <= y)%Q.
Proof.
  revert x. induction xs as [| a xs IH]; intros x; simpl.
  - split; [Lqa.lra | intros y []].
  - destruct (IH (Py.qmin x a)) as [H1 H2].
    destruct (qmin_le x a) as [L1 L2]. split; [Lqa.lra |].
    intros y [<- | Hy]; [Lqa.lra | apply H2; exact Hy].
Qed.

Lemma fold_qmax_ge (xs : list Q) (x : Q) :
  (x <= fold_left Py.qmax xs x)%Q
  /\ forall y, In y xs -> (y <= fold_left Py.qmax xs x)%Q.
Proof.
  revert x. induction xs as [| a xs IH]; intros x; simpl.
  - split; [Lqa.lra | intros y []].
  - destruct (IH (Py.qmax x a)) as [H1 H2].
    destruct (qmax_ge x a) as [L1 L2]. split; [Lqa.lra |].
    intros y [<- | Hy]; [Lqa.lra | apply H2; exact Hy].
Qed.

Lemma inject_length_S (A : Type) (l : list A) (a : A) :
  (inject_Z (Z.of_nat (List.length (a :: l)))
   == inject_Z (Z.of_nat (List.length l)) + 1)%Q.
Proof.
  simpl List.length. rewrite Nat2Z.inj_succ. unfold Z.succ.
  rewrite inject_Z_plus. reflexivity.
Qed.

Lemma fold_plus_bounds (lo hi : Q) (l : list Q) (a : Q) :
  (forall y, In y l -> (lo <= y)%Q /\ (y <= hi)%Q) ->
  (a + lo * inject_Z (Z.of_nat (List.length l)) <= fold_left Qplus l a)%Q
  /\ (fold_left Qplus l a
      <= a + hi * inject_Z (Z.of_nat (List.length l)))%Q.
Proof.
  revert a. induction l as [| y l IH]; intros a H.
  - change (inject_Z (Z.of_nat (List.length (@nil Q)))) with 0%Q. simpl.
    split; Lqa.lra.
  - destruct (H y (or_introl eq_refl)) as [Hl Hh].
    destruct (IH (a + y)%Q (fun z Hz => H z (or_intror Hz))) as [I1 I2].
    rewrite inject_length_S. simpl fold_left. split; Lqa.lra.
Qed.

Lemma series_min_mean_max (l : list (option Q)) :
  (Py.series_min l <= Py.mean l)%Q /\ (Py.mean l <= Py.series_max l)%Q.
Proof.
  unfold Py.series_min, Py.series_max, Py.mean. cbv zeta.
  destruct (Py.dropna l) as [| x xs] eqn:E.
  - split; discriminate.
  - set (lo := fold_left Py.qmin xs x). set (hi := fold_left Py.qmax xs x).
    destruct (fold_qmin_le xs x) as [L1 L2].
    destruct (fold_qmax_ge xs x) as [U1 U2]. fold lo in L1, L2.
    fold hi in U1, U2.
    assert (Hall : forall y, In y (x :: xs) -> (lo <= y)%Q /\ (y <= hi)%Q).
    { intros y [<- | Hy]; split; auto. }
    destruct (fold_plus_bounds lo hi (x :: xs) 0 Hall) as [S1 S2].
    fold (Py.qsum (x :: xs)) in S1, S2.
    assert (Hn : (0 < inject_Z (Z.of_nat (List.length (x :: xs))))%Q).
    { rewrite inject_length_S.
      assert (0 <= inject_Z (Z.of_nat (List.length xs)))%Q
        by (change 0%Q with (inject_Z 0); rewrite <- Zle_Qle; lia).
      Lqa.lra. }
    split.
    + apply Qle_shift_div_l; [exact Hn | Lqa.lra].
    + apply Qle_shift_div_r; [exact Hn | Lqa.lra].
Qed.

(** X19: in every snapshot row the minimum risk score is at most the average
    and the average at most the maximum, after their rounding to four
    decimals. *)
Theorem snapshot_min_avg_max (today : Z) (prev : list Prior.row)
    (mv rid : string) (df : list profile) :
  Forall (fun s => (Snapshot.min_risk_score s <= Snapshot.avg_risk_score s)%Q
                   /\ (Snapshot.avg_risk_score s
                       <= Snapshot.max_risk_score s)%Q)
         (snapshot_rows today prev mv rid df).
Proof.
  unfold snapshot_rows, grouped. rewrite !Forall_map. apply Forall_forall.
  intros [[c s] o] _. simpl.
  destruct (series_min_mean_max
              (map (fun r => risk_score (ent r)) (members (c, s, o) df)))
    as [H1 H2].
  split; apply round4_mono; assumption.
Qed.

(** ** Dominant cluster *)

Lemma mode_step_invariant (s : list Z) (S : Z -> Prop) (best : option Z)
    (x : Z) :
  match best with
  | None => forall y, ~ S y
  | Some b =>
      S b /\ forall y, S y ->
               (occurrences y s <= occurrences b s)%nat
               /\ (occurrences y s = occurrences b s -> b <= y)
  end ->
  exists c,
    match best with
    | None => Some x
    | Some b =>
        if (occurrences b s <? occurrences x s)%nat
           || ((occurrences b s =? occurrences x s)%nat && (x <? b))
        then Some x else Some b
    end = Some c
    /\ (S c \/ c = x)
    /\ forall y, S y \/ y = x ->
         (occurrences y s <= occurrences c s)%nat
         /\ (occurrences y s = occurrences c s -> c <= y).
Proof.
  destruct best as [b |].
  - intros [Hb Hall].
    destruct ((occurrences b s <? occurrences x s)%nat
              || ((occurrences b s =? occurrences x s)%nat && (x <? b)))
      eqn:E.
    + exists x. split; [reflexivity |]. split; [right; reflexivity |].
      apply orb_true_iff in E.
      intros y [Hy | ->]; [| split; lia].
      destruct (Hall y Hy) as [H1 H2].
      destruct E as [E | E].
      * apply Nat.ltb_lt in E. split; lia.
      * apply andb_true_iff in E. destruct E as [E1 E2].
        apply Nat.eqb_eq in E1. apply Z.ltb_lt in E2.
        split; [lia |]. intros Heq. assert (b <= y) by (apply H2; lia). lia.
    + exists b. split; [reflexivity |]. split; [left; exact Hb |].
      apply orb_false_iff in E. destruct E as [E1 E2].
      apply Nat.ltb_ge in E1.
      intros y [Hy | ->]; [apply Hall; exact Hy |].
      split; [exact E1 |]. intros Heq.
      apply andb_false_iff in E2. destruct E2 as [E2 | E2].
      * apply Nat.eqb_neq in E2. lia.
      * apply Z.ltb_ge in E2. exact E2.
  - intros Hnone. exists x. split; [reflexivity |].
    split; [right; reflexivity |].
    intros y [Hy | ->]; [exfalso; exact (Hnone y Hy) | split; lia].
Qed.

(** X20: the dominant cluster of a non-empty group is one of the labels of
    the group, no label of the group occurs more often, and among the labels
    that occur as often it is the smallest; an empty group has none. *)
Theorem dominant_cluster_is_smallest_mode (s : list Z) :
  (s = [] -> mode_first s = None)
  /\ (s <> [] ->
      exists m,
        mode_first s = Some m
        /\ In m s
        /\ forall y, In y s ->
             (occurrences y s <= occurrences m s)%nat
             /\ (occurrences y s = occurrences m s -> m <= y)).
Proof.
  split; [intros ->; reflexivity |].
  intros Hne. unfold mode_first.
  set (step := fun (best : option Z) (x : Z) =>
                 match best with
                 | None => Some x
                 | Some b =>
                     if (occurrences b s <? occurrences x s)%nat
                        || ((occurrences b s =? occurrences x s)%nat
                            && (x <? b))
                     then Some x else Some b
                 end).
  assert (Hfold : forall l (S : Z -> Prop) b,
    (S b /\ forall y, S y ->
              (occurrences y s <= occurrences b s)%nat
              /\ (occurrences y s = occurrences b s -> b <= y)) ->
    exists m,
      fold_left step l (Some b) = Some m
      /\ (S m \/ In m l)
      /\ forall y, S y \/ In y l ->
           (occurrences y s <= occurrences m s)%nat
           /\ (occurrences y s = occurrences m s -> m <= y)).
  { induction l as [| x l IH]; intros S b Hb.
    - exists b. simpl. split; [reflexivity |]. split; [left; apply Hb |].
      intros y [Hy | []]. apply Hb. exact Hy.
    - destruct (mode_step_invariant s S (Some b) x Hb) as (c & Ec & Hc & Hall).
      change (fold_left step (x :: l) (Some b))
        with (fold_left step l (step (Some b) x)).
      assert (Ec' : step (Some b) x = Some c) by exact Ec.
      rewrite Ec'.
      destruct (IH (fun y => S y \/ y = x) c (conj Hc Hall))
        as (m & Em & Hm & Hmall).
      exists m. split; [exact Em |]. split.
      + destruct Hm as [[Hm | ->] | Hm];
          [left; exact Hm | right; left; reflexivity | right; right; exact Hm].
      + intros y [Hy | [<- | Hy]]; apply Hmall;
          [left; left; exact Hy | left; right; reflexivity | right; exact Hy]. }
  destruct s as [| x l] eqn:Es; [contradiction |]. rewrite <- Es in *.
  assert (Hs : fold_left step s None = fold_left step l (Some x)).
  { rewrite Es at 1. reflexivity. }
  rewrite Hs.
  destruct (Hfold l (fun y => y = x) x) as (m & Em & Hm & Hall).
  { split; [reflexivity |]. intros y ->. split; lia. }
  exists m. split; [exact Em |]. split.
  - rewrite Es. destruct Hm as [-> | Hm]; [left; reflexivity | right; exact Hm].
  - intros y Hy. apply Hall. rewrite Es in Hy.
    destruct Hy as [<- | Hy]; [left; reflexivity | right; exact Hy].
Qed.

(** ** The lookup table of prior averages *)

Lemma py_eqb_of_json (a : option string) : py_eqb (of_json a) (of_json a) = true.
Proof. destruct a; simpl; [apply String.eqb_refl | reflexivity]. Qed.

Lemma prior_key_eqb_refl (r : Prior.row) :
  lookup_key_eqb (prior_key r) (prior_key r) = true.
Proof.
  unfold lookup_key_eqb, prior_key. simpl. now rewrite !py_eqb_of_json.
Qed.

Lemma dict_set_keys (k : lookup_key) (v : Q) (d : dict) :
  lookup_key_eqb k k = true ->
  (In k (map fst d) -> map fst (dict_set k v d) = map fst d)
  /\ (~ In k (map fst d) -> map fst (dict_set k v d) = map fst d ++ [k]).
Proof.
  intros Hk. induction d as [| [k' v'] d [IH1 IH2]]; simpl.
  - split; [intros [] | reflexivity].
  - destruct (lookup_key_eqb k' k) eqn:E.
    + split; [reflexivity |]. intros H. exfalso. apply H. left.
      apply lookup_key_eqb_eq. exact E.
    + simpl. split.
      * intros [H | H]; [subst k'; congruence |]. now rewrite IH1.
      * intros H. rewrite IH2; [reflexivity |]. intros Hin. apply H.
        right. exact Hin.
Qed.

(** X21: the lookup table built from the selected prior snapshots holds each
    (county, state) pair of those rows exactly once and no other key; looked
    up right after a row was entered, the pair of that row gives the average
    of that row, whatever was stored for the pair before. *)
Theorem prev_lookup_table (rows : list Prior.row) :
  NoDup (map fst (prev_lookup rows))
  /\ (forall k, In k (map fst (prev_lookup rows))
                <-> exists r, In r rows /\ prior_key r = k)
  /\ (forall r d,
         dict_get (prev_lookup (rows ++ [r])) (prior_key r) d = prior_avg r)
  /\ (forall r k d,
         prior_key r <> k ->
         dict_get (prev_lookup (rows ++ [r])) k d
         = dict_get (prev_lookup rows) k d).
Proof.
  assert (Hkeys : NoDup (map fst (prev_lookup rows))
                  /\ forall k, In k (map fst (prev_lookup rows))
                               <-> exists r, In r rows /\ prior_key r = k).
  { induction rows as [| r rows [IHn IHk]] using rev_ind.
    - split; [constructor |]. intros k. split; [intros [] |].
      intros [r [[] _]].
    - rewrite prev_lookup_snoc.
      destruct (dict_set_keys (prior_key r) (prior_avg r) (prev_lookup rows)
                  (prior_key_eqb_refl r)) as [K1 K2].
      destruct (in_dec (fun a b : lookup_key =>
                          ltac:(decide equality; decide equality;
                                apply string_dec) : {a = b} + {a <> b})
                       (prior_key r) (map fst (prev_lookup rows)))
        as [Hin | Hnin].
      + rewrite (K1 Hin). split; [exact IHn |]. intros k. rewrite IHk. split.
        * intros [x [Hx Hk]]. exists x. split; [| exact Hk].
          apply in_or_app. left. exact Hx.
        * intros [x [Hx Hk]]. apply in_app_or in Hx.
          destruct Hx as [Hx | [<- | []]]; [exists x; split; assumption |].
          apply IHk. subst k. exact Hin.
      + rewrite (K2 Hnin). split.
        * apply NoDup_app; [exact IHn | constructor; [intros [] | constructor]
                           |].
          intros k Hk [<- | []]. contradiction.
        * intros k. rewrite in_app_iff, IHk. split.
          -- intros [[x [Hx Hk]] | [<- | []]].
             ++ exists x. split; [apply in_or_app; left; exact Hx | exact Hk].
             ++ exists r. split; [apply in_or_app; right; left |]; reflexivity.
          -- intros [x [Hx Hk]]. apply in_app_or in Hx.
             destruct Hx as [Hx | [<- | []]].
             ++ left. exists x. split; assumption.
             ++ right. left. exact Hk. }
  destruct Hkeys as [Hn Hk]. split; [exact Hn |]. split; [exact Hk |].
  split.
  - intros r d. rewrite prev_lookup_snoc, dict_get_set, prior_key_eqb_refl.
    reflexivity.
  - intros r k d Hne. rewrite prev_lookup_snoc, dict_get_set.
    destruct (lookup_key_eqb (prior_key r) k) eqn:E; [| reflexivity].
    apply lookup_key_eqb_eq in E. contradiction.
Qed.

(** ** Monotonicity *)

Lemma household_component_mono (e e' : entity) :
  (Py.fillna 1 (household_size e) <= Py.fillna 1 (household_size e'))%Q ->
  (household_component e <= household_component e')%Q.
Proof.
  intros H. unfold household_component, Py.clip_lower. cbv zeta.
  rewrite !qmin_Qmin, !qmax_Qmax.
  apply Q.min_le_compat_r.
  apply Qmult_le_compat_r; [| discriminate].
  apply Q.max_le_compat_r. exact H.
Qed.

Lemma astype_int_mono (a b : bool) :
  (a = true -> b = true) -> (Py.astype_int a <= Py.astype_int b)%Q.
Proof.
  intros H. destruct a, b; try discriminate.
  specialize (H eq_refl). discriminate.
Qed.

(** X22: the score is monotone within a batch: a profile whose household is
    not larger, which has no risk factor that another lacks, and which has
    transport whenever the other has, never scores higher than the other,
    whatever the dtype of the transportation_access column. *)
Theorem risk_score_monotone (d : dtype) (e e' : entity) :
  (Py.fillna 1 (household_size e) <= Py.fillna 1 (household_size e'))%Q ->
  (Py.fillna false (medication_dependency e) = true ->
   Py.fillna false (medication_dependency e') = true) ->
  (Py.fillna false (insulin_dependency e) = true ->
   Py.fillna false (insulin_dependency e') = true) ->
  (Py.fillna false (oxygen_powered_device e) = true ->
   Py.fillna false (oxygen_powered_device e') = true) ->
  (Py.fillna false (mobility_limitation e) = true ->
   Py.fillna false (mobility_limitation e') = true) ->
  (Py.fillna true (transportation_access e') = true ->
   Py.fillna true (transportation_access e) = true) ->
  (Py.fillna false (financial_strain e) = true ->
   Py.fillna false (financial_strain e') = true) ->
  (risk_row d e <= risk_row d e')%Q.
Proof.
  intros Hh H1 H2 H3 H4 H5 H6. unfold risk_row. apply round4_mono.
  pose proof (household_component_mono e e' Hh) as Mh.
  pose proof (astype_int_mono _ _ H1) as M1.
  pose proof (astype_int_mono _ _ H2) as M2.
  pose proof (astype_int_mono _ _ H3) as M3.
  pose proof (astype_int_mono _ _ H4) as M4.
  pose proof (astype_int_mono _ _ H6) as M6.
  assert (M5 : (invert_int d (Py.fillna true (transportation_access e))
                <= invert_int d (Py.fillna true (transportation_access e')))%Q).
  { destruct (Py.fillna true (transportation_access e')) eqn:T.
    - rewrite (H5 eq_refl). apply Qle_refl.
    - destruct d, (Py.fillna true (transportation_access e)); discriminate. }
  Lqa.lra.
Qed.

(** A household of two with insulin, against itself with a household of
    three, in one batch. *)
Lemma risk_score_monotone_sample :
  (risk_row (transport_dtype
               [ insulin_household_of_two;
                 with_household_size insulin_household_of_two (Some 3%Q) ])
            insulin_household_of_two
   <= risk_row (transport_dtype
                  [ insulin_household_of_two;
                    with_household_size insulin_household_of_two
                                        (Some 3%Q) ])
               (with_household_size insulin_household_of_two (Some 3%Q)))%Q.
Proof.
  apply (risk_score_monotone
           (transport_dtype
              [ insulin_household_of_two;
                with_household_size insulin_household_of_two (Some 3%Q) ])
           insulin_household_of_two
           (with_household_size insulin_household_of_two (Some 3%Q)));
    try (intros H; exact H); discriminate.
Defined.

Lemma classify_drift_mono (v v' : Q) :
  (v <= v')%Q -> severity (classify_drift v) <= severity (classify_drift v').
Proof.
  intros H. unfold classify_drift.
  destruct (Qgtb v (25 # 100)) eqn:A; destruct (Qgtb v' (25 # 100)) eqn:A';
    destruct (Qgtb v (15 # 100)) eqn:B; destruct (Qgtb v' (15 # 100)) eqn:B';
    try apply Qgtb_lt in A; try apply Qgtb_le in A;
    try apply Qgtb_lt in A'; try apply Qgtb_le in A';
    try apply Qgtb_lt in B; try apply Qgtb_le in B;
    try apply Qgtb_lt in B'; try apply Qgtb_le in B';
    simpl; try lia; exfalso; Lqa.lra.
Qed.

(** X23: against a positive prior average, a larger current average never
    gives a smaller drift nor a less serious class, and a current average
    equal to the prior one gives drift 0. *)
Theorem drift_monotone (avg_risk avg_risk' prev_avg : Q) :
  (0 < prev_avg)%Q ->
  (avg_risk <= avg_risk')%Q ->
  (drift_of avg_risk prev_avg <= drift_of avg_risk' prev_avg)%Q
  /\ severity (classify_drift (drift_of avg_risk prev_avg))
     <= severity (classify_drift (drift_of avg_risk' prev_avg))
  /\ (drift_of prev_avg prev_avg == 0)%Q.
Proof.
  intros Hp H.
  assert (Hnz : ~ (prev_avg == 0)%Q).
  { intros E. rewrite E in Hp. revert Hp. discriminate. }
  assert (Hd : (drift_of avg_risk prev_avg <= drift_of avg_risk' prev_avg)%Q).
  { rewrite !drift_of_nonzero by exact Hnz. apply round4_mono.
    unfold Qdiv. apply Qmult_le_compat_r; [Lqa.lra |].
    apply Qlt_le_weak. apply Qinv_lt_0_compat. exact Hp. }
  split; [exact Hd |]. split; [apply classify_drift_mono; exact Hd |].
  rewrite drift_of_nonzero by exact Hnz.
  assert (E : ((prev_avg - prev_avg) / prev_avg == 0)%Q) by (field; exact Hnz).
  rewrite (round4_comp _ _ E). reflexivity.
Qed.

(** Prior average 2.0; current averages 2.4 and 3.0. *)
Lemma drift_monotone_sample :
  (0 < 2)%Q /\ (24 # 10 <= 3)%Q
  /\ (drift_of (24 # 10) 2 <= drift_of 3 2)%Q
  /\ classify_drift (drift_of (24 # 10) 2) = ESCALATING
  /\ classify_drift (drift_of 3 2) = ACCELERATING.
Proof.
  assert (H1 : (0 < 2)%Q) by reflexivity.
  assert (H2 : (24 # 10 <= 3)%Q) by discriminate.
  split; [exact H1 |]. split; [exact H2 |].
  split; [exact (proj1 (drift_monotone (24 # 10) 3 2 H1 H2)) |].
  split; reflexivity.
Defined.

(** ** Runs and the models *)

(** X24: a run that loads no profile consults none of the three models: it
    behaves the same whatever they are. *)
Theorem empty_population_consults_no_model (e : env)
    (k : Z -> list (list R) -> outcome (list Z))
    (d : Q -> Z -> list (list R) -> outcome (list Z))
    (i : Q -> list (list R) -> outcome (list Z)) :
  vulnerability_profiles e = [] ->
  run (with_models e k d i) = run e.
Proof.
  intros H. apply run_process_ext; try reflexivity.
  intros t0. rewrite H. reflexivity.
Qed.

(** The quiet store with models that always raise. *)
Lemma empty_population_consults_no_model_quiet :
  vulnerability_profiles quiet_env = []
  /\ fst (run (with_models quiet_env
                 (fun _ _ => Raise "unused"%string)
                 (fun _ _ _ => Raise "unused"%string)
                 (fun _ _ => Raise "unused"%string)))
     = 0.
Proof.
  split; [reflexivity |].
  rewrite (empty_population_consults_no_model quiet_env
             (fun _ _ => Raise "unused"%string)
             (fun _ _ _ => Raise "unused"%string)
             (fun _ _ => Raise "unused"%string) eq_refl).
  reflexivity.
Defined.

(** X25: when the store accepts every request and the centroid model raises,
    the scores are already written and stay written: the run has issued the
    load, the score upsert and the risk_score audit record, then only the
    FAILED audit record with the model's message; no snapshot is written
    and the exit status is 1. *)
Theorem model_failure_keeps_scores (e : env) (r : entity) (rs : list entity)
    (msg : string) :
  configured e ->
  vulnerability_profiles e = r :: rs ->
  (forall i, response e i = None) ->
  let df := rescore (r :: rs) in
  let n := Z.of_nat (List.length df) in
  KMeans_fit_predict e (kmeans_k n) (scaled_features df) = Raise msg ->
  let w := snd (run e) in
  fst (run e) = 1
  /\ List.length (requests w) = 4%nat
  /\ profile_upserts w
     = map (fun x => (id x, risk_row (transport_dtype (r :: rs)) x)) (r :: rs)
  /\ snapshot_upserts w = []
  /\ map (fun a => (Audit.stage a, Audit.status a, Audit.processed_records a,
                    Audit.error_message a))
         (audit_log w)
     = [ ("risk_score"%string, SUCCESS, n, None);
         ("pipeline"%string, FAILED, 0, Some msg) ].
Proof.
  intros Hc Hp Hacc df n Hkm w.
  assert (Hrun : exists a1 a2,
    map (fun a => (Audit.stage a, Audit.status a, Audit.processed_records a,
                   Audit.error_message a)) [a1; a2]
    = [ ("risk_score"%string, SUCCESS, n, None);
        ("pipeline"%string, FAILED, 0, Some msg) ]
    /\ run e
       = (1, {| ticks := 3;
                requests :=
                  map (fun o => {| op := o; accepted := true |})
                    [ SelectProfiles;
                      UpsertProfiles
                        (map (fun x => (id x,
                                        risk_row (transport_dtype (r :: rs))
                                                 x))
                             (r :: rs));
                      InsertAudit [a1]; InsertAudit [a2] ] |})).
  { do 2 eexists. split; [| rewrite (run_configured e Hc)].
    2:{ unfold pipeline, select_profiles. unfold bind at 1 2.
        rewrite (http_accepted e Hacc). unfold ret at 1. rewrite Hp.
        unfold process. cbv zeta. rewrite rescored_updates. fold df. fold n.
        unfold bind at 1. unfold upsert_profiles. cbn [map].
        rewrite (http_accepted e Hacc).
        unfold bind at 1. rewrite (log_stage_accepted e Hacc).
        unfold bind at 1. rewrite Hkm. unfold lift at 1.
        rewrite (log_stage_accepted e Hacc).
        unfold push, tick, started_world.
        cbn [snd ticks requests app map]. reflexivity. }
    reflexivity. }
  destruct Hrun as (a1 & a2 & Hst & Hrun).
  unfold w. rewrite Hrun. cbn [fst snd].
  split; [reflexivity |]. split; [reflexivity |].
  split; [unfold profile_upserts;
          cbn [requests map filter accepted flat_map op app];
          rewrite ?app_nil_r; reflexivity |].
  split; [reflexivity |]. exact Hst.
Qed.

(** One profile and a centroid model that refuses a batch smaller than the
    two clusters asked for. *)
Lemma model_failure_keeps_scores_single :
  configured strict_kmeans_env
  /\ fst (run strict_kmeans_env) = 1
  /\ List.length (profile_upserts (snd (run strict_kmeans_env))) = 1%nat
  /\ snapshot_upserts (snd (run strict_kmeans_env)) = [].
Proof.
  assert (Hc : configured strict_kmeans_env) by (split; discriminate).
  assert (Ha : forall i, response strict_kmeans_env i = None) by reflexivity.
  destruct (model_failure_keeps_scores strict_kmeans_env
              insulin_household_of_two []
              "n_samples should be >= n_clusters"
              Hc eq_refl Ha eq_refl)
    as (H1 & _ & Hu & Hs & _).
  split; [exact Hc |]. split; [exact H1 |].
  split; [rewrite Hu; reflexivity | exact Hs].
Defined.
